(** * Camera-Test: a shallow embedding of DirectShowCamera.cpp

    The program is a Windows DirectShow client.  Its computational core is
    small: the brightness average and the FPS estimate of [CSampleGrabberCB],
    the BMP writer of [CFrameSavingCallback], and the status-code handling of
    [DirectShowCamera].  Those functions are transcribed below; the calls into
    the platform (COM object creation, the tick counter, file creation) are
    inputs of the model: every result the platform hands back is a parameter
    of the function that asks for it.

    Integer types follow the only ABI the source builds for (it includes
    windows.h and dshow.h): [int], [long], [LONG] and [HRESULT] are 32-bit
    two's complement, [DWORD] is 32-bit unsigned, [WORD] is 16-bit unsigned,
    [BYTE] is 8-bit unsigned.  Arithmetic whose result can leave the range of
    its type is written with the wrap-around spelled out ([add_long],
    [neg_long], [sub_dword], [add_dword]).  The byte index [i] of the two
    frame loops and the device position of the enumeration loop are written
    in [Z]: lemma [for_step3_index_range] shows that the index stays below
    [frameSize + 3], hence inside the range of [long] for every buffer of at
    most [LONG_MAX - 2] bytes.

    Console output (std::cout) is not modelled. *)

From Stdlib Require Import ZArith QArith String Ascii List Sorted Lia.
From Stdlib.Strings Require Import Byte.
From stdpp Require Import base tactics option list.

Local Open Scope Z_scope.

(** ** Machine integers *)

Module MachineInt.

Definition LONG_MAX : Z := 2147483647.
Definition LONG_MIN : Z := -2147483648.
Definition DWORD_MODULUS : Z := 4294967296.

(** Reduction of a mathematical integer to the 32-bit signed range. *)
Definition wrap_long (z : Z) : Z :=
  (z + 2147483648) mod DWORD_MODULUS - 2147483648.

(** Reduction to the 32-bit unsigned range; also the conversion of a
    [long] to a [DWORD]. *)
Definition wrap_dword (z : Z) : Z := z mod DWORD_MODULUS.

Definition add_long (a b : Z) : Z := wrap_long (a + b).
Definition neg_long (a : Z) : Z := wrap_long (- a).
Definition add_dword (a b : Z) : Z := wrap_dword (a + b).
Definition sub_dword (a b : Z) : Z := wrap_dword (a - b).

Definition is_long (z : Z) : Prop := LONG_MIN <= z <= LONG_MAX.

End MachineInt.

Export MachineInt.

(** ** Values of type double

    Every floating-point operation of the program is a division (or a
    product followed by a division) whose operands are integers below 2^53,
    hence exactly representable.  [DFin q] stands for the binary64 number
    nearest to the rational [q]; [ddiv] is the IEEE 754 quotient of two such
    integers, including its results for a zero divisor. *)

Inductive double : Type :=
| DNaN
| DInf (negative : bool)
| DFin (q : Q).

Definition ddiv (num den : Z) : double :=
  match den with
  | Z0 => if num =? 0 then DNaN else DInf (num <? 0)
  | Zpos p => DFin (num # p)
  | Zneg p => DFin (- num # p)
  end.

Definition is_finite (d : double) : bool :=
  match d with
  | DFin _ => true
  | _ => false
  end.

(** [lo <= d <= hi] for a finite double, false for NaN and infinities. *)
Definition double_between (lo hi : Z) (d : double) : Prop :=
  match d with
  | DFin q => (inject_Z lo <= q)%Q /\ (q <= inject_Z hi)%Q
  | _ => False
  end.

(** ** Results of code that can fault

    [Crash] is the end of the process: an integer division by zero or an
    access through a null pointer. *)

Inductive outcome (A : Type) : Type :=
| Crash
| Ret (a : A).

Arguments Crash {A}.
Arguments Ret {A} a.

(** ** Frame buffers *)

(** The unsigned value of a BYTE, as promoted to [int]. *)
Definition byte_val (b : byte) : Z := Z.of_N (Byte.to_N b).

(** [frameData[i]] *)
Definition at_index (frameData : list byte) (i : Z) : byte :=
  default x00 (frameData !! Z.to_nat i).

(** [for (long i = start; i < frameSize; i += 3) acc = body i acc;]
    Every iteration advances [i] by 3, so [Z.to_nat frameSize] iterations
    are always enough (lemma [for_step3_fuel]). *)
Fixpoint for_step3 {A : Type} (fuel : nat) (frameSize i : Z)
    (body : Z -> A -> A) (acc : A) : A :=
  match fuel with
  | O => acc
  | S fuel' =>
      if i <? frameSize
      then for_step3 fuel' frameSize (i + 3) body (body i acc)
      else acc
  end.

(** ** CSampleGrabberCB *)

Module CSampleGrabberCB.

Record t : Type := {
  m_refCount : Z;
  m_frameCount : Z;
  m_startTime : Z;
  m_lastFrameTime : Z
}.

(** The constructor; [tick] is the value of GetTickCount(). *)
Definition create (tick : Z) : t :=
  {| m_refCount := 1; m_frameCount := 0; m_startTime := tick;
     m_lastFrameTime := 0 |}.

Definition ResetStatistics (tick : Z) (this : t) : t :=
  {| m_refCount := m_refCount this; m_frameCount := 0;
     m_startTime := tick; m_lastFrameTime := m_lastFrameTime this |}.

(** [tick] is the value of GetTickCount() at the call.  The product
    [(double)m_frameCount * 1000.0] is an integer below 2^41 and exact. *)
Definition GetAverageFPS (tick : Z) (this : t) : double :=
  let elapsed := sub_dword tick (m_startTime this) in
  if 0 <? elapsed
  then ddiv (m_frameCount this * 1000) elapsed
  else DFin 0.

(** The body of the loop of CalculateAverageBrightness. *)
Definition brightness_step (frameData : list byte) (frameSize : Z)
    (i : Z) (totalBrightness : Z) : Z :=
  if i + 2 <? frameSize
  then add_long totalBrightness
         ((byte_val (at_index frameData i)
           + byte_val (at_index frameData (i + 1))
           + byte_val (at_index frameData (i + 2))) ÷ 3)
  else totalBrightness.

Definition total_brightness (frameData : list byte) (frameSize : Z) : Z :=
  for_step3 (Z.to_nat frameSize) frameSize 0
    (brightness_step frameData frameSize) 0.

Definition CalculateAverageBrightness (frameData : list byte)
    (frameSize : Z) : double :=
  let totalBrightness := total_brightness frameData frameSize in
  if 0 <? frameSize
  then ddiv totalBrightness (frameSize ÷ 3)
  else DFin 0.

(** AnalyzeFrame computes the brightness of a frame of positive size (and
    prints it every 60th call).  [None] for [frameData] is the null
    pointer: the first pixel read faults, and a pixel is read as soon as
    the frame has three bytes. *)
Definition AnalyzeFrame (frameData : option (list byte)) (frameSize : Z)
    : outcome (option double) :=
  if 0 <? frameSize then
    match frameData with
    | Some data => Ret (Some (CalculateAverageBrightness data frameSize))
    | None =>
        if 2 <? frameSize then Crash
        else Ret (Some (CalculateAverageBrightness [] frameSize))
    end
  else Ret None.

Definition ProcessFrame (frameData : option (list byte)) (frameSize : Z)
    : outcome (option double) :=
  AnalyzeFrame frameData frameSize.

End CSampleGrabberCB.

(** ** The pixels of a frame, in the words of the specification

    An RGB24 frame is a sequence of 3-byte pixels; one or two bytes after
    the last complete pixel belong to no pixel. *)

Fixpoint pixels (frameData : list byte) : list (byte * byte * byte) :=
  match frameData with
  | b0 :: b1 :: b2 :: rest => (b0, b1, b2) :: pixels rest
  | _ => []
  end.

(** The integer quotient (b0 + b1 + b2) / 3. *)
Definition pixel_brightness (p : byte * byte * byte) : Z :=
  let '(b0, b1, b2) := p in (byte_val b0 + byte_val b1 + byte_val b2) / 3.

(** The sum over every pixel of its brightness. *)
Definition brightness_sum (frameData : list byte) : Z :=
  foldr Z.add 0 (pixel_brightness <$> pixels frameData).

(** The frame with the first and the third byte of every complete pixel
    exchanged, and with zeros for the bytes after the last complete pixel. *)
Fixpoint swap_red_blue (frameData : list byte) : list byte :=
  match frameData with
  | b0 :: b1 :: b2 :: rest => b2 :: b1 :: b0 :: swap_red_blue rest
  | tail => replicate (length tail) x00
  end.

(** The exchange alone, which keeps the bytes after the last complete
    pixel, and the zeroing of those bytes alone. *)
Fixpoint swap_complete_pixels (frameData : list byte) : list byte :=
  match frameData with
  | b0 :: b1 :: b2 :: rest => b2 :: b1 :: b0 :: swap_complete_pixels rest
  | tail => tail
  end.

Fixpoint zero_tail (frameData : list byte) : list byte :=
  match frameData with
  | b0 :: b1 :: b2 :: rest => b0 :: b1 :: b2 :: zero_tail rest
  | tail => replicate (length tail) x00
  end.

(** The exchange on one pixel. *)
Definition swap_pixel (p : byte * byte * byte) : byte * byte * byte :=
  let '(b0, b1, b2) := p in (b2, b1, b0).

(** ** Windows bitmap headers (wingdi.h)

    The field lists and the two sizes are those of the Windows SDK, which
    the source includes and which is not part of the repository. *)

Module WinGDI.

Record BITMAPFILEHEADER : Type := {
  bfType : Z;
  bfSize : Z;
  bfReserved1 : Z;
  bfReserved2 : Z;
  bfOffBits : Z
}.

Record BITMAPINFOHEADER : Type := {
  biSize : Z;
  biWidth : Z;
  biHeight : Z;
  biPlanes : Z;
  biBitCount : Z;
  biCompression : Z;
  biSizeImage : Z;
  biXPelsPerMeter : Z;
  biYPelsPerMeter : Z;
  biClrUsed : Z;
  biClrImportant : Z
}.

Definition sizeof_BITMAPFILEHEADER : Z := 14.
Definition sizeof_BITMAPINFOHEADER : Z := 40.
Definition BI_RGB : Z := 0.

End WinGDI.

Export WinGDI.

(** ** CFrameSavingCallback *)

Module CFrameSavingCallback.

Record t : Type := {
  m_frameSaved : bool;
  m_imageWidth : Z;
  m_imageHeight : Z
}.

Definition create : t :=
  {| m_frameSaved := false; m_imageWidth := 0; m_imageHeight := 0 |}.

Definition SetImageDimensions (width height : Z) (this : t) : t :=
  {| m_frameSaved := m_frameSaved this;
     m_imageWidth := width; m_imageHeight := height |}.

(** A file as CreateFileA and the three WriteFile calls leave it: the two
    headers, then the pixel bytes. *)
Record bmp_file : Type := {
  file_name : string;
  file_header : BITMAPFILEHEADER;
  info_header : BITMAPINFOHEADER;
  pixel_data : list byte
}.

(** [(int)std::sqrt(totalPixels * 1.33)].  The product is a multiple of
    1/100 up to a relative error of 2^-52, so the truncated square root
    is the integer square root of the truncated product. *)
Definition estimated_width (totalPixels : Z) : Z :=
  Z.sqrt (totalPixels * 133 / 100).

(** The dimensions in force when the headers are filled: the configured
    ones, or an estimate when one of them is zero.  The estimate divides
    by the estimated width. *)
Definition image_dimensions (this : t) (frameSize : Z) : outcome (Z * Z) :=
  if (m_imageWidth this =? 0) || (m_imageHeight this =? 0) then
    let totalPixels := frameSize ÷ 3 in
    let width := estimated_width totalPixels in
    if width =? 0 then Crash else Ret (width, totalPixels ÷ width)
  else Ret (m_imageWidth this, m_imageHeight this).

Definition file_header_of (frameSize : Z) : BITMAPFILEHEADER :=
  let offBits := sizeof_BITMAPFILEHEADER + sizeof_BITMAPINFOHEADER in
  {| bfType := 19778;
     bfSize := add_dword offBits (wrap_dword frameSize);
     bfReserved1 := 0;
     bfReserved2 := 0;
     bfOffBits := offBits |}.

Definition info_header_of (width height frameSize : Z) : BITMAPINFOHEADER :=
  {| biSize := sizeof_BITMAPINFOHEADER;
     biWidth := width;
     biHeight := neg_long height;
     biPlanes := 1;
     biBitCount := 24;
     biCompression := BI_RGB;
     biSizeImage := wrap_dword frameSize;
     biXPelsPerMeter := 0;
     biYPelsPerMeter := 0;
     biClrUsed := 0;
     biClrImportant := 0 |}.

(** The body of the conversion loop: three stores into [rgbData]. *)
Definition bgr_step (frameData : list byte) (frameSize : Z)
    (i : Z) (rgbData : list byte) : list byte :=
  if i + 2 <? frameSize
  then
    <[Z.to_nat (i + 2) := at_index frameData i]>
      (<[Z.to_nat (i + 1) := at_index frameData (i + 1)]>
         (<[Z.to_nat i := at_index frameData (i + 2)]> rgbData))
  else rgbData.

(** [std::vector<BYTE> rgbData(frameSize)] is zero-filled, then the loop
    runs over it. *)
Definition bgr_to_rgb (frameData : list byte) (frameSize : Z) : list byte :=
  for_step3 (Z.to_nat frameSize) frameSize 0
    (bgr_step frameData frameSize)
    (replicate (Z.to_nat frameSize) x00).

(** [create_ok] tells whether CreateFileA returns a valid handle. *)
Definition SaveFrameAsBMP (create_ok : bool) (this : t)
    (frameData : list byte) (frameSize : Z)
    : outcome (t * option bmp_file) :=
  match image_dimensions this frameSize with
  | Crash => Crash
  | Ret (width, height) =>
      let this' :=
        {| m_frameSaved := m_frameSaved this;
           m_imageWidth := width; m_imageHeight := height |} in
      if create_ok then
        Ret (this',
             Some {| file_name := "captured_frame.bmp";
                     file_header := file_header_of frameSize;
                     info_header := info_header_of width height frameSize;
                     pixel_data := bgr_to_rgb frameData frameSize |})
      else Ret (this', None)
  end.

Definition mark_saved (this : t) : t :=
  {| m_frameSaved := true;
     m_imageWidth := m_imageWidth this;
     m_imageHeight := m_imageHeight this |}.

(** The override: base-class processing first, then the save of the first
    frame.  The result carries the file written by this call, if any. *)
Definition ProcessFrame (create_ok : bool) (this : t)
    (frameData : option (list byte)) (frameSize : Z)
    : outcome (t * option bmp_file) :=
  match CSampleGrabberCB.ProcessFrame frameData frameSize with
  | Crash => Crash
  | Ret _ =>
      match frameData with
      | Some data =>
          if negb (m_frameSaved this) && (0 <? frameSize) then
            match SaveFrameAsBMP create_ok this data frameSize with
            | Crash => Crash
            | Ret (this', written) => Ret (mark_saved this', written)
            end
          else Ret (this, None)
      | None => Ret (this, None)
      end
  end.

(** One delivery of a frame by the framework. *)
Record invocation : Type := {
  inv_create_ok : bool;
  inv_frameData : option (list byte);
  inv_frameSize : Z
}.

Definition deliver (this : t) (inv : invocation)
    : outcome (t * option bmp_file) :=
  ProcessFrame (inv_create_ok inv) this (inv_frameData inv)
    (inv_frameSize inv).

(** The life of one callback object: the frames delivered to it in order,
    until the process ends.  The result lists the files written, with the
    position of the invocation that wrote each. *)
Fixpoint run_from (position : nat) (this : t) (invs : list invocation)
    : list (nat * bmp_file) :=
  match invs with
  | [] => []
  | inv :: rest =>
      match deliver this inv with
      | Crash => []
      | Ret (this', Some f) => (position, f) :: run_from (S position) this' rest
      | Ret (this', None) => run_from (S position) this' rest
      end
  end.

Definition run (this : t) (invs : list invocation) : list (nat * bmp_file) :=
  run_from 0 this invs.

(** A frame that the save condition accepts. *)
Definition saveable (inv : invocation) : bool :=
  match inv_frameData inv with
  | Some _ => 0 <? inv_frameSize inv
  | None => false
  end.

End CFrameSavingCallback.

(** ** Status codes (winerror.h, vfwmsgs.h)

    An HRESULT is a 32-bit signed integer; the codes are those of the
    Windows SDK, written as the SDK writes them and reduced to the signed
    range. *)

Module HResult.

Definition S_OK : Z := 0.
Definition S_FALSE : Z := 1.
Definition E_NOINTERFACE : Z := wrap_long 0x80004002.
Definition E_FAIL : Z := wrap_long 0x80004005.
Definition E_INVALIDARG : Z := wrap_long 0x80070057.
Definition REGDB_E_CLASSNOTREG : Z := wrap_long 0x80040154.
Definition VFW_E_NOT_FOUND : Z := wrap_long 0x80040216.
Definition VFW_E_CANNOT_CONNECT : Z := wrap_long 0x80040217.

(** The macros FAILED and SUCCEEDED. *)
Definition FAILED (hr : Z) : bool := hr <? 0.
Definition SUCCEEDED (hr : Z) : bool := 0 <=? hr.

End HResult.

Export HResult.

(** ** Hexadecimal output ([std::hex])

    A [long] written in base 16 is written as the unsigned value of its 32
    bits: lower-case digits, no leading zeros, at most eight digits. *)

Definition hex_digit (d : Z) : ascii :=
  match d with
  | 0 => "0" | 1 => "1" | 2 => "2" | 3 => "3" | 4 => "4" | 5 => "5"
  | 6 => "6" | 7 => "7" | 8 => "8" | 9 => "9" | 10 => "a" | 11 => "b"
  | 12 => "c" | 13 => "d" | 14 => "e" | _ => "f"
  end%char.

Fixpoint hex_digits (fuel : nat) (n : Z) (acc : string) : string :=
  match fuel with
  | O => acc
  | S fuel' =>
      let acc' := String (hex_digit (n mod 16)) acc in
      if n / 16 =? 0 then acc' else hex_digits fuel' (n / 16) acc'
  end.

Definition to_hex (hr : Z) : string := hex_digits 8 (wrap_dword hr) "".

(** Reading a hexadecimal numeral back, to say what [to_hex] prints. *)
Definition hex_digit_value (c : ascii) : Z :=
  let n := Z.of_N (N_of_ascii c) in
  if n <? 58 then n - 48 else n - 87.

Fixpoint hex_value_from (acc : Z) (s : string) : Z :=
  match s with
  | EmptyString => acc
  | String c rest => hex_value_from (acc * 16 + hex_digit_value c) rest
  end.

Definition hex_value (s : string) : Z := hex_value_from 0 s.

(** ** DirectShowCamera *)

Module DirectShowCamera.

(** *** GetErrorDescription *)

Definition GetErrorDescription (hr : Z) : string :=
  let ss := ("HRESULT: 0x" ++ to_hex hr)%string in
  if hr =? VFW_E_NOT_FOUND then (ss ++ " (No capture devices found)")%string
  else if hr =? E_NOINTERFACE then (ss ++ " (Interface not supported)")%string
  else if hr =? E_INVALIDARG then (ss ++ " (Invalid argument)")%string
  else if hr =? VFW_E_CANNOT_CONNECT then (ss ++ " (Cannot connect filters)")%string
  else (ss ++ " (Unknown error)")%string.

(** The five descriptions the switch can append. *)
Definition descriptions : list string :=
  [ "(No capture devices found)"; "(Interface not supported)";
    "(Invalid argument)"; "(Cannot connect filters)";
    "(Unknown error)" ]%string.

(** *** Enumeratecameras *)

(** What the platform answers for one device of the category. *)
Record Moniker : Type := {
  moniker_id : nat;
  BindToStorage_hr : Z;
  Read_FriendlyName_hr : Z;
  FriendlyName_value : string
}.

Record CameraInfo : Type := {
  friendlyName : string;
  devicePath : string;
  moniker : Moniker;
  index : Z
}.

(** What the platform answers during one enumeration: the status of the
    creation of the system device enumerator, the status of
    CreateClassEnumerator, and the enumerator it stores in [pEnum]
    ([None]: the pointer stays null), given as the monikers that Next
    yields with S_OK, in order. *)
Record DeviceEnumeration : Type := {
  CoCreateInstance_hr : Z;
  CreateClassEnumerator_hr : Z;
  pEnum : option (list Moniker)
}.

(** The while loop; [cameras.push_back] appends. *)
Fixpoint enumerate_loop (monikers : list Moniker) (position : Z)
    (cameras : list CameraInfo) : list CameraInfo :=
  match monikers with
  | [] => cameras
  | pMoniker :: rest =>
      let cameras' :=
        if SUCCEEDED (BindToStorage_hr pMoniker) then
          if SUCCEEDED (Read_FriendlyName_hr pMoniker) then
            cameras ++
              [ {| friendlyName := FriendlyName_value pMoniker;
                   devicePath := "";
                   moniker := pMoniker;
                   index := position |} ]
          else cameras
        else cameras in
      enumerate_loop rest (position + 1) cameras'
  end.

(** The entry that the loop stores for a device, and the condition under
    which it stores one, in the words of the specification: the device
    yields a readable FriendlyName. *)
Definition camera_info_of (pMoniker : Moniker) (position : Z) : CameraInfo :=
  {| friendlyName := FriendlyName_value pMoniker;
     devicePath := "";
     moniker := pMoniker;
     index := position |}.

Definition readable (pMoniker : Moniker) : bool :=
  SUCCEEDED (BindToStorage_hr pMoniker)
  && SUCCEEDED (Read_FriendlyName_hr pMoniker).

(** The argument [cameras] is the content of the caller's vector at the
    call; the result is the status and the content at the return. *)
Definition Enumeratecameras (world : DeviceEnumeration)
    (cameras : list CameraInfo) : outcome (Z * list CameraInfo) :=
  let cameras0 : list CameraInfo := [] in
  if FAILED (CoCreateInstance_hr world)
  then Ret (CoCreateInstance_hr world, cameras0)
  else if CreateClassEnumerator_hr world =? S_FALSE
  then Ret (VFW_E_NOT_FOUND, cameras0)
  else
    match pEnum world with
    | None => Crash
    | Some monikers =>
        let cameras1 := enumerate_loop monikers 0 cameras0 in
        Ret (match cameras1 with
             | [] => VFW_E_NOT_FOUND
             | _ => S_OK
             end, cameras1)
    end.

End DirectShowCamera.

(** * The objects and their calls

    The definitions below cover the member functions that the frame
    analysis, the BMP writer and the enumeration above do not: the COM
    reference counting and the frame delivery of the callback, and the
    methods of DirectShowCamera call by call. *)

(** ** More words for frames and strings *)

(** The sum of the three bytes of a pixel, and of all pixels of a frame. *)
Definition pixel_total (p : byte * byte * byte) : Z :=
  let '(b0, b1, b2) := p in byte_val b0 + byte_val b1 + byte_val b2.

Definition byte_total (frameData : list byte) : Z :=
  foldr Z.add 0 (pixel_total <$> pixels frameData).

(** The digits that [std::hex] prints. *)
Definition is_lower_hex (c : ascii) : bool :=
  let n := Z.of_N (N_of_ascii c) in
  ((48 <=? n) && (n <=? 57)) || ((97 <=? n) && (n <=? 102)).

Fixpoint string_forall (P : ascii -> bool) (s : string) : bool :=
  match s with
  | EmptyString => true
  | String c rest => P c && string_forall P rest
  end.

(** The part of a string before its first space. *)
Fixpoint until_space (s : string) : string :=
  match s with
  | EmptyString => EmptyString
  | String c rest =>
      if Ascii.eqb c " " then EmptyString else String c (until_space rest)
  end.

(** ** CSampleGrabberCB as a COM object *)

Module SampleGrabberCallback.

Import CSampleGrabberCB.

Inductive REFIID : Type :=
| IID_IUnknown
| IID_ISampleGrabberCB
| IID_other (guid : N).

Definition set_refCount (count : Z) (this : CSampleGrabberCB.t)
    : CSampleGrabberCB.t :=
  {| m_refCount := count;
     m_frameCount := m_frameCount this;
     m_startTime := m_startTime this;
     m_lastFrameTime := m_lastFrameTime this |}.

(** [++m_refCount] on a ULONG. *)
Definition AddRef (this : CSampleGrabberCB.t) : Z * CSampleGrabberCB.t :=
  let count := wrap_dword (m_refCount this + 1) in
  (count, set_refCount count this).

(** [--m_refCount]; at zero the object deletes itself ([None]). *)
Definition Release (this : CSampleGrabberCB.t)
    : Z * option CSampleGrabberCB.t :=
  let count := wrap_dword (m_refCount this - 1) in
  if count =? 0 then (0, None) else (count, Some (set_refCount count this)).

(** The result is the status, whether [*ppv] was written, and the object. *)
Definition QueryInterface (riid : REFIID) (this : CSampleGrabberCB.t)
    : Z * bool * CSampleGrabberCB.t :=
  match riid with
  | IID_IUnknown | IID_ISampleGrabberCB => (S_OK, true, snd (AddRef this))
  | IID_other _ => (E_NOINTERFACE, false, this)
  end.

Definition SampleCB (this : CSampleGrabberCB.t) : Z * CSampleGrabberCB.t :=
  (S_OK, this).

(** BufferCB counts the frame, stamps it with the tick counter and hands it
    to the virtual ProcessFrame, given here as [process]; OnFrameReceived
    does nothing in both classes. *)
Definition BufferCB {R : Type}
    (process : option (list byte) -> Z -> outcome R)
    (tick : Z) (this : CSampleGrabberCB.t)
    (pBuffer : option (list byte)) (bufferLen : Z)
    : outcome (Z * CSampleGrabberCB.t * R) :=
  let this' :=
    {| m_refCount := m_refCount this;
       m_frameCount := add_long (m_frameCount this) 1;
       m_startTime := m_startTime this;
       m_lastFrameTime := tick |} in
  match process pBuffer bufferLen with
  | Crash => Crash
  | Ret r => Ret (S_OK, this', r)
  end.

(** One call of the framework on the interface of the object. *)
Inductive ref_op : Type :=
| DoAddRef
| DoRelease
| DoQueryInterface (riid : REFIID).

(** Calls in order; a call on a deleted object is a use after free. *)
Fixpoint run_refs (object : option CSampleGrabberCB.t) (ops : list ref_op)
    : outcome (option CSampleGrabberCB.t) :=
  match ops with
  | [] => Ret object
  | op :: rest =>
      match object with
      | None => Crash
      | Some this =>
          match op with
          | DoAddRef => run_refs (Some (snd (AddRef this))) rest
          | DoRelease => run_refs (snd (Release this)) rest
          | DoQueryInterface riid =>
              run_refs (Some (snd (QueryInterface riid this))) rest
          end
      end
  end.

(** The references a call adds, in the words of COM. *)
Definition ref_delta (op : ref_op) : Z :=
  match op with
  | DoAddRef => 1
  | DoRelease => -1
  | DoQueryInterface (IID_other _) => 0
  | DoQueryInterface _ => 1
  end.

(** The count stays between 1 and the largest ULONG after every call. *)
Fixpoint stays_referenced (count : Z) (ops : list ref_op) : bool :=
  match ops with
  | [] => true
  | op :: rest =>
      let count' := count + ref_delta op in
      (1 <=? count') && (count' <? DWORD_MODULUS)
      && stays_referenced count' rest
  end.

Definition ref_total (ops : list ref_op) : Z :=
  foldr Z.add 0 (ref_delta <$> ops).

(** One frame handed to BufferCB of the base class. *)
Record delivery : Type := {
  delivery_tick : Z;
  delivery_buffer : option (list byte);
  delivery_len : Z
}.

Fixpoint deliver_all (this : CSampleGrabberCB.t) (frames : list delivery)
    : outcome CSampleGrabberCB.t :=
  match frames with
  | [] => Ret this
  | d :: rest =>
      match BufferCB CSampleGrabberCB.ProcessFrame (delivery_tick d) this
              (delivery_buffer d) (delivery_len d) with
      | Crash => Crash
      | Ret (_, this', _) => deliver_all this' rest
      end
  end.

End SampleGrabberCallback.

(** ** DirectShowCamera, call by call

    The methods of DirectShowCamera are sequences of COM calls.  Each call
    is answered by the platform: [answers] gives the status of a call from
    the log of the calls made so far, [devices] what an enumeration of the
    capture devices meets, and [connected_type] the media type of the
    connection.  A smart pointer is modelled by whether it is set; a
    pointer written by a failing call is null.  A method call through a
    null pointer ends the process.  The Release calls that the smart
    pointers make on the platform's objects are not logged. *)

Module Camera.

Inductive Clsid : Type :=
| CLSID_SystemDeviceEnum
| CLSID_FilterGraph
| CLSID_CaptureGraphBuilder2
| CLSID_SampleGrabber
| CLSID_NullRenderer.

Inductive Iid : Type :=
| IID_IMediaControl
| IID_IMediaEvent
| IID_ISampleGrabber.

Inductive MediaSubType : Type :=
| MEDIASUBTYPE_RGB24
| MEDIASUBTYPE_other (guid : N).

(** A callback object: one created by the camera itself (numbered by the
    length of the log at its creation) or one of the caller's. *)
Inductive CallbackPtr : Type :=
| OwnCallback (serial : nat)
| UserCallback (address : nat).

Definition CallbackPtr_eqb (p q : CallbackPtr) : bool :=
  match p, q with
  | OwnCallback m, OwnCallback n => Nat.eqb m n
  | UserCallback m, UserCallback n => Nat.eqb m n
  | _, _ => false
  end.

Inductive Call : Type :=
| CoInitializeEx
| CoUninitialize
| CoCreateInstance (rclsid : Clsid)
| QueryInterface (riid : Iid)
| SetFiltergraph
| BindToObject (pMoniker : DirectShowCamera.Moniker)
| AddFilter (pName : string)
| SetMediaType (subtype : MediaSubType)
| SetCallback (pCallback : CallbackPtr) (WhichMethodToCallback : Z)
| SetBufferSamples (BufferThem : bool)
| RenderStream (pSource : option DirectShowCamera.Moniker)
    (pIntermediate pSink : bool)
| Run
| Stop
| Pause
| GetConnectedMediaType
| NewCallback (p : CallbackPtr)
| CallbackAddRef (p : CallbackPtr)
| CallbackRelease (p : CallbackPtr)
| CallbackResetStatistics (p : CallbackPtr).

(** The fields of VIDEOINFOHEADER that GetCameraFormat reads. *)
Record MediaType : Type := {
  formattype_is_VideoInfo : bool;
  bmi_biWidth : Z;
  bmi_biHeight : Z
}.

Record t : Type := {
  m_pGraph : bool;
  m_pCaptureGraphBuilder : bool;
  m_pMediaControl : bool;
  m_pMediaEvent : bool;
  m_pCameraFilter : option DirectShowCamera.Moniker;
  m_pSampleGrabberFilter : bool;
  m_pSampleGrabber : bool;
  m_pNullRenderer : bool;
  m_pCallback : option CallbackPtr;
  m_isInitialized : bool;
  m_isCapturing : bool;
  m_currentCapabilities : Z * Z
}.

(** The constructor. *)
Definition create : t :=
  {| m_pGraph := false; m_pCaptureGraphBuilder := false;
     m_pMediaControl := false; m_pMediaEvent := false;
     m_pCameraFilter := None; m_pSampleGrabberFilter := false;
     m_pSampleGrabber := false; m_pNullRenderer := false;
     m_pCallback := None; m_isInitialized := false; m_isCapturing := false;
     m_currentCapabilities := (0, 0) |}.

Definition set_m_pGraph (v : bool) (c : t) : t :=
  {| m_pGraph := v; m_pCaptureGraphBuilder := m_pCaptureGraphBuilder c;
     m_pMediaControl := m_pMediaControl c; m_pMediaEvent := m_pMediaEvent c;
     m_pCameraFilter := m_pCameraFilter c;
     m_pSampleGrabberFilter := m_pSampleGrabberFilter c;
     m_pSampleGrabber := m_pSampleGrabber c;
     m_pNullRenderer := m_pNullRenderer c; m_pCallback := m_pCallback c;
     m_isInitialized := m_isInitialized c; m_isCapturing := m_isCapturing c;
     m_currentCapabilities := m_currentCapabilities c |}.

Definition set_m_pCaptureGraphBuilder (v : bool) (c : t) : t :=
  {| m_pGraph := m_pGraph c; m_pCaptureGraphBuilder := v;
     m_pMediaControl := m_pMediaControl c; m_pMediaEvent := m_pMediaEvent c;
     m_pCameraFilter := m_pCameraFilter c;
     m_pSampleGrabberFilter := m_pSampleGrabberFilter c;
     m_pSampleGrabber := m_pSampleGrabber c;
     m_pNullRenderer := m_pNullRenderer c; m_pCallback := m_pCallback c;
     m_isInitialized := m_isInitialized c; m_isCapturing := m_isCapturing c;
     m_currentCapabilities := m_currentCapabilities c |}.

Definition set_m_pMediaControl (v : bool) (c : t) : t :=
  {| m_pGraph := m_pGraph c;
     m_pCaptureGraphBuilder := m_pCaptureGraphBuilder c;
     m_pMediaControl := v; m_pMediaEvent := m_pMediaEvent c;
     m_pCameraFilter := m_pCameraFilter c;
     m_pSampleGrabberFilter := m_pSampleGrabberFilter c;
     m_pSampleGrabber := m_pSampleGrabber c;
     m_pNullRenderer := m_pNullRenderer c; m_pCallback := m_pCallback c;
     m_isInitialized := m_isInitialized c; m_isCapturing := m_isCapturing c;
     m_currentCapabilities := m_currentCapabilities c |}.

Definition set_m_pMediaEvent (v : bool) (c : t) : t :=
  {| m_pGraph := m_pGraph c;
     m_pCaptureGraphBuilder := m_pCaptureGraphBuilder c;
     m_pMediaControl := m_pMediaControl c; m_pMediaEvent := v;
     m_pCameraFilter := m_pCameraFilter c;
     m_pSampleGrabberFilter := m_pSampleGrabberFilter c;
     m_pSampleGrabber := m_pSampleGrabber c;
     m_pNullRenderer := m_pNullRenderer c; m_pCallback := m_pCallback c;
     m_isInitialized := m_isInitialized c; m_isCapturing := m_isCapturing c;
     m_currentCapabilities := m_currentCapabilities c |}.

Definition set_m_pCameraFilter (v : option DirectShowCamera.Moniker) (c : t)
    : t :=
  {| m_pGraph := m_pGraph c;
     m_pCaptureGraphBuilder := m_pCaptureGraphBuilder c;
     m_pMediaControl := m_pMediaControl c; m_pMediaEvent := m_pMediaEvent c;
     m_pCameraFilter := v;
     m_pSampleGrabberFilter := m_pSampleGrabberFilter c;
     m_pSampleGrabber := m_pSampleGrabber c;
     m_pNullRenderer := m_pNullRenderer c; m_pCallback := m_pCallback c;
     m_isInitialized := m_isInitialized c; m_isCapturing := m_isCapturing c;
     m_currentCapabilities := m_currentCapabilities c |}.

Definition set_m_pSampleGrabberFilter (v : bool) (c : t) : t :=
  {| m_pGraph := m_pGraph c;
     m_pCaptureGraphBuilder := m_pCaptureGraphBuilder c;
     m_pMediaControl := m_pMediaControl c; m_pMediaEvent := m_pMediaEvent c;
     m_pCameraFilter := m_pCameraFilter c;
     m_pSampleGrabberFilter := v;
     m_pSampleGrabber := m_pSampleGrabber c;
     m_pNullRenderer := m_pNullRenderer c; m_pCallback := m_pCallback c;
     m_isInitialized := m_isInitialized c; m_isCapturing := m_isCapturing c;
     m_currentCapabilities := m_currentCapabilities c |}.

Definition set_m_pSampleGrabber (v : bool) (c : t) : t :=
  {| m_pGraph := m_pGraph c;
     m_pCaptureGraphBuilder := m_pCaptureGraphBuilder c;
     m_pMediaControl := m_pMediaControl c; m_pMediaEvent := m_pMediaEvent c;
     m_pCameraFilter := m_pCameraFilter c;
     m_pSampleGrabberFilter := m_pSampleGrabberFilter c;
     m_pSampleGrabber := v;
     m_pNullRenderer := m_pNullRenderer c; m_pCallback := m_pCallback c;
     m_isInitialized := m_isInitialized c; m_isCapturing := m_isCapturing c;
     m_currentCapabilities := m_currentCapabilities c |}.

Definition set_m_pNullRenderer (v : bool) (c : t) : t :=
  {| m_pGraph := m_pGraph c;
     m_pCaptureGraphBuilder := m_pCaptureGraphBuilder c;
     m_pMediaControl := m_pMediaControl c; m_pMediaEvent := m_pMediaEvent c;
     m_pCameraFilter := m_pCameraFilter c;
     m_pSampleGrabberFilter := m_pSampleGrabberFilter c;
     m_pSampleGrabber := m_pSampleGrabber c;
     m_pNullRenderer := v; m_pCallback := m_pCallback c;
     m_isInitialized := m_isInitialized c; m_isCapturing := m_isCapturing c;
     m_currentCapabilities := m_currentCapabilities c |}.

Definition set_m_pCallback (v : option CallbackPtr) (c : t) : t :=
  {| m_pGraph := m_pGraph c;
     m_pCaptureGraphBuilder := m_pCaptureGraphBuilder c;
     m_pMediaControl := m_pMediaControl c; m_pMediaEvent := m_pMediaEvent c;
     m_pCameraFilter := m_pCameraFilter c;
     m_pSampleGrabberFilter := m_pSampleGrabberFilter c;
     m_pSampleGrabber := m_pSampleGrabber c;
     m_pNullRenderer := m_pNullRenderer c; m_pCallback := v;
     m_isInitialized := m_isInitialized c; m_isCapturing := m_isCapturing c;
     m_currentCapabilities := m_currentCapabilities c |}.

Definition set_m_isInitialized (v : bool) (c : t) : t :=
  {| m_pGraph := m_pGraph c;
     m_pCaptureGraphBuilder := m_pCaptureGraphBuilder c;
     m_pMediaControl := m_pMediaControl c; m_pMediaEvent := m_pMediaEvent c;
     m_pCameraFilter := m_pCameraFilter c;
     m_pSampleGrabberFilter := m_pSampleGrabberFilter c;
     m_pSampleGrabber := m_pSampleGrabber c;
     m_pNullRenderer := m_pNullRenderer c; m_pCallback := m_pCallback c;
     m_isInitialized := v; m_isCapturing := m_isCapturing c;
     m_currentCapabilities := m_currentCapabilities c |}.

Definition set_m_isCapturing (v : bool) (c : t) : t :=
  {| m_pGraph := m_pGraph c;
     m_pCaptureGraphBuilder := m_pCaptureGraphBuilder c;
     m_pMediaControl := m_pMediaControl c; m_pMediaEvent := m_pMediaEvent c;
     m_pCameraFilter := m_pCameraFilter c;
     m_pSampleGrabberFilter := m_pSampleGrabberFilter c;
     m_pSampleGrabber := m_pSampleGrabber c;
     m_pNullRenderer := m_pNullRenderer c; m_pCallback := m_pCallback c;
     m_isInitialized := m_isInitialized c; m_isCapturing := v;
     m_currentCapabilities := m_currentCapabilities c |}.

Definition set_m_currentCapabilities (v : Z * Z) (c : t) : t :=
  {| m_pGraph := m_pGraph c;
     m_pCaptureGraphBuilder := m_pCaptureGraphBuilder c;
     m_pMediaControl := m_pMediaControl c; m_pMediaEvent := m_pMediaEvent c;
     m_pCameraFilter := m_pCameraFilter c;
     m_pSampleGrabberFilter := m_pSampleGrabberFilter c;
     m_pSampleGrabber := m_pSampleGrabber c;
     m_pNullRenderer := m_pNullRenderer c; m_pCallback := m_pCallback c;
     m_isInitialized := m_isInitialized c; m_isCapturing := m_isCapturing c;
     m_currentCapabilities := v |}.

(** The camera and the log of the calls made so far, each with the status
    it returned. *)
Record World : Type := {
  camera : t;
  log : list (Call * Z)
}.

Record Env : Type := {
  answers : list (Call * Z) -> Call -> Z;
  devices : list (Call * Z) -> DirectShowCamera.DeviceEnumeration;
  connected_type : list (Call * Z) -> MediaType
}.

Definition M (A : Type) : Type := Env -> World -> outcome (A * World).

Definition ret {A : Type} (a : A) : M A :=
  fun _ w => Ret (a, w).

Definition bind {A B : Type} (c : M A) (k : A -> M B) : M B :=
  fun env w =>
    match c env w with
    | Crash => Crash
    | Ret (a, w') => k a env w'
    end.

Notation "x <-- c ;; k" := (bind c (fun x => k))
  (at level 100, c at next level, right associativity).

(** A call whose status the platform decides. *)
Definition call (c : Call) : M Z :=
  fun env w =>
    let hr := answers env (log w) c in
    Ret (hr, {| camera := camera w; log := log w ++ [(c, hr)] |}).

(** A call whose result the program does not look at. *)
Definition emit (c : Call) : M unit :=
  fun _ w => Ret (tt, {| camera := camera w; log := log w ++ [(c, 0)] |}).

Definition get : M t :=
  fun _ w => Ret (camera w, w).

Definition modify (f : t -> t) : M unit :=
  fun _ w => Ret (tt, {| camera := f (camera w); log := log w |}).

(** [p->method(...)]: through a null pointer the process ends. *)
Definition deref (p : bool) : M unit :=
  fun _ w => if p then Ret (tt, w) else Crash.

Definition CreateFilterGraph : M Z :=
  hr <-- call (CoCreateInstance CLSID_FilterGraph) ;;
  _ <-- modify (set_m_pGraph (SUCCEEDED hr)) ;;
  if FAILED hr then ret hr else
  hr <-- call (QueryInterface IID_IMediaControl) ;;
  _ <-- modify (set_m_pMediaControl (SUCCEEDED hr)) ;;
  if FAILED hr then ret hr else
  hr <-- call (QueryInterface IID_IMediaEvent) ;;
  _ <-- modify (set_m_pMediaEvent (SUCCEEDED hr)) ;;
  ret hr.

Definition CreateCaptureGraphBuilder : M Z :=
  hr <-- call (CoCreateInstance CLSID_CaptureGraphBuilder2) ;;
  _ <-- modify (set_m_pCaptureGraphBuilder (SUCCEEDED hr)) ;;
  if FAILED hr then ret hr else
  hr <-- call SetFiltergraph ;;
  ret hr.

Definition Initialize : M Z :=
  cam <-- get ;;
  if m_isInitialized cam then ret S_OK else
  hr <-- call CoInitializeEx ;;
  if FAILED hr then ret hr else
  hr <-- CreateFilterGraph ;;
  if FAILED hr then ret hr else
  hr <-- CreateCaptureGraphBuilder ;;
  if FAILED hr then ret hr else
  _ <-- modify (set_m_isInitialized true) ;;
  ret S_OK.

(** Enumeratecameras, answered by [devices]; of its calls the creation of
    the system device enumerator is the one that is logged. *)
Definition Enumeratecameras : M (Z * list DirectShowCamera.CameraInfo) :=
  fun env w =>
    let world := devices env (log w) in
    match DirectShowCamera.Enumeratecameras world [] with
    | Crash => Crash
    | Ret result =>
        Ret (result,
             {| camera := camera w;
                log := log w ++
                  [(CoCreateInstance CLSID_SystemDeviceEnum,
                    DirectShowCamera.CoCreateInstance_hr world)] |})
    end.

Definition SelectCamera (cameraIndex : Z) : M Z :=
  result <-- Enumeratecameras ;;
  let hr := fst result in
  let cameras := snd result in
  if FAILED hr then ret hr else
  if (cameraIndex <? 0) || (Z.of_nat (length cameras) <=? cameraIndex)
  then ret E_INVALIDARG else
  match cameras !! Z.to_nat cameraIndex with
  | None => fun _ _ => Crash
  | Some info =>
      hr <-- call (BindToObject (DirectShowCamera.moniker info)) ;;
      _ <-- modify (set_m_pCameraFilter
                      (if SUCCEEDED hr
                       then Some (DirectShowCamera.moniker info)
                       else None)) ;;
      if FAILED hr then ret hr else
      cam <-- get ;;
      _ <-- deref (m_pGraph cam) ;;
      hr <-- call (AddFilter "Camera") ;;
      ret hr
  end.

(** The first camera of the vector with the given name, as the range-based
    for loop finds it. *)
Fixpoint find_by_name (friendlyName : string)
    (cameras : list DirectShowCamera.CameraInfo)
    : option DirectShowCamera.CameraInfo :=
  match cameras with
  | [] => None
  | camera :: rest =>
      if String.eqb (DirectShowCamera.friendlyName camera) friendlyName
      then Some camera
      else find_by_name friendlyName rest
  end.

Definition SelectCameraByName (friendlyName : string) : M Z :=
  result <-- Enumeratecameras ;;
  let hr := fst result in
  let cameras := snd result in
  if FAILED hr then ret hr else
  match find_by_name friendlyName cameras with
  | Some camera => SelectCamera (DirectShowCamera.index camera)
  | None => ret VFW_E_NOT_FOUND
  end.

(** [if (!m_pCallback) m_pCallback = new CSampleGrabberCB();] and the
    pointer that is then installed. *)
Definition ensure_callback : M CallbackPtr :=
  fun env w =>
    match m_pCallback (camera w) with
    | Some p => Ret (p, w)
    | None =>
        let p := OwnCallback (length (log w)) in
        Ret (p, {| camera := set_m_pCallback (Some p) (camera w);
                   log := log w ++ [(NewCallback p, 0)] |})
    end.

Definition SetupSampleGrabber (mediaSubType : MediaSubType) : M Z :=
  hr <-- call (CoCreateInstance CLSID_SampleGrabber) ;;
  _ <-- modify (set_m_pSampleGrabberFilter (SUCCEEDED hr)) ;;
  if FAILED hr then ret hr else
  hr <-- call (QueryInterface IID_ISampleGrabber) ;;
  _ <-- modify (set_m_pSampleGrabber (SUCCEEDED hr)) ;;
  if FAILED hr then ret hr else
  hr <-- call (SetMediaType mediaSubType) ;;
  if FAILED hr then ret hr else
  p <-- ensure_callback ;;
  hr <-- call (SetCallback p 1) ;;
  if FAILED hr then ret hr else
  hr <-- call (SetBufferSamples false) ;;
  if FAILED hr then ret hr else
  cam <-- get ;;
  _ <-- deref (m_pGraph cam) ;;
  hr <-- call (AddFilter "Sample Grabber") ;;
  ret hr.

Definition SetCustomCallback (pCallback : option CallbackPtr) : M Z :=
  cam <-- get ;;
  _ <-- match m_pCallback cam, pCallback with
        | Some old, Some new =>
            if CallbackPtr_eqb old new then ret tt
            else emit (CallbackRelease old)
        | Some old, None => emit (CallbackRelease old)
        | None, _ => ret tt
        end ;;
  _ <-- modify (set_m_pCallback pCallback) ;;
  _ <-- match pCallback with
        | Some new => emit (CallbackAddRef new)
        | None => ret tt
        end ;;
  cam <-- get ;;
  match pCallback with
  | Some new =>
      if m_pSampleGrabber cam then call (SetCallback new 1) else ret S_OK
  | None => ret S_OK
  end.

Definition SetupNullRenderer : M Z :=
  hr <-- call (CoCreateInstance CLSID_NullRenderer) ;;
  _ <-- modify (set_m_pNullRenderer (SUCCEEDED hr)) ;;
  if FAILED hr then ret hr else
  cam <-- get ;;
  _ <-- deref (m_pGraph cam) ;;
  hr <-- call (AddFilter "Null Renderer") ;;
  ret hr.

Definition ConnectFilters : M Z :=
  cam <-- get ;;
  _ <-- deref (m_pCaptureGraphBuilder cam) ;;
  hr <-- call (RenderStream (m_pCameraFilter cam)
                 (m_pSampleGrabberFilter cam) (m_pNullRenderer cam)) ;;
  ret hr.

Definition BuildFilterGraph : M Z :=
  let rest : M Z :=
    hr <-- SetupSampleGrabber MEDIASUBTYPE_RGB24 ;;
    if FAILED hr then ret hr else
    hr <-- SetupNullRenderer ;;
    if FAILED hr then ret hr else
    hr <-- ConnectFilters ;;
    ret hr in
  cam <-- get ;;
  match m_pCameraFilter cam with
  | None =>
      hr <-- SelectCamera 0 ;;
      if FAILED hr then ret hr else rest
  | Some _ => rest
  end.

(** The construction of the graph in the words of the specification: the
    member functions that BuildFilterGraph calls are its steps, performed
    in a planned order up to the first that fails. *)
Inductive GraphStep : Type :=
| StepSelectCamera (cameraIndex : Z)
| StepSetupSampleGrabber (mediaSubType : MediaSubType)
| StepSetupNullRenderer
| StepConnectFilters.

Definition perform (step : GraphStep) : M Z :=
  match step with
  | StepSelectCamera cameraIndex => SelectCamera cameraIndex
  | StepSetupSampleGrabber mediaSubType => SetupSampleGrabber mediaSubType
  | StepSetupNullRenderer => SetupNullRenderer
  | StepConnectFilters => ConnectFilters
  end.

(** [m_pCameraFilter] is set. *)
Definition camera_selected (c : t) : bool :=
  match m_pCameraFilter c with
  | Some _ => true
  | None => false
  end.

Definition planned_steps (selected : bool) : list GraphStep :=
  (if selected then [] else [StepSelectCamera 0])
  ++ [ StepSetupSampleGrabber MEDIASUBTYPE_RGB24; StepSetupNullRenderer;
       StepConnectFilters ].

(** The steps in order; the result lists the steps performed, each with
    its status.  Nothing is performed after a step that failed. *)
Fixpoint perform_in_order (steps : list GraphStep)
    : M (list (GraphStep * Z)) :=
  match steps with
  | [] => ret []
  | step :: rest =>
      hr <-- perform step ;;
      if FAILED hr then ret [(step, hr)]
      else
        done <-- perform_in_order rest ;;
        ret ((step, hr) :: done)
  end.

(** A step of a trace that did not fail. *)
Definition succeeded (entry : GraphStep * Z) : Prop :=
  FAILED (snd entry) = false.

Definition StartCapture : M Z :=
  cam <-- get ;;
  if negb (m_pMediaControl cam) then ret E_FAIL else
  if m_isCapturing cam then ret S_OK else
  hr <-- call Run ;;
  if SUCCEEDED hr then
    _ <-- modify (set_m_isCapturing true) ;;
    _ <-- match m_pCallback cam with
          | Some p => emit (CallbackResetStatistics p)
          | None => ret tt
          end ;;
    ret hr
  else ret hr.

Definition StopCapture : M Z :=
  cam <-- get ;;
  if negb (m_pMediaControl cam) then ret E_FAIL else
  if negb (m_isCapturing cam) then ret S_OK else
  hr <-- call Stop ;;
  if SUCCEEDED hr then
    _ <-- modify (set_m_isCapturing false) ;;
    ret hr
  else ret hr.

Definition PauseCapture : M Z :=
  cam <-- get ;;
  if negb (m_pMediaControl cam) then ret E_FAIL else
  call Pause.

(** [abs] on an [int]. *)
Definition abs_long (z : Z) : Z := if z <? 0 then neg_long z else z.

(** The arguments are the values that the caller's [width] and [height]
    hold at the call; the result holds what they hold at the return. *)
Definition GetCameraFormat (width height : Z) : M (Z * Z * Z) :=
  cam <-- get ;;
  if negb (m_pSampleGrabber cam) then ret (E_FAIL, width, height) else
  fun env w =>
    let mt := connected_type env (log w) in
    (hr <-- call GetConnectedMediaType ;;
     if SUCCEEDED hr && formattype_is_VideoInfo mt then
       let width' := bmi_biWidth mt in
       let height' := abs_long (bmi_biHeight mt) in
       _ <-- modify (set_m_currentCapabilities (width', height')) ;;
       ret (hr, width', height')
     else ret (hr, width, height)) env w.

Definition Cleanup : M unit :=
  cam <-- get ;;
  _ <-- (if m_isCapturing cam then StopCapture else ret S_OK) ;;
  cam <-- get ;;
  _ <-- match m_pCallback cam with
        | Some p =>
            _ <-- emit (CallbackRelease p) ;;
            modify (set_m_pCallback None)
        | None => ret tt
        end ;;
  _ <-- modify (fun c =>
          {| m_pGraph := false; m_pCaptureGraphBuilder := false;
             m_pMediaControl := false; m_pMediaEvent := false;
             m_pCameraFilter := None; m_pSampleGrabberFilter := false;
             m_pSampleGrabber := false; m_pNullRenderer := false;
             m_pCallback := m_pCallback c;
             m_isInitialized := false; m_isCapturing := false;
             m_currentCapabilities := m_currentCapabilities c |}) ;;
  emit CoUninitialize.

(** The three capture controls, and sequences of them. *)
Inductive capture_op : Type :=
| DoStartCapture
| DoStopCapture
| DoPauseCapture.

Definition capture_step (op : capture_op) : M Z :=
  match op with
  | DoStartCapture => StartCapture
  | DoStopCapture => StopCapture
  | DoPauseCapture => PauseCapture
  end.

Fixpoint run_capture (ops : list capture_op) : M unit :=
  match ops with
  | [] => ret tt
  | op :: rest => _ <-- capture_step op ;; run_capture rest
  end.

(** Reading a log as the platform sees it: the graph runs from a
    successful Run to the next successful Stop.  The result is [None] when
    Run is called on a running graph or Stop on a stopped one. *)
Fixpoint graph_after (running : bool) (entries : list (Call * Z))
    : option bool :=
  match entries with
  | [] => Some running
  | (Run, hr) :: rest =>
      if running then None
      else graph_after (SUCCEEDED hr) rest
  | (Stop, hr) :: rest =>
      if running
      then graph_after (negb (SUCCEEDED hr)) rest
      else None
  | _ :: rest => graph_after running rest
  end.

(** The references on a callback object that a log accounts for: one for
    its creation and for every AddRef, minus one for every Release. *)
Definition callback_delta (p : CallbackPtr) (entry : Call * Z) : Z :=
  match fst entry with
  | NewCallback q | CallbackAddRef q => if CallbackPtr_eqb p q then 1 else 0
  | CallbackRelease q => if CallbackPtr_eqb p q then -1 else 0
  | _ => 0
  end.

Definition references_held (p : CallbackPtr) (entries : list (Call * Z)) : Z :=
  foldr Z.add 0 (callback_delta p <$> entries).

(** A log that follows a plan of calls: the calls are made in the planned
    order, each after the one before it succeeded, up to the first failure
    or to the end of the plan. *)
Inductive follows_plan : list Call -> list (Call * Z) -> Prop :=
| plan_done : follows_plan [] []
| plan_failed (c : Call) (planned : list Call) (hr : Z) :
    FAILED hr = true -> follows_plan (c :: planned) [(c, hr)]
| plan_next (c : Call) (planned : list Call) (hr : Z)
    (added : list (Call * Z)) :
    FAILED hr = false ->
    follows_plan planned added ->
    follows_plan (c :: planned) ((c, hr) :: added).

Definition Initialize_calls : list Call :=
  [ CoInitializeEx; CoCreateInstance CLSID_FilterGraph;
    QueryInterface IID_IMediaControl; QueryInterface IID_IMediaEvent;
    CoCreateInstance CLSID_CaptureGraphBuilder2; SetFiltergraph ].

(** The calls of SetupSampleGrabber when [installed] is the callback at
    the call and [p] the callback that is registered. *)
Definition SetupSampleGrabber_calls (mediaSubType : MediaSubType)
    (installed : option CallbackPtr) (p : CallbackPtr) : list Call :=
  [ CoCreateInstance CLSID_SampleGrabber; QueryInterface IID_ISampleGrabber;
    SetMediaType mediaSubType ]
  ++ match installed with
     | Some _ => []
     | None => [NewCallback p]
     end
  ++ [ SetCallback p 1; SetBufferSamples false; AddFilter "Sample Grabber" ].

(** The camera after Cleanup. *)
Definition cleaned (c : t) : t :=
  {| m_pGraph := false; m_pCaptureGraphBuilder := false;
     m_pMediaControl := false; m_pMediaEvent := false;
     m_pCameraFilter := None; m_pSampleGrabberFilter := false;
     m_pSampleGrabber := false; m_pNullRenderer := false;
     m_pCallback := None; m_isInitialized := false; m_isCapturing := false;
     m_currentCapabilities := m_currentCapabilities c |}.

(** SetCustomCallback for each pointer in turn, then Cleanup. *)
Fixpoint install_all (pointers : list (option CallbackPtr)) : M unit :=
  match pointers with
  | [] => ret tt
  | p :: rest => _ <-- SetCustomCallback p ;; install_all rest
  end.

(** No pointer is handed to SetCustomCallback while it is installed. *)
Fixpoint never_reinstalls (installed : option CallbackPtr)
    (pointers : list (option CallbackPtr)) : bool :=
  match pointers with
  | [] => true
  | p :: rest =>
      match installed, p with
      | Some old, Some new => negb (CallbackPtr_eqb old new)
      | _, _ => true
      end && never_reinstalls p rest
  end.

(** The camera holds one reference on the installed callback and none on
    any other object. *)
Definition references_balanced (w : World) : Prop :=
  forall p : CallbackPtr,
    references_held p (log w)
    = match m_pCallback (camera w) with
      | Some q => if CallbackPtr_eqb p q then 1 else 0
      | None => 0
      end.

(** The world after the enumeration with which SelectCamera and
    SelectCameraByName begin. *)
Definition enumerated (env : Env) (w : World) : World :=
  {| camera := camera w;
     log := log w ++
       [(CoCreateInstance CLSID_SystemDeviceEnum,
         DirectShowCamera.CoCreateInstance_hr (devices env (log w)))] |}.

(** [result] is SelectCamera binding the device [m] from the world
    [start]: BindToObject is called on [m]; when it fails, its status
    is returned and the camera filter is null; when it succeeds, the filter
    is that of [m] and is added to the graph under the name Camera, which
    ends the process when there is no graph. *)
Definition binds_device (m : DirectShowCamera.Moniker) (start : World)
    (result : outcome (Z * World)) : Prop :=
  exists hb : Z,
    (result = Crash /\ FAILED hb = false /\ m_pGraph (camera start) = false)
    \/ exists (hr : Z) (w' : World) (more : list (Call * Z)),
         result = Ret (hr, w')
         /\ log w' = log start ++ (BindToObject m, hb) :: more
         /\ camera w'
            = set_m_pCameraFilter (if SUCCEEDED hb then Some m else None)
                (camera start)
         /\ (FAILED hb = true -> hr = hb /\ more = [])
         /\ (FAILED hb = false ->
             m_pGraph (camera start) = true
             /\ more = [(AddFilter "Camera", hr)]).

(** The part of main between BuildFilterGraph and StartCapture: the format
    is asked for, and the frame saver is told the dimensions when the
    status is a success.  The arguments [width] and [height] are the
    values that the two uninitialised locals hold. *)
Definition configure_saver (width height : Z)
    (pFrameSaver : CFrameSavingCallback.t) : M CFrameSavingCallback.t :=
  result <-- GetCameraFormat width height ;;
  let hr := fst (fst result) in
  let width' := snd (fst result) in
  let height' := snd result in
  if SUCCEEDED hr
  then ret (CFrameSavingCallback.SetImageDimensions width' height' pFrameSaver)
  else ret pFrameSaver.

(** A platform on which every call succeeds, for a given enumeration of
    the devices and a given connected media type. *)
Definition succeeding (world : DirectShowCamera.DeviceEnumeration)
    (mt : MediaType) : Env :=
  {| answers := fun _ _ => S_OK;
     devices := fun _ => world;
     connected_type := fun _ => mt |}.

(** Three devices, the first of which has no readable name. *)
Definition capture_card : DirectShowCamera.Moniker :=
  {| DirectShowCamera.moniker_id := 0;
     DirectShowCamera.BindToStorage_hr := E_FAIL;
     DirectShowCamera.Read_FriendlyName_hr := S_OK;
     DirectShowCamera.FriendlyName_value := "Capture Card" |}.

Definition usb_camera : DirectShowCamera.Moniker :=
  {| DirectShowCamera.moniker_id := 1;
     DirectShowCamera.BindToStorage_hr := S_OK;
     DirectShowCamera.Read_FriendlyName_hr := S_OK;
     DirectShowCamera.FriendlyName_value := "USB Camera" |}.

Definition integrated_camera : DirectShowCamera.Moniker :=
  {| DirectShowCamera.moniker_id := 2;
     DirectShowCamera.BindToStorage_hr := S_OK;
     DirectShowCamera.Read_FriendlyName_hr := S_OK;
     DirectShowCamera.FriendlyName_value := "Integrated Camera" |}.

Definition three_devices : DirectShowCamera.DeviceEnumeration :=
  {| DirectShowCamera.CoCreateInstance_hr := S_OK;
     DirectShowCamera.CreateClassEnumerator_hr := S_OK;
     DirectShowCamera.pEnum :=
       Some [capture_card; usb_camera; integrated_camera] |}.

(** The two of them that have one. *)
Definition two_devices : DirectShowCamera.DeviceEnumeration :=
  {| DirectShowCamera.CoCreateInstance_hr := S_OK;
     DirectShowCamera.CreateClassEnumerator_hr := S_OK;
     DirectShowCamera.pEnum := Some [usb_camera; integrated_camera] |}.

Definition vga : MediaType :=
  {| formattype_is_VideoInfo := true; bmi_biWidth := 640;
     bmi_biHeight := 480 |}.

(** A camera object right after its construction. *)
Definition fresh : World := {| camera := create; log := [] |}.

(** The camera after Initialize on such a platform. *)
Definition ready : World :=
  match Initialize (succeeding three_devices vga) fresh with
  | Ret (_, w) => w
  | Crash => fresh
  end.

(** The camera after BuildFilterGraph on that platform. *)
Definition built : World :=
  match BuildFilterGraph (succeeding three_devices vga) ready with
  | Ret (_, w) => w
  | Crash => ready
  end.

(** A platform on which every call fails and no device enumerator can be
    created. *)
Definition failing : Env :=
  {| answers := fun _ _ => E_FAIL;
     devices := fun _ =>
       {| DirectShowCamera.CoCreateInstance_hr := E_FAIL;
          DirectShowCamera.CreateClassEnumerator_hr := S_OK;
          DirectShowCamera.pEnum := None |};
     connected_type := fun _ => vga |}.

(** A platform on which the null renderer cannot be created and every
    other call succeeds. *)
Definition without_null_renderer : Env :=
  {| answers := fun _ c =>
       match c with
       | CoCreateInstance CLSID_NullRenderer => E_FAIL
       | _ => S_OK
       end;
     devices := fun _ => three_devices;
     connected_type := fun _ => vga |}.

(** A camera that is capturing. *)
Definition capturing : World :=
  match StartCapture (succeeding three_devices vga) built with
  | Ret (_, w) => w
  | Crash => built
  end.

End Camera.

(** ** The platform and the operations of the program

    A [Platform] collects everything the native framework decides: the tick
    counter, the fate of CreateFileA, the answers of a device enumeration
    and the answers to the COM calls of the camera.  [op_run] runs an
    operation of the program on a platform and on the operation's explicit
    inputs: its arguments and the state of its object. *)

Record Platform : Type := {
  GetTickCount : Z;
  CreateFileA_ok : bool;
  device_enumeration : DirectShowCamera.DeviceEnumeration;
  com : Camera.Env
}.

Inductive operation : Type :=
| OpCalculateAverageBrightness
| OpGetErrorDescription
| OpQueryInterface
| OpAddRef
| OpRelease
| OpSampleCB
| OpSetImageDimensions
| OpResetStatistics
| OpGetAverageFPS
| OpProcessFrame
| OpEnumeratecameras
| OpInitialize
| OpSelectCamera
| OpSelectCameraByName
| OpSetupSampleGrabber
| OpSetCustomCallback
| OpBuildFilterGraph
| OpStartCapture
| OpStopCapture
| OpPauseCapture
| OpGetCameraFormat.

Definition op_input (op : operation) : Type :=
  match op with
  | OpCalculateAverageBrightness => (list byte * Z)%type
  | OpGetErrorDescription => Z
  | OpQueryInterface => (SampleGrabberCallback.REFIID * CSampleGrabberCB.t)%type
  | OpAddRef | OpRelease | OpSampleCB => CSampleGrabberCB.t
  | OpSetImageDimensions => (Z * Z * CFrameSavingCallback.t)%type
  | OpResetStatistics => CSampleGrabberCB.t
  | OpGetAverageFPS => CSampleGrabberCB.t
  | OpProcessFrame => (CFrameSavingCallback.t * option (list byte) * Z)%type
  | OpEnumeratecameras => list DirectShowCamera.CameraInfo
  | OpInitialize | OpBuildFilterGraph
  | OpStartCapture | OpStopCapture | OpPauseCapture => Camera.World
  | OpSelectCamera => (Z * Camera.World)%type
  | OpSelectCameraByName => (string * Camera.World)%type
  | OpSetupSampleGrabber => (Camera.MediaSubType * Camera.World)%type
  | OpSetCustomCallback => (option Camera.CallbackPtr * Camera.World)%type
  | OpGetCameraFormat => (Z * Z * Camera.World)%type
  end.

Definition op_output (op : operation) : Type :=
  match op with
  | OpCalculateAverageBrightness => double
  | OpGetErrorDescription => string
  | OpQueryInterface => (Z * bool * CSampleGrabberCB.t)%type
  | OpAddRef => (Z * CSampleGrabberCB.t)%type
  | OpRelease => (Z * option CSampleGrabberCB.t)%type
  | OpSampleCB => (Z * CSampleGrabberCB.t)%type
  | OpSetImageDimensions => CFrameSavingCallback.t
  | OpResetStatistics => CSampleGrabberCB.t
  | OpGetAverageFPS => double
  | OpProcessFrame =>
      outcome (CFrameSavingCallback.t * option CFrameSavingCallback.bmp_file)
  | OpEnumeratecameras => outcome (Z * list DirectShowCamera.CameraInfo)
  | OpInitialize | OpBuildFilterGraph
  | OpStartCapture | OpStopCapture | OpPauseCapture
  | OpSelectCamera | OpSelectCameraByName | OpSetupSampleGrabber
  | OpSetCustomCallback => outcome (Z * Camera.World)
  | OpGetCameraFormat => outcome (Z * Z * Z * Camera.World)
  end.

Definition op_run (op : operation) : Platform -> op_input op -> op_output op :=
  match op with
  | OpCalculateAverageBrightness => fun _ '(frameData, frameSize) =>
      CSampleGrabberCB.CalculateAverageBrightness frameData frameSize
  | OpGetErrorDescription => fun _ hr =>
      DirectShowCamera.GetErrorDescription hr
  | OpQueryInterface => fun _ '(riid, this) =>
      SampleGrabberCallback.QueryInterface riid this
  | OpAddRef => fun _ this => SampleGrabberCallback.AddRef this
  | OpRelease => fun _ this => SampleGrabberCallback.Release this
  | OpSampleCB => fun _ this => SampleGrabberCallback.SampleCB this
  | OpSetImageDimensions => fun _ '(width, height, this) =>
      CFrameSavingCallback.SetImageDimensions width height this
  | OpResetStatistics => fun platform this =>
      CSampleGrabberCB.ResetStatistics (GetTickCount platform) this
  | OpGetAverageFPS => fun platform this =>
      CSampleGrabberCB.GetAverageFPS (GetTickCount platform) this
  | OpProcessFrame => fun platform '(this, frameData, frameSize) =>
      CFrameSavingCallback.ProcessFrame (CreateFileA_ok platform) this
        frameData frameSize
  | OpEnumeratecameras => fun platform cameras =>
      DirectShowCamera.Enumeratecameras (device_enumeration platform) cameras
  | OpInitialize => fun platform w => Camera.Initialize (com platform) w
  | OpSelectCamera => fun platform '(cameraIndex, w) =>
      Camera.SelectCamera cameraIndex (com platform) w
  | OpSelectCameraByName => fun platform '(friendlyName, w) =>
      Camera.SelectCameraByName friendlyName (com platform) w
  | OpSetupSampleGrabber => fun platform '(mediaSubType, w) =>
      Camera.SetupSampleGrabber mediaSubType (com platform) w
  | OpSetCustomCallback => fun platform '(pCallback, w) =>
      Camera.SetCustomCallback pCallback (com platform) w
  | OpBuildFilterGraph => fun platform w =>
      Camera.BuildFilterGraph (com platform) w
  | OpStartCapture => fun platform w => Camera.StartCapture (com platform) w
  | OpStopCapture => fun platform w => Camera.StopCapture (com platform) w
  | OpPauseCapture => fun platform w => Camera.PauseCapture (com platform) w
  | OpGetCameraFormat => fun platform '(width, height, w) =>
      Camera.GetCameraFormat width height (com platform) w
  end.

(** The result is a function of the explicit inputs alone. *)
Definition platform_independent (op : operation) : Prop :=
  forall (p q : Platform) (x : op_input op), op_run op p x = op_run op q x.

(** The operations that call nothing of the platform. *)
Definition pure_operations : list operation :=
  [ OpCalculateAverageBrightness; OpGetErrorDescription; OpQueryInterface;
    OpAddRef; OpRelease; OpSampleCB; OpSetImageDimensions ].
(** * Properties *)

Import CSampleGrabberCB.

(** ** Machine integers *)

Lemma wrap_long_range (z : Z) : is_long (wrap_long z).
Proof.
  unfold is_long, wrap_long, LONG_MIN, LONG_MAX, DWORD_MODULUS.
  pose proof (Z.mod_pos_bound (z + 2147483648) 4294967296). lia.
Qed.

Lemma wrap_long_id (z : Z) : is_long z -> wrap_long z = z.
Proof.
  unfold is_long, wrap_long, LONG_MIN, LONG_MAX, DWORD_MODULUS. intros Hz.
  rewrite Z.mod_small; lia.
Qed.

Lemma wrap_long_add_l (a b : Z) : wrap_long (wrap_long a + b) = wrap_long (a + b).
Proof.
  unfold wrap_long, DWORD_MODULUS. f_equal.
  replace ((a + 2147483648) mod 4294967296 - 2147483648 + b + 2147483648)
    with ((a + 2147483648) mod 4294967296 + b) by lia.
  rewrite Zplus_mod_idemp_l. f_equal. lia.
Qed.

Lemma neg_long_opp (z : Z) : LONG_MIN < z <= LONG_MAX -> neg_long z = - z.
Proof.
  intros Hz. apply wrap_long_id. unfold is_long, LONG_MIN, LONG_MAX in *. lia.
Qed.

Lemma wrap_dword_id (z : Z) : 0 <= z < DWORD_MODULUS -> wrap_dword z = z.
Proof. intros Hz. unfold wrap_dword. apply Z.mod_small. exact Hz. Qed.

Lemma wrap_dword_range (z : Z) : 0 <= wrap_dword z < DWORD_MODULUS.
Proof. unfold wrap_dword, DWORD_MODULUS. apply Z.mod_pos_bound. lia. Qed.

(** ** The loop over a frame *)

Lemma for_step3_S {A : Type} (fuel : nat) (frameSize i : Z)
    (body : Z -> A -> A) (acc : A) :
  for_step3 (S fuel) frameSize i body acc =
  if i <? frameSize
  then for_step3 fuel frameSize (i + 3) body (body i acc)
  else acc.
Proof. reflexivity. Qed.

Lemma for_step3_done {A : Type} (fuel : nat) (frameSize i : Z)
    (body : Z -> A -> A) (acc : A) :
  frameSize <= i -> for_step3 fuel frameSize i body acc = acc.
Proof.
  intros Hi. destruct fuel as [|fuel]; [reflexivity|].
  rewrite for_step3_S. destruct (Z.ltb_spec i frameSize); [lia | reflexivity].
Qed.

(** Once the fuel covers the bytes that are left, more fuel changes
    nothing: the loop has ended by itself. *)
Lemma for_step3_fuel {A : Type} (body : Z -> A -> A) (frameSize : Z) :
  forall (fuel1 fuel2 : nat) (i : Z) (acc : A),
    frameSize - i <= 3 * Z.of_nat fuel1 ->
    frameSize - i <= 3 * Z.of_nat fuel2 ->
    for_step3 fuel1 frameSize i body acc = for_step3 fuel2 frameSize i body acc.
Proof.
  induction fuel1 as [|fuel1 IH]; intros fuel2 i acc H1 H2.
  - rewrite !for_step3_done by lia. reflexivity.
  - destruct fuel2 as [|fuel2].
    + rewrite !for_step3_done by lia. reflexivity.
    + rewrite !for_step3_S. destruct (Z.ltb_spec i frameSize); [|reflexivity].
      apply IH; lia.
Qed.

(** A property of the accumulator that every iteration keeps holds at the
    end of the loop. *)
Lemma for_step3_invariant {A : Type} (P : A -> Prop) (body : Z -> A -> A)
    (frameSize : Z) :
  (forall i acc, P acc -> P (body i acc)) ->
  forall (fuel : nat) (i : Z) (acc : A),
    P acc -> P (for_step3 fuel frameSize i body acc).
Proof.
  intros Hbody. induction fuel as [|fuel IH]; intros i acc Hacc; [exact Hacc|].
  rewrite for_step3_S. destruct (i <? frameSize); [|exact Hacc].
  apply IH, Hbody, Hacc.
Qed.

(** The indices at which the body runs lie in the frame: [i + 2] and
    [i + 3] stay below [frameSize + 3]. *)
Lemma for_step3_index_range (frameSize : Z) :
  forall (fuel : nat) (start : Z) (visited : list Z),
    Forall (fun i => 0 <= i < frameSize) visited ->
    0 <= start ->
    Forall (fun i => 0 <= i < frameSize)
      (for_step3 fuel frameSize start (fun i acc => i :: acc) visited).
Proof.
  induction fuel as [|fuel IH]; intros start visited Hv Hs; [exact Hv|].
  rewrite for_step3_S. destruct (Z.ltb_spec start frameSize); [|exact Hv].
  apply IH; [|lia]. constructor; [lia | exact Hv].
Qed.

(** Lists taken three elements at a time. *)
Lemma list_ind3 {A : Type} (P : list A -> Prop) :
  P [] ->
  (forall a, P [a]) ->
  (forall a b, P [a; b]) ->
  (forall a b c rest, P rest -> P (a :: b :: c :: rest)) ->
  forall l, P l.
Proof.
  intros H0 H1 H2 H3.
  assert (Hall : forall l, P l /\ (forall a, P (a :: l)) /\ (forall a b, P (a :: b :: l))).
  { induction l as [|x l (Hl & Hl1 & Hl2)]; [auto|].
    repeat split; auto. }
  intros l. apply Hall.
Qed.

Lemma at_index_app (pre l : list byte) (k : Z) :
  0 <= k ->
  at_index (pre ++ l) (Z.of_nat (length pre) + k) = at_index l k.
Proof.
  intros Hk. unfold at_index.
  replace (Z.to_nat (Z.of_nat (length pre) + k))
    with (length pre + Z.to_nat k)%nat by lia.
  rewrite lookup_app_r by lia. do 2 f_equal. lia.
Qed.

Lemma at_index_app_0 (pre l : list byte) :
  at_index (pre ++ l) (Z.of_nat (length pre)) = at_index l 0.
Proof.
  rewrite <- (at_index_app pre l 0) by lia. f_equal. lia.
Qed.

(** ** CalculateAverageBrightness *)

Lemma byte_val_range (b : byte) : 0 <= byte_val b <= 255.
Proof.
  unfold byte_val. pose proof (Byte.to_N_bounded b). lia.
Qed.

Lemma pixel_brightness_range (p : byte * byte * byte) :
  0 <= pixel_brightness p <= 255.
Proof.
  destruct p as [[b0 b1] b2]. unfold pixel_brightness.
  pose proof (byte_val_range b0). pose proof (byte_val_range b1).
  pose proof (byte_val_range b2).
  split; [apply Z.div_pos; lia|].
  apply Z.div_le_upper_bound; lia.
Qed.

Lemma brightness_sum_cons (b0 b1 b2 : byte) (rest : list byte) :
  brightness_sum (b0 :: b1 :: b2 :: rest) =
  pixel_brightness (b0, b1, b2) + brightness_sum rest.
Proof. reflexivity. Qed.

Lemma length_pixels (frameData : list byte) :
  Z.of_nat (length (pixels frameData)) = Z.of_nat (length frameData) / 3.
Proof.
  induction frameData as [| a | a b | a b c rest IH] using list_ind3;
    try reflexivity.
  cbn [pixels length]. rewrite !Nat2Z.inj_succ, IH.
  replace (Z.succ (Z.succ (Z.succ (Z.of_nat (length rest)))))
    with (Z.of_nat (length rest) + 1 * 3) by lia.
  rewrite Z.div_add by lia. lia.
Qed.

Lemma brightness_sum_range (frameData : list byte) :
  0 <= brightness_sum frameData <= 255 * Z.of_nat (length (pixels frameData)).
Proof.
  induction frameData as [| a | a b | a b c rest IH] using list_ind3;
    try (cbn; lia).
  rewrite brightness_sum_cons. cbn [pixels length].
  pose proof (pixel_brightness_range (a, b, c)). lia.
Qed.

(** The loop computes the sum of the pixel brightnesses, reduced to the
    range of [long]. *)
Lemma brightness_loop_spec (rest : list byte) :
  forall (pre : list byte) (acc : Z) (fuel : nat),
    is_long acc ->
    Z.of_nat (length rest) <= 3 * Z.of_nat fuel ->
    for_step3 fuel (Z.of_nat (length (pre ++ rest))) (Z.of_nat (length pre))
      (brightness_step (pre ++ rest) (Z.of_nat (length (pre ++ rest)))) acc
    = wrap_long (acc + brightness_sum rest).
Proof.
  induction rest as [| a | a b | a b c rest IH] using list_ind3;
    intros pre acc fuel Hacc Hfuel.
  - rewrite for_step3_done by (rewrite length_app; cbn; lia).
    cbn. rewrite Z.add_0_r, wrap_long_id; auto.
  - destruct fuel as [|fuel]; [cbn in Hfuel; lia|].
    rewrite for_step3_S, length_app. cbn [length].
    destruct (Z.ltb_spec (Z.of_nat (length pre)) (Z.of_nat (length pre + 1)));
      [|lia].
    rewrite for_step3_done by lia. unfold brightness_step.
    destruct (Z.ltb_spec (Z.of_nat (length pre) + 2) (Z.of_nat (length pre + 1)));
      [lia|].
    cbn. rewrite Z.add_0_r, wrap_long_id; auto.
  - destruct fuel as [|fuel]; [cbn in Hfuel; lia|].
    rewrite for_step3_S, length_app. cbn [length].
    destruct (Z.ltb_spec (Z.of_nat (length pre)) (Z.of_nat (length pre + 2)));
      [|lia].
    rewrite for_step3_done by lia. unfold brightness_step.
    destruct (Z.ltb_spec (Z.of_nat (length pre) + 2) (Z.of_nat (length pre + 2)));
      [lia|].
    cbn. rewrite Z.add_0_r, wrap_long_id; auto.
  - destruct fuel as [|fuel]; [cbn [length] in Hfuel; lia|].
    rewrite for_step3_S.
    destruct (Z.ltb_spec (Z.of_nat (length pre))
                (Z.of_nat (length (pre ++ a :: b :: c :: rest))));
      [|rewrite length_app in *; cbn [length] in *; lia].
    assert (Hstep :
      brightness_step (pre ++ a :: b :: c :: rest)
        (Z.of_nat (length (pre ++ a :: b :: c :: rest)))
        (Z.of_nat (length pre)) acc
      = add_long acc (pixel_brightness (a, b, c))).
    { unfold brightness_step.
      destruct (Z.ltb_spec (Z.of_nat (length pre) + 2)
                  (Z.of_nat (length (pre ++ a :: b :: c :: rest))));
        [|rewrite length_app in *; cbn [length] in *; lia].
      rewrite at_index_app_0, !at_index_app by lia.
      unfold pixel_brightness. f_equal.
      change (at_index (a :: b :: c :: rest) 0) with a.
      change (at_index (a :: b :: c :: rest) 1) with b.
      change (at_index (a :: b :: c :: rest) 2) with c.
      pose proof (byte_val_range a). pose proof (byte_val_range b).
      pose proof (byte_val_range c).
      apply Z.quot_div_nonneg; lia. }
    rewrite Hstep.
    replace (pre ++ a :: b :: c :: rest) with ((pre ++ [a; b; c]) ++ rest)
      by (rewrite <- app_assoc; reflexivity).
    replace (Z.of_nat (length pre) + 3) with (Z.of_nat (length (pre ++ [a; b; c])))
      by (rewrite length_app; cbn [length]; lia).
    rewrite IH; [| apply wrap_long_range | cbn [length] in Hfuel; lia].
    unfold add_long. rewrite wrap_long_add_l, brightness_sum_cons.
    f_equal. lia.
Qed.

Lemma total_brightness_spec (frameData : list byte) :
  total_brightness frameData (Z.of_nat (length frameData))
  = wrap_long (brightness_sum frameData).
Proof.
  unfold total_brightness.
  pose proof (brightness_loop_spec frameData [] 0
                (Z.to_nat (Z.of_nat (length frameData)))) as H.
  cbn [app length] in H. change (Z.of_nat 0) with 0 in H.
  rewrite H; [reflexivity | |lia].
  unfold is_long, LONG_MIN, LONG_MAX. lia.
Qed.

Lemma ddiv_pos (num den : Z) :
  0 < den -> ddiv num den = DFin (num # Z.to_pos den).
Proof. destruct den as [|p|p]; intros H; try lia. reflexivity. Qed.

Lemma pixels_replicate (c : byte) (k : nat) :
  pixels (replicate (k * 3) c) = replicate k (c, c, c).
Proof.
  induction k as [|k IH]; [reflexivity|].
  cbn [Nat.mul Nat.add replicate pixels]. rewrite IH. reflexivity.
Qed.

Lemma brightness_sum_replicate (c : byte) (k : nat) :
  brightness_sum (replicate (k * 3) c) = Z.of_nat k * pixel_brightness (c, c, c).
Proof.
  unfold brightness_sum. rewrite pixels_replicate.
  induction k as [|k IH]; [reflexivity|].
  cbn [replicate fmap list_fmap foldr]. cbn [replicate fmap list_fmap foldr] in IH.
  rewrite IH. lia.
Qed.

(** A frame of [k] pixels that all have the bytes [c c c]. *)
Lemma CalculateAverageBrightness_uniform (c : byte) (k : Z) :
  0 < k ->
  CalculateAverageBrightness (replicate (Z.to_nat (3 * k)) c) (3 * k)
  = ddiv (wrap_long (k * pixel_brightness (c, c, c))) k.
Proof.
  intros Hk. unfold CalculateAverageBrightness.
  destruct (Z.ltb_spec 0 (3 * k)); [|lia].
  rewrite Z.quot_div_nonneg by lia.
  replace (3 * k / 3) with k by (rewrite Z.mul_comm, Z.div_mul; lia).
  f_equal.
  pose proof (total_brightness_spec (replicate (Z.to_nat (3 * k)) c)) as Htb.
  rewrite length_replicate, Z2Nat.id in Htb by lia. rewrite Htb. f_equal.
  replace (Z.to_nat (3 * k)) with (Z.to_nat k * 3)%nat by lia.
  rewrite brightness_sum_replicate. f_equal. lia.
Qed.

(** The value returned for a frame of complete pixels whose brightness sum
    fits a [long]. *)
Lemma CalculateAverageBrightness_mean (frameData : list byte) (k : Z) :
  Z.of_nat (length frameData) = 3 * k ->
  0 < k ->
  brightness_sum frameData <= LONG_MAX ->
  CalculateAverageBrightness frameData (3 * k)
  = DFin (brightness_sum frameData # Z.to_pos k).
Proof.
  intros Hlen Hk Hsum. unfold CalculateAverageBrightness.
  destruct (Z.ltb_spec 0 (3 * k)); [|lia].
  rewrite Z.quot_div_nonneg by lia.
  replace (3 * k / 3) with k by (rewrite Z.mul_comm, Z.div_mul; lia).
  rewrite <- Hlen, total_brightness_spec, wrap_long_id.
  - apply ddiv_pos, Hk.
  - pose proof (brightness_sum_range frameData).
    unfold is_long, LONG_MIN, LONG_MAX in *. lia.
Qed.

(** Up to 8421504 pixels (every frame up to 3840 x 2160) the sum fits. *)
Lemma brightness_sum_fits (frameData : list byte) :
  Z.of_nat (length frameData) <= 3 * 8421504 ->
  brightness_sum frameData <= LONG_MAX.
Proof.
  intros Hlen. pose proof (brightness_sum_range frameData) as Hr.
  rewrite length_pixels in Hr.
  assert (Z.of_nat (length frameData) / 3 <= 8421504).
  { apply Z.div_le_upper_bound; lia. }
  unfold LONG_MAX. lia.
Qed.

Lemma CalculateAverageBrightness_no_frame (frameData : list byte) (frameSize : Z) :
  frameSize <= 0 -> CalculateAverageBrightness frameData frameSize = DFin 0.
Proof.
  intros H. unfold CalculateAverageBrightness.
  destruct (Z.ltb_spec 0 frameSize); [lia | reflexivity].
Qed.

(** A frame of one or two bytes has no pixel: the sum 0 is divided by the
    pixel count 0. *)
Lemma CalculateAverageBrightness_short_frame (frameData : list byte) (frameSize : Z) :
  frameSize = 1 \/ frameSize = 2 ->
  CalculateAverageBrightness frameData frameSize = DNaN.
Proof. intros [-> | ->]; reflexivity. Qed.

(** From three bytes on, and as long as the sum fits a [long], the value
    is a brightness. *)
Lemma CalculateAverageBrightness_bounds (frameData : list byte) :
  3 <= Z.of_nat (length frameData) ->
  brightness_sum frameData <= LONG_MAX ->
  double_between 0 255
    (CalculateAverageBrightness frameData (Z.of_nat (length frameData))).
Proof.
  intros Hlen Hsum. unfold CalculateAverageBrightness.
  destruct (Z.ltb_spec 0 (Z.of_nat (length frameData))); [|lia].
  rewrite Z.quot_div_nonneg by lia.
  pose proof (brightness_sum_range frameData) as Hr.
  rewrite total_brightness_spec, wrap_long_id
    by (unfold is_long, LONG_MIN, LONG_MAX in *; lia).
  rewrite length_pixels in Hr.
  assert (Hk : 0 < Z.of_nat (length frameData) / 3).
  { apply Z.div_str_pos. lia. }
  rewrite ddiv_pos by exact Hk.
  unfold double_between, Qle. cbn [Qnum Qden inject_Z].
  rewrite Z2Pos.id by exact Hk. lia.
Qed.

(** C1, at the frame that breaks it: 8421505 white pixels.  The sum of the
    pixel brightnesses is 2147483775 and their mean is 255; the [long]
    accumulator wraps and the function returns -2147483521 / 8421505. *)
Theorem CalculateAverageBrightness_overflow :
  Z.of_nat (length (replicate (Z.to_nat 25264515) xff)) = 25264515
  /\ brightness_sum (replicate (Z.to_nat 25264515) xff) = 255 * 8421505
  /\ CalculateAverageBrightness (replicate (Z.to_nat 25264515) xff) 25264515
     = DFin (-2147483521 # 8421505).
Proof.
  split; [rewrite length_replicate; lia|]. split.
  - replace (Z.to_nat 25264515) with (Z.to_nat 8421505 * 3)%nat by lia.
    rewrite brightness_sum_replicate, Z2Nat.id by lia. reflexivity.
  - change 25264515 with (3 * 8421505).
    rewrite CalculateAverageBrightness_uniform by lia. reflexivity.
Qed.

(** C10, at the frame that breaks it: a single byte.  No pixel is summed
    and the pixel count [frameSize / 3] is 0, so the function returns the
    quotient 0.0 / 0, which is not a number. *)
Theorem CalculateAverageBrightness_one_byte_nan :
  CalculateAverageBrightness [x80] 1 = DNaN
  /\ is_finite (CalculateAverageBrightness [x80] 1) = false
  /\ ~ double_between 0 255 (CalculateAverageBrightness [x80] 1).
Proof. repeat split. intros H. exact H. Qed.

(** ** GetAverageFPS *)

(** C7: the elapsed time is a DWORD, hence never negative; when it is zero
    the function returns 0.0 without dividing, and when it is positive the
    function returns the frame count times 1000 divided by it.  In both
    cases the result is finite: no division by zero takes place. *)
Theorem GetAverageFPS_no_division_by_zero (tick : Z) (this : CSampleGrabberCB.t) :
  0 <= sub_dword tick (m_startTime this) < DWORD_MODULUS
  /\ (sub_dword tick (m_startTime this) = 0 ->
      GetAverageFPS tick this = DFin 0)
  /\ (0 < sub_dword tick (m_startTime this) ->
      GetAverageFPS tick this
      = DFin (m_frameCount this * 1000
              # Z.to_pos (sub_dword tick (m_startTime this))))
  /\ is_finite (GetAverageFPS tick this) = true.
Proof.
  unfold GetAverageFPS.
  pose proof (wrap_dword_range (tick - m_startTime this)) as Hr.
  fold (sub_dword tick (m_startTime this)) in Hr.
  destruct (Z.ltb_spec 0 (sub_dword tick (m_startTime this))) as [Hpos | Hzero].
  - rewrite ddiv_pos by exact Hpos. repeat split; try lia.
  - repeat split; try lia.
Qed.

Lemma GetAverageFPS_no_division_by_zero_witness :
  0 < sub_dword 2000 1000
  /\ GetAverageFPS 2000
       {| m_refCount := 1; m_frameCount := 30; m_startTime := 1000;
          m_lastFrameTime := 1990 |}
     = DFin (30 * 1000 # 1000).
Proof.
  split; [reflexivity|].
  destruct (GetAverageFPS_no_division_by_zero 2000
              {| m_refCount := 1; m_frameCount := 30; m_startTime := 1000;
                 m_lastFrameTime := 1990 |}) as (_ & _ & Hpositive & _).
  apply Hpositive. reflexivity.
Defined.

(** ** The BGR to RGB conversion *)

Import CFrameSavingCallback.

Lemma insert_after (done l : list byte) (i : Z) (k : nat) (x : byte) :
  Z.to_nat i = (length done + k)%nat ->
  <[Z.to_nat i := x]> (done ++ l) = done ++ <[k := x]> l.
Proof.
  intros ->. rewrite insert_app_r_alt by lia. do 2 f_equal. lia.
Qed.

(** The loop fills the zeroed vector with the exchanged pixels, from the
    front, and leaves the bytes after the last complete pixel as they are. *)
Lemma bgr_loop_spec (rest : list byte) :
  forall (pre done : list byte) (fuel : nat),
    length done = length pre ->
    Z.of_nat (length rest) <= 3 * Z.of_nat fuel ->
    for_step3 fuel (Z.of_nat (length (pre ++ rest))) (Z.of_nat (length pre))
      (bgr_step (pre ++ rest) (Z.of_nat (length (pre ++ rest))))
      (done ++ replicate (length rest) x00)
    = done ++ swap_red_blue rest.
Proof.
  induction rest as [| a | a b | a b c rest IH] using list_ind3;
    intros pre done fuel Hdone Hfuel.
  - rewrite for_step3_done by (rewrite length_app; cbn; lia). reflexivity.
  - destruct fuel as [|fuel]; [cbn in Hfuel; lia|].
    rewrite for_step3_S, length_app. cbn [length].
    destruct (Z.ltb_spec (Z.of_nat (length pre)) (Z.of_nat (length pre + 1)));
      [|lia].
    rewrite for_step3_done by lia. unfold bgr_step.
    destruct (Z.ltb_spec (Z.of_nat (length pre) + 2) (Z.of_nat (length pre + 1)));
      [lia | reflexivity].
  - destruct fuel as [|fuel]; [cbn in Hfuel; lia|].
    rewrite for_step3_S, length_app. cbn [length].
    destruct (Z.ltb_spec (Z.of_nat (length pre)) (Z.of_nat (length pre + 2)));
      [|lia].
    rewrite for_step3_done by lia. unfold bgr_step.
    destruct (Z.ltb_spec (Z.of_nat (length pre) + 2) (Z.of_nat (length pre + 2)));
      [lia | reflexivity].
  - destruct fuel as [|fuel]; [cbn [length] in Hfuel; lia|].
    rewrite for_step3_S.
    destruct (Z.ltb_spec (Z.of_nat (length pre))
                (Z.of_nat (length (pre ++ a :: b :: c :: rest))));
      [|rewrite length_app in *; cbn [length] in *; lia].
    assert (Hstep :
      bgr_step (pre ++ a :: b :: c :: rest)
        (Z.of_nat (length (pre ++ a :: b :: c :: rest)))
        (Z.of_nat (length pre))
        (done ++ replicate (length (a :: b :: c :: rest)) x00)
      = (done ++ [c; b; a]) ++ replicate (length rest) x00).
    { unfold bgr_step.
      destruct (Z.ltb_spec (Z.of_nat (length pre) + 2)
                  (Z.of_nat (length (pre ++ a :: b :: c :: rest))));
        [|rewrite length_app in *; cbn [length] in *; lia].
      rewrite at_index_app_0, !at_index_app by lia.
      change (at_index (a :: b :: c :: rest) 0) with a.
      change (at_index (a :: b :: c :: rest) 1) with b.
      change (at_index (a :: b :: c :: rest) 2) with c.
      cbn [length replicate].
      rewrite (insert_after done _ (Z.of_nat (length pre)) 0) by lia.
      rewrite (insert_after done _ (Z.of_nat (length pre) + 1) 1) by lia.
      rewrite (insert_after done _ (Z.of_nat (length pre) + 2) 2) by lia.
      rewrite <- app_assoc. reflexivity. }
    rewrite Hstep.
    replace (pre ++ a :: b :: c :: rest) with ((pre ++ [a; b; c]) ++ rest)
      by (rewrite <- app_assoc; reflexivity).
    replace (Z.of_nat (length pre) + 3) with (Z.of_nat (length (pre ++ [a; b; c])))
      by (rewrite length_app; cbn [length]; lia).
    rewrite IH.
    + rewrite <- app_assoc. reflexivity.
    + rewrite !length_app. cbn [length]. lia.
    + cbn [length] in Hfuel. lia.
Qed.

Lemma bgr_to_rgb_spec (frameData : list byte) :
  bgr_to_rgb frameData (Z.of_nat (length frameData)) = swap_red_blue frameData.
Proof.
  unfold bgr_to_rgb. rewrite Nat2Z.id.
  pose proof (bgr_loop_spec frameData [] [] (length frameData)) as H.
  cbn [app length] in H. change (Z.of_nat 0) with 0 in H.
  apply H; [reflexivity | lia].
Qed.

Lemma bgr_to_rgb_length (frameData : list byte) (frameSize : Z) :
  length (bgr_to_rgb frameData frameSize) = Z.to_nat frameSize.
Proof.
  unfold bgr_to_rgb.
  apply (for_step3_invariant (fun rgbData => length rgbData = Z.to_nat frameSize)).
  - intros i acc Hacc. unfold bgr_step.
    destruct (i + 2 <? frameSize); [|exact Hacc].
    rewrite !length_insert. exact Hacc.
  - apply length_replicate.
Qed.

Lemma swap_red_blue_length (frameData : list byte) :
  length (swap_red_blue frameData) = length frameData.
Proof.
  induction frameData as [| a | a b | a b c rest IH] using list_ind3;
    try reflexivity.
  cbn [swap_red_blue length]. rewrite IH. reflexivity.
Qed.

Lemma swap_red_blue_pixel (j : nat) :
  forall frameData : list byte,
    (j * 3 + 2 < length frameData)%nat ->
    swap_red_blue frameData !! (j * 3)%nat = frameData !! (j * 3 + 2)%nat
    /\ swap_red_blue frameData !! (j * 3 + 1)%nat = frameData !! (j * 3 + 1)%nat
    /\ swap_red_blue frameData !! (j * 3 + 2)%nat = frameData !! (j * 3)%nat.
Proof.
  induction j as [|j IH]; intros [|a [|b [|c rest]]] Hlen;
    cbn [length] in Hlen; try lia.
  - repeat split.
  - apply (IH rest). cbn [Nat.mul Nat.add] in Hlen. lia.
Qed.

Lemma swap_red_blue_tail (frameData : list byte) :
  forall p : nat,
    3 * (Z.of_nat (length frameData) / 3) <= Z.of_nat p
      < Z.of_nat (length frameData) ->
    swap_red_blue frameData !! p = Some x00.
Proof.
  induction frameData as [| a | a b | a b c rest IH] using list_ind3;
    intros p Hp.
  - cbn in Hp. lia.
  - destruct p as [|p]; [reflexivity | cbn in Hp; lia].
  - destruct p as [|[|p]]; [reflexivity | reflexivity | cbn in Hp; lia].
  - cbn [length] in Hp. rewrite !Nat2Z.inj_succ in Hp.
    replace (Z.succ (Z.succ (Z.succ (Z.of_nat (length rest)))))
      with (Z.of_nat (length rest) + 1 * 3) in Hp by lia.
    rewrite Z.div_add in Hp by lia.
    assert (0 <= Z.of_nat (length rest) / 3) by (apply Z.div_pos; lia).
    destruct p as [|[|[|p]]]; try lia.
    cbn [swap_red_blue lookup list_lookup]. apply IH. lia.
Qed.

Lemma pixels_swap_red_blue (frameData : list byte) :
  pixels (swap_red_blue frameData) = swap_pixel <$> pixels frameData.
Proof.
  induction frameData as [| a | a b | a b c rest IH] using list_ind3;
    try reflexivity.
  cbn [swap_red_blue pixels fmap list_fmap]. rewrite IH. reflexivity.
Qed.

Lemma swap_red_blue_decompose (frameData : list byte) :
  swap_red_blue frameData = zero_tail (swap_complete_pixels frameData).
Proof.
  induction frameData as [| a | a b | a b c rest IH] using list_ind3;
    try reflexivity.
  cbn [swap_red_blue swap_complete_pixels zero_tail]. rewrite IH. reflexivity.
Qed.

Lemma swap_complete_pixels_involutive (frameData : list byte) :
  swap_complete_pixels (swap_complete_pixels frameData) = frameData.
Proof.
  induction frameData as [| a | a b | a b c rest IH] using list_ind3;
    try reflexivity.
  cbn [swap_complete_pixels]. rewrite IH. reflexivity.
Qed.

Lemma swap_pixel_involutive (p : byte * byte * byte) :
  swap_pixel (swap_pixel p) = p.
Proof. destruct p as [[b0 b1] b2]. reflexivity. Qed.

Lemma swap_red_blue_involutive (frameData : list byte) :
  Z.of_nat (length frameData) mod 3 = 0 ->
  swap_red_blue (swap_red_blue frameData) = frameData.
Proof.
  induction frameData as [| a | a b | a b c rest IH] using list_ind3;
    intros Hlen; try reflexivity; try (vm_compute in Hlen; discriminate).
  cbn [swap_red_blue]. rewrite IH; [reflexivity|].
  cbn [length] in Hlen. rewrite !Nat2Z.inj_succ in Hlen.
  replace (Z.succ (Z.succ (Z.succ (Z.of_nat (length rest)))))
    with (Z.of_nat (length rest) + 1 * 3) in Hlen by lia.
  rewrite Z.mod_add in Hlen by lia. exact Hlen.
Qed.

(** ** SaveFrameAsBMP and ProcessFrame *)

Lemma SaveFrameAsBMP_inv (create_ok : bool) (this this' : CFrameSavingCallback.t)
    (frameData : list byte) (frameSize : Z) (written : option bmp_file) :
  SaveFrameAsBMP create_ok this frameData frameSize = Ret (this', written) ->
  image_dimensions this frameSize
    = Ret (m_imageWidth this', m_imageHeight this')
  /\ m_frameSaved this' = m_frameSaved this
  /\ written =
     if create_ok
     then Some {| file_name := "captured_frame.bmp";
                  file_header := file_header_of frameSize;
                  info_header :=
                    info_header_of (m_imageWidth this') (m_imageHeight this')
                      frameSize;
                  pixel_data := bgr_to_rgb frameData frameSize |}
     else None.
Proof.
  unfold SaveFrameAsBMP.
  destruct (image_dimensions this frameSize) as [|[width height]];
    [discriminate|].
  destruct create_ok; intros [= <- <-]; repeat split.
Qed.

Lemma ProcessFrame_written (create_ok : bool) (this this' : CFrameSavingCallback.t)
    (frameData : option (list byte)) (frameSize : Z) (f : bmp_file) :
  CFrameSavingCallback.ProcessFrame create_ok this frameData frameSize
    = Ret (this', Some f) ->
  exists (data : list byte) (saved : CFrameSavingCallback.t),
    frameData = Some data
    /\ m_frameSaved this = false
    /\ 0 < frameSize
    /\ SaveFrameAsBMP create_ok this data frameSize = Ret (saved, Some f)
    /\ this' = mark_saved saved.
Proof.
  unfold CFrameSavingCallback.ProcessFrame.
  destruct (CSampleGrabberCB.ProcessFrame frameData frameSize); [discriminate|].
  destruct frameData as [data|]; [|discriminate].
  destruct (m_frameSaved this) eqn:Hsaved; [discriminate|].
  destruct (Z.ltb_spec 0 frameSize); [|discriminate]. cbn [negb andb].
  destruct (SaveFrameAsBMP create_ok this data frameSize)
    as [|[saved written]] eqn:Hsave; [discriminate|].
  intros [= <- ->]. exists data, saved. repeat split; auto.
Qed.

(** C2: the file written by a save is named captured_frame.bmp and holds a
    BITMAPFILEHEADER with bfType 0x4D42, bfOffBits the size of the two
    headers and bfSize that offset plus the frame size, then a
    BITMAPINFOHEADER with 24 bits per pixel, BI_RGB, one plane, the image
    width, the negated image height and the frame size as image size, then
    exactly frameSize bytes of pixel data.  The width and the height are
    those the object holds after the call: the configured ones when both
    are non-zero.  The height is negated in LONG arithmetic, which is the
    mathematical negation for every height above LONG_MIN. *)
Theorem ProcessFrame_bmp_layout (create_ok : bool)
    (this this' : CFrameSavingCallback.t) (frameData : option (list byte))
    (frameSize : Z) (f : bmp_file) :
  frameSize <= LONG_MAX ->
  CFrameSavingCallback.ProcessFrame create_ok this frameData frameSize
    = Ret (this', Some f) ->
  file_name f = "captured_frame.bmp"%string
  /\ bfType (file_header f) = 0x4D42
  /\ bfOffBits (file_header f)
     = sizeof_BITMAPFILEHEADER + sizeof_BITMAPINFOHEADER
  /\ bfSize (file_header f) = bfOffBits (file_header f) + frameSize
  /\ biBitCount (info_header f) = 24
  /\ biCompression (info_header f) = BI_RGB
  /\ biPlanes (info_header f) = 1
  /\ biWidth (info_header f) = m_imageWidth this'
  /\ biHeight (info_header f) = neg_long (m_imageHeight this')
  /\ (LONG_MIN < m_imageHeight this' <= LONG_MAX ->
      biHeight (info_header f) = - m_imageHeight this')
  /\ biSizeImage (info_header f) = frameSize
  /\ Z.of_nat (length (pixel_data f)) = frameSize
  /\ ((m_imageWidth this =? 0) || (m_imageHeight this =? 0) = false ->
      m_imageWidth this' = m_imageWidth this
      /\ m_imageHeight this' = m_imageHeight this).
Proof.
  intros Hmax Hrun.
  destruct (ProcessFrame_written _ _ _ _ _ _ Hrun)
    as (data & saved & -> & Hflag & Hpos & Hsave & ->).
  destruct (SaveFrameAsBMP_inv _ _ _ _ _ _ Hsave) as (Hdims & _ & Hfile).
  destruct create_ok; [|discriminate]. injection Hfile as ->.
  cbn [file_name file_header info_header pixel_data file_header_of
       info_header_of bfType bfOffBits bfSize biBitCount biCompression
       biPlanes biWidth biHeight biSizeImage mark_saved m_imageWidth
       m_imageHeight].
  assert (Hsize : wrap_dword frameSize = frameSize).
  { apply wrap_dword_id. unfold DWORD_MODULUS, LONG_MAX in *. lia. }
  repeat match goal with |- _ /\ _ => split end; try reflexivity.
  - unfold add_dword. rewrite Hsize. apply wrap_dword_id.
    unfold sizeof_BITMAPFILEHEADER, sizeof_BITMAPINFOHEADER, DWORD_MODULUS,
      LONG_MAX in *. lia.
  - apply neg_long_opp.
  - exact Hsize.
  - rewrite bgr_to_rgb_length. lia.
  - intros Hset. unfold image_dimensions in Hdims. rewrite Hset in Hdims.
    injection Hdims as <- <-. split; reflexivity.
Qed.

Lemma ProcessFrame_bmp_layout_witness :
  exists (this' : CFrameSavingCallback.t) (f : bmp_file),
    CFrameSavingCallback.ProcessFrame true
      (SetImageDimensions 2 1 CFrameSavingCallback.create)
      (Some [x01; x02; x03; x04; x05; x06]) 6 = Ret (this', Some f)
    /\ bfType (file_header f) = 19778
    /\ bfSize (file_header f) = 54 + 6
    /\ biWidth (info_header f) = 2
    /\ biHeight (info_header f) = -1
    /\ Z.of_nat (length (pixel_data f)) = 6.
Proof.
  eexists. eexists. split; [reflexivity|].
  destruct (ProcessFrame_bmp_layout true
              (SetImageDimensions 2 1 CFrameSavingCallback.create) _
              (Some [x01; x02; x03; x04; x05; x06]) 6 _
              ltac:(unfold LONG_MAX; lia) eq_refl)
    as (_ & Htype & _ & Hsize & _ & _ & _ & Hwidth & Hheight & _ & _ & Hlen & _).
  split; [exact Htype|]. split; [exact Hsize|]. split; [exact Hwidth|].
  split; [exact Hheight | exact Hlen].
Defined.

(** C3: the pixel data of the file is the frame with the first and the
    third byte of every complete pixel exchanged and the middle byte kept;
    the bytes after the last complete pixel are zero.  The exchange is an
    involution, on a pixel and on a buffer; the conversion of the program,
    which also zeroes the trailing bytes, gives back every complete pixel
    when it is applied twice, and the whole frame when the frame has no
    byte after its last complete pixel. *)
Theorem ProcessFrame_pixel_data (create_ok : bool)
    (this this' : CFrameSavingCallback.t) (frameData : list byte)
    (f : bmp_file) :
  CFrameSavingCallback.ProcessFrame create_ok this (Some frameData)
    (Z.of_nat (length frameData)) = Ret (this', Some f) ->
  length (pixel_data f) = length frameData
  /\ (forall j : Z, 0 <= j -> 3 * j + 2 < Z.of_nat (length frameData) ->
        pixel_data f !! Z.to_nat (3 * j) = frameData !! Z.to_nat (3 * j + 2)
        /\ pixel_data f !! Z.to_nat (3 * j + 1)
           = frameData !! Z.to_nat (3 * j + 1)
        /\ pixel_data f !! Z.to_nat (3 * j + 2) = frameData !! Z.to_nat (3 * j))
  /\ (forall p : Z,
        3 * (Z.of_nat (length frameData) / 3) <= p
          < Z.of_nat (length frameData) ->
        pixel_data f !! Z.to_nat p = Some x00)
  /\ pixel_data f = zero_tail (swap_complete_pixels frameData)
  /\ (forall buffer : list byte,
        swap_complete_pixels (swap_complete_pixels buffer) = buffer)
  /\ pixels (pixel_data f) = swap_pixel <$> pixels frameData
  /\ (forall px, swap_pixel (swap_pixel px) = px)
  /\ pixels (bgr_to_rgb (pixel_data f) (Z.of_nat (length (pixel_data f))))
     = pixels frameData
  /\ (Z.of_nat (length frameData) mod 3 = 0 ->
      bgr_to_rgb (pixel_data f) (Z.of_nat (length (pixel_data f))) = frameData).
Proof.
  intros Hrun.
  destruct (ProcessFrame_written _ _ _ _ _ _ Hrun)
    as (data & saved & [= <-] & Hflag & Hpos & Hsave & ->).
  destruct (SaveFrameAsBMP_inv _ _ _ _ _ _ Hsave) as (_ & _ & Hfile).
  destruct create_ok; [|discriminate]. injection Hfile as ->.
  cbn [pixel_data]. rewrite !bgr_to_rgb_spec.
  split; [apply swap_red_blue_length|].
  split.
  { intros j Hj Hlen.
    replace (Z.to_nat (3 * j)) with (Z.to_nat j * 3)%nat by lia.
    replace (Z.to_nat (3 * j + 1)) with (Z.to_nat j * 3 + 1)%nat by lia.
    replace (Z.to_nat (3 * j + 2)) with (Z.to_nat j * 3 + 2)%nat by lia.
    apply swap_red_blue_pixel. lia. }
  split.
  { intros p Hp. apply swap_red_blue_tail.
    assert (0 <= Z.of_nat (length frameData) / 3) by (apply Z.div_pos; lia).
    lia. }
  split; [apply swap_red_blue_decompose|].
  split; [apply swap_complete_pixels_involutive|].
  split; [apply pixels_swap_red_blue|].
  split; [apply swap_pixel_involutive|].
  split.
  - rewrite !pixels_swap_red_blue, <- list_fmap_compose.
    rewrite <- (list_fmap_id (pixels frameData)) at 2.
    apply list_fmap_ext. intros i px _. apply swap_pixel_involutive.
  - intros Hmod. apply swap_red_blue_involutive, Hmod.
Qed.

Lemma ProcessFrame_pixel_data_witness :
  exists (this' : CFrameSavingCallback.t) (f : bmp_file),
    CFrameSavingCallback.ProcessFrame true CFrameSavingCallback.create
      (Some [x0a; x14; x1e; x28; x32; x3c; x46; x50])
      (Z.of_nat (length [x0a; x14; x1e; x28; x32; x3c; x46; x50]))
    = Ret (this', Some f)
    /\ length (pixel_data f) = 8%nat
    /\ pixel_data f !! 6%nat = Some x00.
Proof.
  eexists. eexists. split; [reflexivity|].
  pose proof (ProcessFrame_pixel_data true CFrameSavingCallback.create _
                [x0a; x14; x1e; x28; x32; x3c; x46; x50] _ eq_refl)
    as (Hlen & _ & Htail & _).
  split; [exact Hlen|].
  apply (Htail 6). vm_compute. split; [discriminate | reflexivity].
Defined.

(** ** At most one save *)

Lemma deliver_saved (this this' : CFrameSavingCallback.t) (inv : invocation)
    (written : option bmp_file) :
  m_frameSaved this = true ->
  deliver this inv = Ret (this', written) ->
  this' = this /\ written = None.
Proof.
  unfold deliver, CFrameSavingCallback.ProcessFrame. intros Hsaved.
  destruct (CSampleGrabberCB.ProcessFrame _ _); [discriminate|].
  destruct (inv_frameData inv); rewrite ?Hsaved; cbn [negb andb];
    intros [= <- <-]; auto.
Qed.

Lemma deliver_unsaveable (this this' : CFrameSavingCallback.t) (inv : invocation)
    (written : option bmp_file) :
  saveable inv = false ->
  deliver this inv = Ret (this', written) ->
  this' = this /\ written = None.
Proof.
  unfold deliver, CFrameSavingCallback.ProcessFrame, saveable. intros Hno.
  destruct (CSampleGrabberCB.ProcessFrame _ _); [discriminate|].
  destruct (inv_frameData inv); [rewrite Hno, andb_false_r|];
    intros [= <- <-]; auto.
Qed.

Lemma deliver_saveable (this this' : CFrameSavingCallback.t) (inv : invocation)
    (written : option bmp_file) :
  m_frameSaved this = false ->
  saveable inv = true ->
  deliver this inv = Ret (this', written) ->
  m_frameSaved this' = true.
Proof.
  unfold deliver, CFrameSavingCallback.ProcessFrame, saveable.
  intros Hfresh Hyes.
  destruct (CSampleGrabberCB.ProcessFrame _ _); [discriminate|].
  destruct (inv_frameData inv) as [data|]; [|discriminate].
  rewrite Hfresh, Hyes. cbn [negb andb].
  destruct (SaveFrameAsBMP _ _ _ _) as [|[saved w]]; [discriminate|].
  intros [= <- <-]. reflexivity.
Qed.

Lemma run_from_saved (invs : list invocation) :
  forall (position : nat) (this : CFrameSavingCallback.t),
    m_frameSaved this = true -> run_from position this invs = [].
Proof.
  induction invs as [|inv invs IH]; intros position this Hsaved;
    [reflexivity|].
  cbn [run_from].
  destruct (deliver this inv) as [|[this' written]] eqn:Hd; [reflexivity|].
  destruct (deliver_saved _ _ _ _ Hsaved Hd) as [-> ->].
  apply IH, Hsaved.
Qed.

(** Every file of a run is written by the first saveable invocation, on an
    object whose flag is still clear. *)
Lemma run_from_first_saveable (invs : list invocation) :
  forall (start : nat) (this : CFrameSavingCallback.t),
    (length (run_from start this invs) <= 1)%nat
    /\ forall (position : nat) (f : bmp_file),
         (position, f) ∈ run_from start this invs ->
         m_frameSaved this = false
         /\ exists (k : nat) (inv : invocation),
              position = (start + k)%nat
              /\ invs !! k = Some inv
              /\ saveable inv = true
              /\ forall (q : nat) (earlier : invocation),
                   (q < k)%nat -> invs !! q = Some earlier ->
                   saveable earlier = false.
Proof.
  induction invs as [|inv invs IH]; intros start this.
  { split; [cbn; lia|]. intros position f Hin. cbn in Hin.
    apply elem_of_nil in Hin. destruct Hin. }
  cbn [run_from].
  destruct (deliver this inv) as [|[this' written]] eqn:Hd.
  { split; [cbn; lia|]. intros position f Hin.
    apply elem_of_nil in Hin. destruct Hin. }
  destruct (m_frameSaved this) eqn:Hflag.
  { destruct (deliver_saved _ _ _ _ Hflag Hd) as [-> ->].
    rewrite run_from_saved by exact Hflag.
    split; [cbn; lia|]. intros position f Hin.
    apply elem_of_nil in Hin. destruct Hin. }
  destruct (saveable inv) eqn:Hsav.
  - pose proof (deliver_saveable _ _ _ _ Hflag Hsav Hd) as Hnow.
    rewrite run_from_saved by exact Hnow.
    destruct written as [f0|].
    + split; [cbn; lia|]. intros position f Hin.
      apply list_elem_of_singleton in Hin. injection Hin as -> ->.
      split; [reflexivity|]. exists 0%nat, inv.
      repeat split; [lia | exact Hsav |]. intros q earlier Hq. lia.
    + split; [cbn; lia|]. intros position f Hin.
      apply elem_of_nil in Hin. destruct Hin.
  - destruct (deliver_unsaveable _ _ _ _ Hsav Hd) as [-> ->].
    destruct (IH (S start) this) as [Hlen Hfirst].
    split; [exact Hlen|]. intros position f Hin.
    destruct (Hfirst position f Hin) as (_ & k & inv' & -> & Hk & Hs & Hbefore).
    split; [reflexivity|]. exists (S k), inv'.
    repeat split; [lia | exact Hk | exact Hs |].
    intros [|q] earlier Hq Hlook.
    + injection Hlook as <-. exact Hsav.
    + apply (Hbefore q earlier); [lia | exact Hlook].
Qed.

(** The invocations before the first saveable one leave the object as it
    is; that one runs SaveFrameAsBMP on it, and what SaveFrameAsBMP writes
    is all the run writes. *)
Lemma run_from_runs_save (pre : list invocation) :
  forall (start : nat) (this : CFrameSavingCallback.t) (inv : invocation)
         (post : list invocation) (data : list byte),
    m_frameSaved this = false ->
    Forall (fun i => saveable i = false) pre ->
    Forall (fun i => deliver this i <> Crash) pre ->
    inv_frameData inv = Some data ->
    0 < inv_frameSize inv ->
    run_from start this (pre ++ inv :: post)
    = match SaveFrameAsBMP (inv_create_ok inv) this data (inv_frameSize inv)
      with
      | Ret (_, Some f) => [((start + length pre)%nat, f)]
      | _ => []
      end.
Proof.
  induction pre as [|first pre IH];
    intros start this inv post data Hfresh Hpre Hreturn Hdata Hsize.
  - cbn [app run_from length]. unfold deliver.
    unfold CFrameSavingCallback.ProcessFrame. rewrite Hdata.
    destruct (CSampleGrabberCB.ProcessFrame (Some data) (inv_frameSize inv))
      as [|brightness] eqn:Hbase.
    { unfold CSampleGrabberCB.ProcessFrame, AnalyzeFrame in Hbase.
      destruct (0 <? inv_frameSize inv); discriminate. }
    rewrite Hfresh. cbn [negb andb].
    destruct (Z.ltb_spec 0 (inv_frameSize inv)) as [_|]; [|lia].
    destruct (SaveFrameAsBMP (inv_create_ok inv) this data (inv_frameSize inv))
      as [|[saved [f|]]]; [reflexivity| |].
    + rewrite run_from_saved by reflexivity. rewrite Nat.add_0_r. reflexivity.
    + apply run_from_saved. reflexivity.
  - apply Forall_cons in Hpre. destruct Hpre as [Hfirst Hpre].
    apply Forall_cons in Hreturn. destruct Hreturn as [Hreturns Hreturn].
    cbn [app run_from length].
    destruct (deliver this first) as [|[this' written]] eqn:Hd; [congruence|].
    destruct (deliver_unsaveable _ _ _ _ Hfirst Hd) as [-> ->].
    rewrite (IH (S start) this inv post data) by assumption.
    replace (S start + length pre)%nat with (start + S (length pre))%nat by lia.
    reflexivity.
Qed.

(** C4: on an object whose flag is clear, processing a non-null frame of
    positive size performs SaveFrameAsBMP and sets the flag; once the flag
    is set, processing a frame writes nothing and leaves the object as it
    is, so the flag is never cleared; over the whole life of an object at
    most one file is written, and it is written by the first invocation
    with a non-null buffer of positive size.  That invocation does trigger
    the save: when the invocations before it return, the object is still
    as it was, SaveFrameAsBMP runs on it with the frame of that
    invocation, and the files of the whole run are exactly what this one
    call writes: the BMP of that frame when the file can be created and
    the dimensions are known or can be estimated, nothing otherwise. *)
Theorem frame_saved_at_most_once :
  (forall (create_ok : bool) (this : CFrameSavingCallback.t)
          (data : list byte) (frameSize : Z),
      m_frameSaved this = false -> 0 < frameSize ->
      CFrameSavingCallback.ProcessFrame create_ok this (Some data) frameSize
      = match SaveFrameAsBMP create_ok this data frameSize with
        | Crash => Crash
        | Ret (this', written) => Ret (mark_saved this', written)
        end)
  /\ (forall (create_ok : bool) (this this' : CFrameSavingCallback.t)
             (frameData : option (list byte)) (frameSize : Z)
             (written : option bmp_file),
        CFrameSavingCallback.ProcessFrame create_ok this frameData frameSize
          = Ret (this', written) ->
        (m_frameSaved this = true -> this' = this /\ written = None)
        /\ (written <> None -> m_frameSaved this' = true))
  /\ (forall (this : CFrameSavingCallback.t) (invs : list invocation),
        (length (run this invs) <= 1)%nat)
  /\ (forall (this : CFrameSavingCallback.t) (invs : list invocation)
             (position : nat) (f : bmp_file),
        (position, f) ∈ run this invs ->
        m_frameSaved this = false
        /\ exists inv : invocation,
             invs !! position = Some inv
             /\ saveable inv = true
             /\ forall (q : nat) (earlier : invocation),
                  (q < position)%nat -> invs !! q = Some earlier ->
                  saveable earlier = false)
  /\ (forall (this : CFrameSavingCallback.t) (pre post : list invocation)
             (inv : invocation) (data : list byte),
        m_frameSaved this = false ->
        Forall (fun i => saveable i = false) pre ->
        Forall (fun i => deliver this i <> Crash) pre ->
        inv_frameData inv = Some data ->
        0 < inv_frameSize inv ->
        run this (pre ++ inv :: post)
        = match SaveFrameAsBMP (inv_create_ok inv) this data
                  (inv_frameSize inv) with
          | Ret (_, Some f) => [(length pre, f)]
          | _ => []
          end
        /\ forall width height : Z,
             inv_create_ok inv = true ->
             image_dimensions this (inv_frameSize inv) = Ret (width, height) ->
             run this (pre ++ inv :: post)
             = [(length pre,
                 {| file_name := "captured_frame.bmp";
                    file_header := file_header_of (inv_frameSize inv);
                    info_header :=
                      info_header_of width height (inv_frameSize inv);
                    pixel_data := bgr_to_rgb data (inv_frameSize inv) |})]).
Proof.
  split; [|split; [|split; [|split]]].
  - intros create_ok this data frameSize Hfresh Hpos.
    unfold CFrameSavingCallback.ProcessFrame.
    assert (Hbase : exists d,
      CSampleGrabberCB.ProcessFrame (Some data) frameSize = Ret d).
    { unfold CSampleGrabberCB.ProcessFrame, AnalyzeFrame.
      destruct (0 <? frameSize); eauto. }
    destruct Hbase as [d ->]. rewrite Hfresh.
    destruct (Z.ltb_spec 0 frameSize); [reflexivity | lia].
  - intros create_ok this this' frameData frameSize written Hrun. split.
    + intros Hsaved.
      apply (deliver_saved this this'
               {| inv_create_ok := create_ok; inv_frameData := frameData;
                  inv_frameSize := frameSize |} written Hsaved Hrun).
    + intros Hsome. destruct written as [f|]; [|congruence].
      destruct (ProcessFrame_written _ _ _ _ _ _ Hrun)
        as (data & saved & _ & _ & _ & _ & ->).
      reflexivity.
  - intros this invs. apply run_from_first_saveable.
  - intros this invs position f Hin.
    destruct (run_from_first_saveable invs 0 this) as [_ Hfirst].
    destruct (Hfirst position f Hin) as (Hfresh & k & inv & -> & Hk & Hs & Hb).
    split; [exact Hfresh|]. exists inv. auto.
  - intros this pre post inv data Hfresh Hpre Hreturn Hdata Hsize.
    pose proof (run_from_runs_save pre 0 this inv post data
                  Hfresh Hpre Hreturn Hdata Hsize) as Hrun.
    cbn [Nat.add] in Hrun. split; [exact Hrun|].
    intros width height Hcreate Hdims. unfold run. rewrite Hrun.
    unfold SaveFrameAsBMP. rewrite Hdims, Hcreate. reflexivity.
Qed.

Lemma frame_saved_at_most_once_witness :
  CFrameSavingCallback.ProcessFrame true CFrameSavingCallback.create
    (Some [x01; x02; x03]) 3
  = match SaveFrameAsBMP true CFrameSavingCallback.create [x01; x02; x03] 3 with
    | Crash => Crash
    | Ret (this', written) => Ret (mark_saved this', written)
    end
  /\ run CFrameSavingCallback.create
       [ {| inv_create_ok := true; inv_frameData := None;
            inv_frameSize := 0 |};
         {| inv_create_ok := true; inv_frameData := Some [x01; x02; x03];
            inv_frameSize := 3 |};
         {| inv_create_ok := true; inv_frameData := Some [x04; x05; x06];
            inv_frameSize := 3 |} ]
     = [(1%nat,
         {| file_name := "captured_frame.bmp";
            file_header := file_header_of 3;
            info_header := info_header_of 1 1 3;
            pixel_data := [x03; x02; x01] |})].
Proof.
  destruct frame_saved_at_most_once as (Hfirst & _ & _ & _ & Hsave).
  split; [apply Hfirst; [reflexivity | lia]|].
  destruct (Hsave CFrameSavingCallback.create
              [ {| inv_create_ok := true; inv_frameData := None;
                   inv_frameSize := 0 |} ]
              [ {| inv_create_ok := true; inv_frameData := Some [x04; x05; x06];
                   inv_frameSize := 3 |} ]
              {| inv_create_ok := true; inv_frameData := Some [x01; x02; x03];
                 inv_frameSize := 3 |}
              [x01; x02; x03]) as [_ Hfile].
  - reflexivity.
  - repeat constructor.
  - repeat constructor. discriminate.
  - reflexivity.
  - reflexivity.
  - exact (Hfile 1 1 eq_refl eq_refl).
Defined.

(** ** GetErrorDescription *)

Import DirectShowCamera.

Lemma hex_digit_value_digit (d : Z) :
  0 <= d < 16 -> hex_digit_value (hex_digit d) = d.
Proof.
  intros Hd.
  assert (H : d = 0 \/ d = 1 \/ d = 2 \/ d = 3 \/ d = 4 \/ d = 5 \/ d = 6
              \/ d = 7 \/ d = 8 \/ d = 9 \/ d = 10 \/ d = 11 \/ d = 12
              \/ d = 13 \/ d = 14 \/ d = 15) by lia.
  repeat (destruct H as [-> | H]; [reflexivity|]). subst d. reflexivity.
Qed.

(** Reading the digits back gives the number: the digits are its base-16
    numeral. *)
Lemma hex_digits_value (fuel : nat) :
  forall (n : Z) (s : string),
    0 <= n < 16 ^ Z.of_nat fuel ->
    hex_value_from 0 (hex_digits fuel n s) = hex_value_from n s.
Proof.
  induction fuel as [|fuel IH]; intros n s Hn.
  - cbn in Hn. replace n with 0 by lia. reflexivity.
  - cbn [hex_digits].
    assert (Hdigit : 0 <= n mod 16 < 16) by (apply Z.mod_pos_bound; lia).
    assert (Hsplit : n = n / 16 * 16 + n mod 16).
    { rewrite Z.mul_comm. apply Z.div_mod. lia. }
    destruct (Z.eqb_spec (n / 16) 0) as [Hzero | Hmore].
    + cbn [hex_value_from]. rewrite hex_digit_value_digit by exact Hdigit.
      f_equal. lia.
    + rewrite IH.
      * cbn [hex_value_from]. rewrite hex_digit_value_digit by exact Hdigit.
        f_equal. lia.
      * rewrite Nat2Z.inj_succ, Z.pow_succ_r in Hn by lia.
        split; [apply Z.div_pos; lia|].
        apply Z.div_lt_upper_bound; lia.
Qed.

Lemma to_hex_value (hr : Z) : hex_value (to_hex hr) = wrap_dword hr.
Proof.
  unfold hex_value, to_hex. rewrite hex_digits_value; [reflexivity|].
  pose proof (wrap_dword_range hr) as H. unfold DWORD_MODULUS in H.
  change (16 ^ Z.of_nat 8) with 4294967296. exact H.
Qed.

Lemma append_inv_head (s a b : string) :
  (s ++ a)%string = (s ++ b)%string -> a = b.
Proof.
  induction s as [|c s IH]; intros H; [exact H|].
  cbn in H. injection H as H. apply IH, H.
Qed.

(** C5: the string starts with the hexadecimal numeral of the 32 bits of
    [hr] and ends with the description that the value of [hr] selects:
    one of the five, and only one. *)
Theorem GetErrorDescription_spec (hr : Z) :
  hex_value (to_hex hr) = wrap_dword hr
  /\ (hr = VFW_E_NOT_FOUND ->
      GetErrorDescription hr
      = (("HRESULT: 0x" ++ to_hex hr) ++ " (No capture devices found)")%string)
  /\ (hr = E_NOINTERFACE ->
      GetErrorDescription hr
      = (("HRESULT: 0x" ++ to_hex hr) ++ " (Interface not supported)")%string)
  /\ (hr = E_INVALIDARG ->
      GetErrorDescription hr
      = (("HRESULT: 0x" ++ to_hex hr) ++ " (Invalid argument)")%string)
  /\ (hr = VFW_E_CANNOT_CONNECT ->
      GetErrorDescription hr
      = (("HRESULT: 0x" ++ to_hex hr) ++ " (Cannot connect filters)")%string)
  /\ (hr <> VFW_E_NOT_FOUND -> hr <> E_NOINTERFACE -> hr <> E_INVALIDARG ->
      hr <> VFW_E_CANNOT_CONNECT ->
      GetErrorDescription hr
      = (("HRESULT: 0x" ++ to_hex hr) ++ " (Unknown error)")%string)
  /\ (exists! d : string,
        d ∈ descriptions
        /\ GetErrorDescription hr
           = (("HRESULT: 0x" ++ to_hex hr) ++ String " " d)%string).
Proof.
  split; [apply to_hex_value|].
  split; [intros ->; reflexivity|].
  split; [intros ->; reflexivity|].
  split; [intros ->; reflexivity|].
  split; [intros ->; reflexivity|].
  assert (Hcases :
    exists d : string,
      d ∈ descriptions
      /\ GetErrorDescription hr
         = (("HRESULT: 0x" ++ to_hex hr) ++ String " " d)%string
      /\ (hr <> VFW_E_NOT_FOUND -> hr <> E_NOINTERFACE ->
          hr <> E_INVALIDARG -> hr <> VFW_E_CANNOT_CONNECT ->
          d = "(Unknown error)"%string)).
  { unfold GetErrorDescription, descriptions.
    destruct (Z.eqb_spec hr VFW_E_NOT_FOUND);
      [eexists; split; [|split; [reflexivity | congruence]];
       apply list_elem_of_In; cbn; tauto|].
    destruct (Z.eqb_spec hr E_NOINTERFACE);
      [eexists; split; [|split; [reflexivity | congruence]];
       apply list_elem_of_In; cbn; tauto|].
    destruct (Z.eqb_spec hr E_INVALIDARG);
      [eexists; split; [|split; [reflexivity | congruence]];
       apply list_elem_of_In; cbn; tauto|].
    destruct (Z.eqb_spec hr VFW_E_CANNOT_CONNECT);
      [eexists; split; [|split; [reflexivity | congruence]];
       apply list_elem_of_In; cbn; tauto|].
    eexists; split; [|split; [reflexivity | reflexivity]].
    apply list_elem_of_In; cbn; tauto. }
  destruct Hcases as (d & Hin & Heq & Hunknown). split.
  - intros H1 H2 H3 H4. rewrite Heq, (Hunknown H1 H2 H3 H4). reflexivity.
  - exists d. split; [split; assumption|].
    intros d' [_ Heq']. rewrite Heq in Heq'.
    apply append_inv_head in Heq'. injection Heq' as ->. reflexivity.
Qed.

Lemma GetErrorDescription_spec_witness :
  GetErrorDescription E_INVALIDARG
  = (("HRESULT: 0x" ++ to_hex E_INVALIDARG) ++ " (Invalid argument)")%string
  /\ to_hex E_INVALIDARG = "80070057"%string.
Proof.
  destruct (GetErrorDescription_spec E_INVALIDARG)
    as (_ & _ & _ & Hinvalid & _).
  split; [apply Hinvalid; reflexivity | reflexivity].
Defined.

(** ** Enumeratecameras *)

Lemma enumerate_loop_app (monikers : list Moniker) :
  forall (position : Z) (cameras : list CameraInfo),
    enumerate_loop monikers position cameras
    = cameras ++ enumerate_loop monikers position [].
Proof.
  induction monikers as [|m rest IH]; intros position cameras.
  - cbn. rewrite app_nil_r. reflexivity.
  - cbn [enumerate_loop].
    rewrite IH, (IH _ (if SUCCEEDED (BindToStorage_hr m) then _ else _)).
    destruct (SUCCEEDED (BindToStorage_hr m));
      [destruct (SUCCEEDED (Read_FriendlyName_hr m))|];
      rewrite ?app_nil_l, <- ?app_assoc; reflexivity.
Qed.

Lemma enumerate_loop_cons (m : Moniker) (rest : list Moniker) (position : Z) :
  enumerate_loop (m :: rest) position []
  = (if readable m then [camera_info_of m position] else [])
    ++ enumerate_loop rest (position + 1) [].
Proof.
  cbn [enumerate_loop]. rewrite enumerate_loop_app. unfold readable.
  destruct (SUCCEEDED (BindToStorage_hr m));
    [destruct (SUCCEEDED (Read_FriendlyName_hr m))|]; reflexivity.
Qed.

(** The loop stores the readable devices, each with its position. *)
Lemma enumerate_loop_elem (monikers : list Moniker) :
  forall (position : Z) (c : CameraInfo),
    c ∈ enumerate_loop monikers position [] <->
    exists (k : nat) (m : Moniker),
      monikers !! k = Some m /\ readable m = true
      /\ c = camera_info_of m (position + Z.of_nat k).
Proof.
  induction monikers as [|m rest IH]; intros position c.
  - cbn. split; [intros H; apply elem_of_nil in H; destruct H|].
    intros (k & m & Hk & _). rewrite lookup_nil in Hk. discriminate.
  - rewrite enumerate_loop_cons, elem_of_app, IH. split.
    + intros [Hhead | (k & m' & Hk & Hr & ->)].
      * destruct (readable m) eqn:Hr;
          [|apply elem_of_nil in Hhead; destruct Hhead].
        apply list_elem_of_singleton in Hhead. subst c.
        exists 0%nat, m. repeat split; auto. f_equal. lia.
      * exists (S k), m'. repeat split; auto. f_equal. lia.
    + intros ([|k] & m' & Hk & Hr & ->).
      * injection Hk as <-. left. rewrite Hr.
        apply list_elem_of_singleton. f_equal. lia.
      * right. exists k, m'. repeat split; auto. f_equal. lia.
Qed.

Lemma enumerate_loop_sorted (monikers : list Moniker) :
  forall position : Z,
    StronglySorted (fun a b => index a < index b)
      (enumerate_loop monikers position []).
Proof.
  induction monikers as [|m rest IH]; intros position; [constructor|].
  rewrite enumerate_loop_cons.
  destruct (readable m); cbn [app]; [|apply IH].
  constructor; [apply IH|].
  apply Forall_forall. intros c Hc.
  apply enumerate_loop_elem in Hc. destruct Hc as (k & m' & _ & _ & ->).
  cbn. lia.
Qed.

(** C9, as the code has it: the vector is cleared first; a failure to
    create the system device enumerator is returned unchanged, with the
    vector empty; S_OK is returned exactly when the vector is not empty,
    and VFW_E_NOT_FOUND comes with an empty vector and is the status of
    every other return with an empty vector; on S_OK the vector holds the
    readable devices, each with its position in the enumeration order as
    index, so the indices are strictly increasing. *)
Theorem Enumeratecameras_spec (world : DeviceEnumeration)
    (cameras : list CameraInfo) :
  Enumeratecameras world cameras = Enumeratecameras world []
  /\ (FAILED (CoCreateInstance_hr world) = true ->
      Enumeratecameras world cameras = Ret (CoCreateInstance_hr world, []))
  /\ (FAILED (CoCreateInstance_hr world) = true
      \/ CreateClassEnumerator_hr world = S_FALSE
      \/ pEnum world <> None ->
      exists result, Enumeratecameras world cameras = Ret result)
  /\ (forall (hr : Z) (out : list CameraInfo),
        Enumeratecameras world cameras = Ret (hr, out) ->
        (hr = S_OK <-> out <> [])
        /\ (hr = VFW_E_NOT_FOUND -> out = [])
        /\ (FAILED (CoCreateInstance_hr world) = false ->
            out = [] -> hr = VFW_E_NOT_FOUND)
        /\ (hr = S_OK ->
            StronglySorted (fun a b => index a < index b) out
            /\ exists monikers : list Moniker,
                 pEnum world = Some monikers
                 /\ forall c : CameraInfo,
                      c ∈ out <->
                      exists (k : nat) (m : Moniker),
                        monikers !! k = Some m /\ readable m = true
                        /\ c = camera_info_of m (Z.of_nat k))).
Proof.
  unfold Enumeratecameras.
  split; [reflexivity|].
  split; [intros ->; reflexivity|].
  split.
  { intros [-> | [Hfalse | Hsome]]; [eauto| |].
    - destruct (FAILED (CoCreateInstance_hr world)); [eauto|].
      rewrite Hfalse. cbn. eauto.
    - destruct (FAILED (CoCreateInstance_hr world)); [eauto|].
      destruct (CreateClassEnumerator_hr world =? S_FALSE); [eauto|].
      destruct (pEnum world); [eauto | congruence]. }
  intros hr out.
  destruct (FAILED (CoCreateInstance_hr world)) eqn:Hco.
  { intros [= <- <-].
    assert (Hne : CoCreateInstance_hr world <> S_OK).
    { intros Heq. rewrite Heq in Hco. discriminate. }
    split; [split; [intros Heq; contradiction | intros Hout; congruence]|].
    split; [reflexivity|].
    split; [discriminate|]. intros Heq. contradiction. }
  destruct (CreateClassEnumerator_hr world =? S_FALSE).
  { intros [= <- <-].
    split; [split; [discriminate | intros Hout; congruence]|].
    split; [reflexivity|].
    split; [reflexivity | discriminate]. }
  destruct (pEnum world) as [monikers|]; [|discriminate].
  intros [= <- <-].
  destruct (enumerate_loop monikers 0 []) as [|c0 rest] eqn:Hloop.
  - split; [split; [discriminate | intros Hout; congruence]|].
    split; [reflexivity|].
    split; [reflexivity | discriminate].
  - split; [split; [discriminate | reflexivity]|].
    split; [discriminate|].
    split; [discriminate|]. intros _. split.
    + rewrite <- Hloop. apply enumerate_loop_sorted.
    + exists monikers. split; [reflexivity|]. intros c.
      rewrite <- Hloop, enumerate_loop_elem. reflexivity.
Qed.

Lemma Enumeratecameras_spec_witness :
  Enumeratecameras
    {| CoCreateInstance_hr := S_OK; CreateClassEnumerator_hr := S_OK;
       pEnum := Some [ {| moniker_id := 0; BindToStorage_hr := E_FAIL;
                          Read_FriendlyName_hr := S_OK;
                          FriendlyName_value := "Broken" |};
                       {| moniker_id := 1; BindToStorage_hr := S_OK;
                          Read_FriendlyName_hr := S_OK;
                          FriendlyName_value := "USB Camera" |} ] |} []
  = Ret (S_OK,
         [ camera_info_of
             {| moniker_id := 1; BindToStorage_hr := S_OK;
                Read_FriendlyName_hr := S_OK;
                FriendlyName_value := "USB Camera" |} 1 ])
  /\ (S_OK = S_OK <->
      [ camera_info_of
          {| moniker_id := 1; BindToStorage_hr := S_OK;
             Read_FriendlyName_hr := S_OK;
             FriendlyName_value := "USB Camera" |} 1 ] <> []).
Proof.
  split; [reflexivity|].
  destruct (Enumeratecameras_spec
              {| CoCreateInstance_hr := S_OK; CreateClassEnumerator_hr := S_OK;
                 pEnum := Some [ {| moniker_id := 0; BindToStorage_hr := E_FAIL;
                                    Read_FriendlyName_hr := S_OK;
                                    FriendlyName_value := "Broken" |};
                                 {| moniker_id := 1; BindToStorage_hr := S_OK;
                                    Read_FriendlyName_hr := S_OK;
                                    FriendlyName_value := "USB Camera" |} ] |}
              []) as (_ & _ & _ & Hret).
  apply (Hret S_OK _ eq_refl).
Defined.

(** C9 as stated fails: when the creation of the system device enumerator
    fails with REGDB_E_CLASSNOTREG, the vector is empty and the status is
    not VFW_E_NOT_FOUND. *)
Lemma Enumeratecameras_empty_without_not_found :
  Enumeratecameras
    {| CoCreateInstance_hr := REGDB_E_CLASSNOTREG;
       CreateClassEnumerator_hr := S_OK; pEnum := None |} []
  = Ret (REGDB_E_CLASSNOTREG, [])
  /\ REGDB_E_CLASSNOTREG <> VFW_E_NOT_FOUND
  /\ ~ (forall (world : DeviceEnumeration) (cameras : list CameraInfo)
               (hr : Z) (out : list CameraInfo),
          Enumeratecameras world cameras = Ret (hr, out) ->
          (hr = VFW_E_NOT_FOUND <-> out = [])).
Proof.
  split; [reflexivity|]. split; [discriminate|].
  intros Hclaim.
  specialize (Hclaim
    {| CoCreateInstance_hr := REGDB_E_CLASSNOTREG;
       CreateClassEnumerator_hr := S_OK; pEnum := None |}
    [] REGDB_E_CLASSNOTREG [] eq_refl).
  destruct Hclaim as [_ Hback]. specialize (Hback eq_refl). discriminate.
Qed.


(** * Further properties *)

(** ** The frame loops read the frame only *)

Lemma for_step3_ext {A : Type} (body1 body2 : Z -> A -> A) (frameSize : Z) :
  (forall (i : Z) (acc : A), 0 <= i < frameSize -> body1 i acc = body2 i acc) ->
  forall (fuel : nat) (i : Z) (acc : A),
    0 <= i ->
    for_step3 fuel frameSize i body1 acc = for_step3 fuel frameSize i body2 acc.
Proof.
  intros Hbody. induction fuel as [|fuel IH]; intros i acc Hi; [reflexivity|].
  rewrite !for_step3_S. destruct (Z.ltb_spec i frameSize); [|reflexivity].
  rewrite Hbody by lia. apply IH. lia.
Qed.

Lemma at_index_take (frameData : list byte) (frameSize i : Z) :
  0 <= i < frameSize ->
  at_index (take (Z.to_nat frameSize) frameData) i = at_index frameData i.
Proof.
  intros Hi. unfold at_index. rewrite lookup_take_lt by lia. reflexivity.
Qed.

Lemma at_index_same_prefix (data1 data2 : list byte) (frameSize i : Z) :
  take (Z.to_nat frameSize) data1 = take (Z.to_nat frameSize) data2 ->
  0 <= i < frameSize ->
  at_index data1 i = at_index data2 i.
Proof.
  intros Hsame Hi.
  rewrite <- (at_index_take data1 frameSize i), <- (at_index_take data2 frameSize i)
    by exact Hi.
  rewrite Hsame. reflexivity.
Qed.

(** X1: the brightness of a frame depends on its first [frameSize] bytes
    only; what lies behind them in memory is never read. *)
Theorem CalculateAverageBrightness_reads_frame_only
    (data1 data2 : list byte) (frameSize : Z) :
  take (Z.to_nat frameSize) data1 = take (Z.to_nat frameSize) data2 ->
  CalculateAverageBrightness data1 frameSize
  = CalculateAverageBrightness data2 frameSize.
Proof.
  intros Hsame. unfold CalculateAverageBrightness, total_brightness.
  rewrite (for_step3_ext (brightness_step data1 frameSize)
             (brightness_step data2 frameSize)); [reflexivity | | lia].
  intros i acc Hi. unfold brightness_step.
  destruct (Z.ltb_spec (i + 2) frameSize); [|reflexivity].
  rewrite (at_index_same_prefix data1 data2 frameSize i),
    (at_index_same_prefix data1 data2 frameSize (i + 1)),
    (at_index_same_prefix data1 data2 frameSize (i + 2)) by (auto; lia).
  reflexivity.
Qed.

Lemma CalculateAverageBrightness_reads_frame_only_witness :
  CalculateAverageBrightness [x0a; x14; x1e; xff; xff] 3
  = CalculateAverageBrightness [x0a; x14; x1e] 3.
Proof.
  apply CalculateAverageBrightness_reads_frame_only. reflexivity.
Defined.

(** X2: the same for the conversion to RGB: the pixel data of the file
    depends on the first [frameSize] bytes of the buffer only. *)
Theorem bgr_to_rgb_reads_frame_only (data1 data2 : list byte) (frameSize : Z) :
  take (Z.to_nat frameSize) data1 = take (Z.to_nat frameSize) data2 ->
  bgr_to_rgb data1 frameSize = bgr_to_rgb data2 frameSize.
Proof.
  intros Hsame. unfold bgr_to_rgb.
  apply for_step3_ext; [|lia].
  intros i acc Hi. unfold bgr_step.
  destruct (Z.ltb_spec (i + 2) frameSize); [|reflexivity].
  rewrite (at_index_same_prefix data1 data2 frameSize i),
    (at_index_same_prefix data1 data2 frameSize (i + 1)),
    (at_index_same_prefix data1 data2 frameSize (i + 2)) by (auto; lia).
  reflexivity.
Qed.

Lemma bgr_to_rgb_reads_frame_only_witness :
  bgr_to_rgb [x0a; x14; x1e; xff; xff] 3 = bgr_to_rgb [x0a; x14; x1e] 3.
Proof. apply bgr_to_rgb_reads_frame_only. reflexivity. Defined.

(** ** The brightness of frames of any size *)

Lemma brightness_sum_complete_pixels (frameData : list byte) :
  brightness_sum
    (take (Z.to_nat (3 * (Z.of_nat (length frameData) / 3))) frameData)
  = brightness_sum frameData.
Proof.
  induction frameData as [| a | a b | a b c rest IH] using list_ind3;
    try reflexivity.
  cbn [length]. rewrite !Nat2Z.inj_succ.
  replace (Z.succ (Z.succ (Z.succ (Z.of_nat (length rest)))))
    with (Z.of_nat (length rest) + 1 * 3) by lia.
  rewrite Z.div_add by lia.
  assert (0 <= Z.of_nat (length rest) / 3) by (apply Z.div_pos; lia).
  replace (Z.to_nat (3 * (Z.of_nat (length rest) / 3 + 1)))
    with (S (S (S (Z.to_nat (3 * (Z.of_nat (length rest) / 3)))))) by lia.
  cbn [take]. rewrite !brightness_sum_cons, IH. reflexivity.
Qed.

Lemma brightness_sum_fits_pixels (frameData : list byte) :
  Z.of_nat (length frameData) <= 25264514 ->
  brightness_sum frameData <= LONG_MAX.
Proof.
  intros Hlen. pose proof (brightness_sum_range frameData) as Hr.
  rewrite length_pixels in Hr.
  assert (Z.of_nat (length frameData) / 3 < 8421505).
  { apply Z.div_lt_upper_bound; lia. }
  unfold LONG_MAX. lia.
Qed.

Lemma CalculateAverageBrightness_any_size (frameData : list byte) :
  3 <= Z.of_nat (length frameData) <= 25264514 ->
  CalculateAverageBrightness frameData (Z.of_nat (length frameData))
  = DFin (brightness_sum frameData
          # Z.to_pos (Z.of_nat (length frameData) / 3)).
Proof.
  intros Hlen. unfold CalculateAverageBrightness.
  destruct (Z.ltb_spec 0 (Z.of_nat (length frameData))); [|lia].
  rewrite Z.quot_div_nonneg by lia.
  pose proof (brightness_sum_range frameData) as Hr.
  pose proof (brightness_sum_fits_pixels frameData ltac:(lia)) as Hfit.
  rewrite total_brightness_spec, wrap_long_id
    by (unfold is_long, LONG_MIN, LONG_MAX in *; lia).
  apply ddiv_pos, Z.div_str_pos. lia.
Qed.

(** X3: for a frame of 3 bytes up to 8421504 pixels the function returns
    the brightness sum of the complete pixels divided by their number; one
    or two bytes after the last complete pixel enter neither the sum nor
    the count. *)
Theorem CalculateAverageBrightness_ignores_trailing_bytes (frameData : list byte) :
  3 <= Z.of_nat (length frameData) <= 25264514 ->
  CalculateAverageBrightness frameData (Z.of_nat (length frameData))
  = DFin (brightness_sum
            (take (Z.to_nat (3 * (Z.of_nat (length frameData) / 3))) frameData)
          # Z.to_pos (Z.of_nat (length frameData) / 3))
  /\ Z.of_nat (length (pixels frameData)) = Z.of_nat (length frameData) / 3.
Proof.
  intros Hlen. split; [|apply length_pixels].
  rewrite brightness_sum_complete_pixels.
  apply CalculateAverageBrightness_any_size, Hlen.
Qed.

Lemma CalculateAverageBrightness_ignores_trailing_bytes_witness :
  CalculateAverageBrightness [x0a; x14; x1e; x28; x32; x3c; xff; xff]
    (Z.of_nat (length [x0a; x14; x1e; x28; x32; x3c; xff; xff]))
  = DFin (brightness_sum [x0a; x14; x1e; x28; x32; x3c] # 2).
Proof.
  apply (CalculateAverageBrightness_ignores_trailing_bytes
           [x0a; x14; x1e; x28; x32; x3c; xff; xff]).
  cbn. lia.
Defined.

Lemma byte_total_cons (b0 b1 b2 : byte) (rest : list byte) :
  byte_total (b0 :: b1 :: b2 :: rest) = pixel_total (b0, b1, b2) + byte_total rest.
Proof. reflexivity. Qed.

Lemma brightness_sum_truncation (frameData : list byte) :
  3 * brightness_sum frameData <= byte_total frameData
  <= 3 * brightness_sum frameData + 2 * Z.of_nat (length (pixels frameData)).
Proof.
  induction frameData as [| a | a b | a b c rest IH] using list_ind3;
    try (cbn; lia).
  rewrite brightness_sum_cons, byte_total_cons. cbn [pixels length].
  unfold pixel_brightness, pixel_total.
  pose proof (Z.div_mod (byte_val a + byte_val b + byte_val c) 3 ltac:(lia)).
  pose proof (Z.mod_pos_bound (byte_val a + byte_val b + byte_val c) 3 ltac:(lia)).
  lia.
Qed.

(** X4: the value returned is the quotient S / k of an integer S by the
    number k of pixels, and 3 S lies at most 2 k below the sum of all
    bytes of the pixels: the per-pixel integer division makes the result
    at most 2/3 smaller than the exact mean of the bytes, never larger. *)
Theorem CalculateAverageBrightness_truncation (frameData : list byte) :
  3 <= Z.of_nat (length frameData) <= 25264514 ->
  exists S : Z,
    CalculateAverageBrightness frameData (Z.of_nat (length frameData))
    = DFin (S # Z.to_pos (Z.of_nat (length frameData) / 3))
    /\ 3 * S <= byte_total frameData
    /\ byte_total frameData <= 3 * S + 2 * (Z.of_nat (length frameData) / 3).
Proof.
  intros Hlen. exists (brightness_sum frameData).
  split; [apply CalculateAverageBrightness_any_size, Hlen|].
  pose proof (brightness_sum_truncation frameData) as H.
  rewrite length_pixels in H. exact H.
Qed.

Lemma CalculateAverageBrightness_truncation_witness :
  exists S : Z,
    CalculateAverageBrightness [x01; x01; x02; x00; x00; x02]
      (Z.of_nat (length [x01; x01; x02; x00; x00; x02]))
    = DFin (S # 2)
    /\ 3 * S <= byte_total [x01; x01; x02; x00; x00; x02]
    /\ byte_total [x01; x01; x02; x00; x00; x02] <= 3 * S + 2 * 2.
Proof.
  apply (CalculateAverageBrightness_truncation [x01; x01; x02; x00; x00; x02]).
  cbn. lia.
Defined.

(** X5: a frame whose bytes all have the value c has brightness c, for
    every c and up to 8421504 pixels: black gives 0, white gives 255. *)
Theorem CalculateAverageBrightness_uniform_frame (c : byte) (k : Z) :
  0 < k <= 8421504 ->
  CalculateAverageBrightness (replicate (Z.to_nat (3 * k)) c) (3 * k)
  = DFin (k * byte_val c # Z.to_pos k)
  /\ (k * byte_val c # Z.to_pos k == inject_Z (byte_val c))%Q.
Proof.
  intros Hk. split.
  - rewrite CalculateAverageBrightness_uniform by lia.
    assert (Hpix : pixel_brightness (c, c, c) = byte_val c).
    { unfold pixel_brightness.
      replace (byte_val c + byte_val c + byte_val c) with (byte_val c * 3) by lia.
      apply Z.div_mul. lia. }
    rewrite Hpix. pose proof (byte_val_range c).
    rewrite wrap_long_id by (unfold is_long, LONG_MIN, LONG_MAX; nia).
    apply ddiv_pos. lia.
  - unfold Qeq. cbn [Qnum Qden inject_Z]. rewrite Z2Pos.id by lia. lia.
Qed.

Lemma CalculateAverageBrightness_uniform_frame_witness :
  CalculateAverageBrightness (replicate (Z.to_nat (3 * 4)) xff) (3 * 4)
  = DFin (4 * byte_val xff # Z.to_pos 4).
Proof.
  apply (CalculateAverageBrightness_uniform_frame xff 4). lia.
Defined.

(** X6: for every frame of 3 bytes up to 8421504 pixels the result is
    finite and lies between 0 and 255. *)
Theorem CalculateAverageBrightness_in_range (frameData : list byte) :
  3 <= Z.of_nat (length frameData) <= 25264514 ->
  double_between 0 255
    (CalculateAverageBrightness frameData (Z.of_nat (length frameData))).
Proof.
  intros Hlen. apply CalculateAverageBrightness_bounds; [lia|].
  apply brightness_sum_fits_pixels. lia.
Qed.

Lemma CalculateAverageBrightness_in_range_witness :
  double_between 0 255
    (CalculateAverageBrightness [x00; x80; xff; x10]
       (Z.of_nat (length [x00; x80; xff; x10]))).
Proof.
  apply (CalculateAverageBrightness_in_range [x00; x80; xff; x10]).
  cbn. lia.
Defined.

Lemma brightness_sum_swap_red_blue (frameData : list byte) :
  brightness_sum (swap_red_blue frameData) = brightness_sum frameData.
Proof.
  induction frameData as [| a | a b | a b c rest IH] using list_ind3;
    try reflexivity.
  cbn [swap_red_blue]. rewrite !brightness_sum_cons, IH.
  unfold pixel_brightness. f_equal. f_equal. lia.
Qed.

(** X7: the conversion to RGB keeps the brightness: the pixel data written
    to the file has the same average brightness as the frame it was made
    from, for every frame. *)
Theorem bgr_to_rgb_keeps_brightness (frameData : list byte) :
  CalculateAverageBrightness
    (bgr_to_rgb frameData (Z.of_nat (length frameData)))
    (Z.of_nat (length frameData))
  = CalculateAverageBrightness frameData (Z.of_nat (length frameData)).
Proof.
  unfold CalculateAverageBrightness.
  rewrite bgr_to_rgb_spec.
  pose proof (total_brightness_spec (swap_red_blue frameData)) as Hswap.
  rewrite swap_red_blue_length in Hswap.
  rewrite Hswap, total_brightness_spec, brightness_sum_swap_red_blue.
  reflexivity.
Qed.

(** ** The FPS estimate over time *)

Lemma sub_dword_after_wrap (start elapsed : Z) :
  0 <= start < DWORD_MODULUS ->
  0 < elapsed < DWORD_MODULUS ->
  sub_dword (wrap_dword (start + elapsed)) start = elapsed.
Proof.
  intros Hstart Helapsed.
  unfold sub_dword, wrap_dword, DWORD_MODULUS in *.
  rewrite Zminus_mod_idemp_l.
  replace (start + elapsed - start) with elapsed by lia.
  apply Z.mod_small. lia.
Qed.

(** X8: GetTickCount wraps around every 2^32 milliseconds; the elapsed
    time is taken modulo 2^32, so a wrap between the start and the call
    does not disturb the estimate. *)
Theorem GetAverageFPS_tick_wrap (this : CSampleGrabberCB.t) (elapsed : Z) :
  0 <= m_startTime this < DWORD_MODULUS ->
  0 < elapsed < DWORD_MODULUS ->
  GetAverageFPS (wrap_dword (m_startTime this + elapsed)) this
  = DFin (m_frameCount this * 1000 # Z.to_pos elapsed).
Proof.
  intros Hstart Helapsed. unfold GetAverageFPS.
  rewrite sub_dword_after_wrap by assumption.
  destruct (Z.ltb_spec 0 elapsed); [|lia].
  apply ddiv_pos. lia.
Qed.

Lemma GetAverageFPS_tick_wrap_witness :
  GetAverageFPS (wrap_dword (4294967000 + 1296))
    {| m_refCount := 1; m_frameCount := 30; m_startTime := 4294967000;
       m_lastFrameTime := 0 |}
  = DFin (30 * 1000 # Z.to_pos 1296).
Proof.
  apply (GetAverageFPS_tick_wrap
           {| m_refCount := 1; m_frameCount := 30; m_startTime := 4294967000;
              m_lastFrameTime := 0 |} 1296);
    unfold DWORD_MODULUS; cbn; lia.
Defined.

Import SampleGrabberCallback.

Lemma deliver_all_state (frames : list delivery) :
  forall this this' : CSampleGrabberCB.t,
    deliver_all this frames = Ret this' ->
    LONG_MIN <= m_frameCount this ->
    m_frameCount this + Z.of_nat (length frames) <= LONG_MAX ->
    m_frameCount this' = m_frameCount this + Z.of_nat (length frames)
    /\ m_startTime this' = m_startTime this
    /\ m_refCount this' = m_refCount this
    /\ m_lastFrameTime this'
       = default (m_lastFrameTime this) (last (delivery_tick <$> frames)).
Proof.
  induction frames as [|d rest IH]; intros this this' Hrun Hlow Hhigh.
  - injection Hrun as <-. cbn. repeat split; lia.
  - cbn [deliver_all] in Hrun. unfold BufferCB in Hrun.
    destruct (CSampleGrabberCB.ProcessFrame (delivery_buffer d) (delivery_len d));
      [discriminate|].
    cbn [length] in Hhigh.
    apply IH in Hrun; cbn [m_frameCount m_startTime m_refCount m_lastFrameTime] in *.
    + destruct Hrun as (Hcount & Hstart & Href & Hlast).
      unfold add_long in Hcount.
      rewrite wrap_long_id in Hcount by (unfold is_long; lia).
      split; [rewrite Hcount; cbn [length]; lia|].
      split; [exact Hstart|]. split; [exact Href|].
      rewrite Hlast. cbn [fmap list_fmap]. rewrite last_cons.
      destruct (last (delivery_tick <$> rest)); reflexivity.
    + unfold add_long. rewrite wrap_long_id by (unfold is_long; lia). lia.
    + unfold add_long. rewrite wrap_long_id by (unfold is_long; lia). lia.
Qed.

(** X9: after ResetStatistics, every frame delivered through BufferCB is
    counted once and the start time is kept, so that the FPS estimate a
    time [elapsed] after the reset is the number of frames delivered since
    the reset times 1000 divided by [elapsed]; the last frame time is the
    tick of the last delivery. *)
Theorem fps_counts_frames_since_reset (tick0 elapsed : Z)
    (this this' : CSampleGrabberCB.t) (frames : list delivery) :
  0 <= tick0 < DWORD_MODULUS ->
  0 < elapsed < DWORD_MODULUS ->
  Z.of_nat (length frames) <= LONG_MAX ->
  deliver_all (ResetStatistics tick0 this) frames = Ret this' ->
  m_frameCount this' = Z.of_nat (length frames)
  /\ m_lastFrameTime this'
     = default (m_lastFrameTime this) (last (delivery_tick <$> frames))
  /\ GetAverageFPS (wrap_dword (tick0 + elapsed)) this'
     = DFin (Z.of_nat (length frames) * 1000 # Z.to_pos elapsed).
Proof.
  intros Htick Helapsed Hlen Hrun.
  apply deliver_all_state in Hrun;
    cbn [ResetStatistics m_frameCount m_startTime m_refCount m_lastFrameTime] in *;
    [|unfold LONG_MIN; lia | lia].
  destruct Hrun as (Hcount & Hstart & _ & Hlast).
  split; [lia|]. split; [exact Hlast|].
  unfold GetAverageFPS.
  rewrite Hstart, sub_dword_after_wrap, Hcount by assumption.
  destruct (Z.ltb_spec 0 elapsed); [|lia].
  rewrite ddiv_pos by lia. reflexivity.
Qed.

Lemma fps_counts_frames_since_reset_witness :
  exists this' : CSampleGrabberCB.t,
    deliver_all (ResetStatistics 1000 (CSampleGrabberCB.create 0))
      [ {| delivery_tick := 1033; delivery_buffer := Some [x0a; x14; x1e];
           delivery_len := 3 |};
        {| delivery_tick := 1066; delivery_buffer := Some [x28; x32; x3c];
           delivery_len := 3 |} ] = Ret this'
    /\ m_frameCount this' = 2
    /\ GetAverageFPS (wrap_dword (1000 + 100)) this' = DFin (2 * 1000 # 100).
Proof.
  eexists. split; [reflexivity|].
  destruct (fps_counts_frames_since_reset 1000 100 (CSampleGrabberCB.create 0) _
              [ {| delivery_tick := 1033; delivery_buffer := Some [x0a; x14; x1e];
                   delivery_len := 3 |};
                {| delivery_tick := 1066; delivery_buffer := Some [x28; x32; x3c];
                   delivery_len := 3 |} ]
              ltac:(unfold DWORD_MODULUS; lia) ltac:(unfold DWORD_MODULUS; lia)
              ltac:(unfold LONG_MAX; cbn; lia) eq_refl)
    as (Hcount & _ & Hfps).
  split; [exact Hcount | exact Hfps].
Defined.

(** ** Reference counting *)

Lemma set_refCount_same (this : CSampleGrabberCB.t) :
  set_refCount (m_refCount this) this = this.
Proof. destruct this. reflexivity. Qed.

Lemma set_refCount_twice (c1 c2 : Z) (this : CSampleGrabberCB.t) :
  set_refCount c2 (set_refCount c1 this) = set_refCount c2 this.
Proof. reflexivity. Qed.

Lemma run_refs_alive (ops : list ref_op) :
  forall this : CSampleGrabberCB.t,
    stays_referenced (m_refCount this) ops = true ->
    run_refs (Some this) ops
    = Ret (Some (set_refCount (m_refCount this + ref_total ops) this)).
Proof.
  induction ops as [|op rest IH]; intros this Hstays.
  - cbn. rewrite Z.add_0_r, set_refCount_same. reflexivity.
  - cbn [stays_referenced] in Hstays.
    apply andb_prop in Hstays. destruct Hstays as [Hrange Hrest].
    apply andb_prop in Hrange. destruct Hrange as [Hlow Hhigh].
    apply Z.leb_le in Hlow. apply Z.ltb_lt in Hhigh.
    assert (Hstep : forall this1 : CSampleGrabberCB.t,
      this1 = set_refCount (m_refCount this + ref_delta op) this ->
      run_refs (Some this1) rest
      = Ret (Some (set_refCount
                     (m_refCount this + ref_total (op :: rest)) this))).
    { intros this1 ->. rewrite IH by exact Hrest.
      rewrite set_refCount_twice.
      replace (m_refCount (set_refCount (m_refCount this + ref_delta op) this)
               + ref_total rest)
        with (m_refCount this + ref_total (op :: rest)); [reflexivity|].
      cbn [set_refCount m_refCount]. unfold ref_total.
      cbn [fmap list_fmap foldr]. lia. }
    cbn [run_refs].
    destruct op as [| |[| |guid]]; cbn [ref_delta] in *.
    + apply Hstep. unfold AddRef. cbn [snd]. f_equal. apply wrap_dword_id. lia.
    + unfold Release.
      rewrite (wrap_dword_id (m_refCount this - 1)) by lia.
      destruct (Z.eqb_spec (m_refCount this - 1) 0); [lia|]. cbn [snd].
      apply Hstep. f_equal.
    + apply Hstep. cbn [QueryInterface snd AddRef]. f_equal.
      apply wrap_dword_id. lia.
    + apply Hstep. cbn [QueryInterface snd AddRef]. f_equal.
      apply wrap_dword_id. lia.
    + apply Hstep. cbn [QueryInterface snd].
      rewrite Z.add_0_r, set_refCount_same. reflexivity.
Qed.

(** X10: as long as the reference count stays between 1 and 2^32 - 1, the
    object stays alive and its count is the initial count plus one for
    every AddRef and every successful QueryInterface, minus one for every
    Release; the Release that takes the count to zero deletes the object,
    and any call after it is a use after free. *)
Theorem reference_count_lifetime (this : CSampleGrabberCB.t)
    (ops : list ref_op) :
  stays_referenced (m_refCount this) ops = true ->
  run_refs (Some this) ops
  = Ret (Some (set_refCount (m_refCount this + ref_total ops) this))
  /\ (m_refCount this + ref_total ops = 1 ->
      run_refs (Some this) (ops ++ [DoRelease]) = Ret None
      /\ forall (op : ref_op) (later : list ref_op),
           run_refs (Some this) (ops ++ DoRelease :: op :: later) = Crash).
Proof.
  intros Hstays. split; [apply run_refs_alive, Hstays|].
  intros Hone.
  assert (Happ : forall (ops1 ops2 : list ref_op) (object : option CSampleGrabberCB.t),
    run_refs object (ops1 ++ ops2)
    = match run_refs object ops1 with
      | Crash => Crash
      | Ret object' => run_refs object' ops2
      end).
  { induction ops1 as [|op1 ops1 IH1]; intros ops2 object; [reflexivity|].
    cbn [app run_refs]. destruct object as [this0|]; [|reflexivity].
    destruct op1; apply IH1. }
  split; [|intros op later]; rewrite Happ, run_refs_alive by exact Hstays;
    cbn [run_refs]; unfold Release; cbn [set_refCount m_refCount];
    rewrite Hone; reflexivity.
Qed.

Lemma reference_count_lifetime_witness :
  run_refs (Some (CSampleGrabberCB.create 0))
    [DoAddRef; DoQueryInterface IID_ISampleGrabberCB; DoRelease; DoRelease;
     DoRelease] = Ret None.
Proof.
  destruct (reference_count_lifetime (CSampleGrabberCB.create 0)
              [DoAddRef; DoQueryInterface IID_ISampleGrabberCB; DoRelease;
               DoRelease] eq_refl) as [_ Hlast].
  apply Hlast. reflexivity.
Defined.

(** ** Saving without configured dimensions *)

Lemma estimated_width_spec (totalPixels : Z) :
  0 <= totalPixels ->
  0 <= estimated_width totalPixels
  /\ 100 * (estimated_width totalPixels * estimated_width totalPixels)
     <= 133 * totalPixels
  /\ 133 * totalPixels
     < 100 * ((estimated_width totalPixels + 1)
              * (estimated_width totalPixels + 1)).
Proof.
  intros Hpix. unfold estimated_width.
  assert (Hnn : 0 <= totalPixels * 133 / 100) by (apply Z.div_pos; lia).
  pose proof (Z.sqrt_spec _ Hnn) as Hsqrt.
  pose proof (Z.sqrt_nonneg (totalPixels * 133 / 100)).
  pose proof (Z.div_mod (totalPixels * 133) 100 ltac:(lia)).
  pose proof (Z.mod_pos_bound (totalPixels * 133) 100 ltac:(lia)).
  unfold Z.succ in Hsqrt. repeat split; nia.
Qed.

Lemma estimated_width_zero (totalPixels : Z) :
  0 <= totalPixels ->
  (estimated_width totalPixels = 0 <-> totalPixels = 0).
Proof.
  intros Hpix. destruct (estimated_width_spec totalPixels Hpix) as (H0 & Hlo & Hhi).
  split; [intros Hz; rewrite Hz in Hhi; lia | intros ->; reflexivity].
Qed.

(** X11: when the width or the height is not configured and the frame has
    at least one pixel, the estimate exists: the width is the integer
    square root of 1.33 times the pixel count, width and height are at
    least 1, width times height pixels fit into the frame, and less than
    one row of the frame is left over. *)
Theorem image_dimensions_estimate (this : CFrameSavingCallback.t) (frameSize : Z) :
  m_imageWidth this = 0 \/ m_imageHeight this = 0 ->
  3 <= frameSize ->
  exists width height : Z,
    image_dimensions this frameSize = Ret (width, height)
    /\ 1 <= width /\ 1 <= height
    /\ 100 * (width * width) <= 133 * (frameSize / 3)
    /\ 133 * (frameSize / 3) < 100 * ((width + 1) * (width + 1))
    /\ 3 * (width * height) <= frameSize
    /\ frameSize / 3 - width * height < width.
Proof.
  intros Hunset Hsize. unfold image_dimensions.
  assert (Hcond : (m_imageWidth this =? 0) || (m_imageHeight this =? 0) = true).
  { destruct Hunset as [-> | ->]; rewrite ?orb_true_r; reflexivity. }
  rewrite Hcond, Z.quot_div_nonneg by lia.
  assert (Hpix : 1 <= frameSize / 3).
  { apply Z.div_le_lower_bound; lia. }
  destruct (estimated_width_spec (frameSize / 3) ltac:(lia)) as (H0 & Hlo & Hhi).
  set (width := estimated_width (frameSize / 3)) in *.
  assert (Hw : 1 <= width) by nia.
  destruct (Z.eqb_spec width 0); [lia|].
  rewrite Z.quot_div_nonneg by lia.
  exists width, (frameSize / 3 / width).
  pose proof (Z.div_mod (frameSize / 3) width ltac:(lia)) as Hdm.
  pose proof (Z.mod_pos_bound (frameSize / 3) width ltac:(lia)) as Hmod.
  pose proof (Z.div_mod frameSize 3 ltac:(lia)) as Hdm3.
  pose proof (Z.mod_pos_bound frameSize 3 ltac:(lia)) as Hmod3.
  assert (Hle : width <= frameSize / 3) by nia.
  assert (Hh : 1 <= frameSize / 3 / width).
  { apply Z.div_le_lower_bound; lia. }
  repeat split; try assumption; nia.
Qed.

Lemma image_dimensions_estimate_witness :
  exists width height : Z,
    image_dimensions CFrameSavingCallback.create 921600 = Ret (width, height)
    /\ 1 <= width /\ 1 <= height
    /\ 3 * (width * height) <= 921600.
Proof.
  destruct (image_dimensions_estimate CFrameSavingCallback.create 921600
              ltac:(left; reflexivity) ltac:(lia))
    as (width & height & Heq & Hw & Hh & _ & _ & Hfit & _).
  exists width, height. auto.
Defined.

Lemma AnalyzeFrame_non_null (data : list byte) (frameSize : Z) :
  exists brightness,
    CSampleGrabberCB.ProcessFrame (Some data) frameSize = Ret brightness.
Proof.
  unfold CSampleGrabberCB.ProcessFrame, AnalyzeFrame.
  destruct (0 <? frameSize); eauto.
Qed.

(** X12: ProcessFrame of the frame saver, given a buffer that holds the
    [frameSize] bytes it is said to hold, with [frameSize] below LONG_MAX
    so that the byte index of the loops stays in the range of [long], ends
    the process in exactly one situation: no frame was saved yet, the
    width or the height is not configured, and the frame has one or two
    bytes; the estimated width is then 0 and the height is computed by
    dividing by it. *)
Theorem ProcessFrame_crash_iff (create_ok : bool)
    (this : CFrameSavingCallback.t) (data : list byte) (frameSize : Z) :
  frameSize <= Z.of_nat (length data) ->
  frameSize < LONG_MAX ->
  CFrameSavingCallback.ProcessFrame create_ok this (Some data) frameSize = Crash
  <-> m_frameSaved this = false
      /\ (m_imageWidth this = 0 \/ m_imageHeight this = 0)
      /\ (frameSize = 1 \/ frameSize = 2).
Proof.
  intros _ _.
  unfold CFrameSavingCallback.ProcessFrame.
  destruct (AnalyzeFrame_non_null data frameSize) as [brightness ->].
  destruct (m_frameSaved this) eqn:Hsaved; cbn [negb andb].
  { split; [discriminate | intros [? _]; discriminate]. }
  destruct (Z.ltb_spec 0 frameSize) as [Hpos | Hneg].
  2:{ split; [discriminate | intros (_ & _ & [-> | ->]); lia]. }
  unfold SaveFrameAsBMP, image_dimensions.
  destruct (Z.eqb_spec (m_imageWidth this) 0) as [Hw | Hw];
    destruct (Z.eqb_spec (m_imageHeight this) 0) as [Hh | Hh]; cbn [orb].
  4:{ destruct create_ok;
        (split; [discriminate | intros (_ & [? | ?] & _); contradiction]). }
  all: rewrite Z.quot_div_nonneg by lia;
    assert (Hpix : 0 <= frameSize / 3) by (apply Z.div_pos; lia);
    pose proof (estimated_width_zero (frameSize / 3) Hpix) as Hzero;
    pose proof (Z.div_mod frameSize 3 ltac:(lia)) as Hdm;
    pose proof (Z.mod_pos_bound frameSize 3 ltac:(lia)) as Hmod;
    destruct (Z.eqb_spec (estimated_width (frameSize / 3)) 0) as [Hest | Hest];
    [ split; [intros _; repeat split; auto; apply Hzero in Hest; lia
             | reflexivity]
    | destruct create_ok;
        (split; [discriminate
                | intros (_ & _ & Hsmall); exfalso; apply Hest, Hzero;
                  destruct Hsmall as [-> | ->]; reflexivity]) ].
Qed.

Lemma ProcessFrame_crash_iff_witness :
  2 <= Z.of_nat (length [x01; x02])
  /\ 2 < LONG_MAX
  /\ CFrameSavingCallback.ProcessFrame true CFrameSavingCallback.create
       (Some [x01; x02]) 2 = Crash.
Proof.
  split; [cbn; lia|]. split; [reflexivity|].
  apply (ProcessFrame_crash_iff true CFrameSavingCallback.create [x01; x02] 2);
    [cbn; lia | reflexivity |].
  split; [reflexivity|]. split; [left; reflexivity | right; reflexivity].
Defined.

Lemma deliver_written_created (this this' : CFrameSavingCallback.t)
    (inv : invocation) (f : bmp_file) :
  deliver this inv = Ret (this', Some f) -> inv_create_ok inv = true.
Proof.
  unfold deliver. intros Hrun.
  destruct (ProcessFrame_written _ _ _ _ _ _ Hrun)
    as (data & saved & _ & _ & _ & Hsave & _).
  destruct (SaveFrameAsBMP_inv _ _ _ _ _ _ Hsave) as (_ & _ & Hfile).
  destruct (inv_create_ok inv); [reflexivity | discriminate].
Qed.

Lemma run_from_failed_creation (pre : list invocation) :
  forall (start : nat) (this : CFrameSavingCallback.t)
         (inv : invocation) (post : list invocation),
    Forall (fun i => saveable i = false) pre ->
    saveable inv = true ->
    inv_create_ok inv = false ->
    run_from start this (pre ++ inv :: post) = [].
Proof.
  induction pre as [|first pre IH]; intros start this inv post Hpre Hsav Hfail.
  - cbn [app run_from].
    destruct (deliver this inv) as [|[this' written]] eqn:Hd; [reflexivity|].
    destruct written as [f|].
    { apply deliver_written_created in Hd. congruence. }
    destruct (m_frameSaved this) eqn:Hflag.
    + destruct (deliver_saved _ _ _ _ Hflag Hd) as [-> _].
      apply run_from_saved, Hflag.
    + apply run_from_saved. exact (deliver_saveable _ _ _ _ Hflag Hsav Hd).
  - apply Forall_cons in Hpre. destruct Hpre as [Hfirst Hpre].
    cbn [app run_from].
    destruct (deliver this first) as [|[this' written]] eqn:Hd; [reflexivity|].
    destruct (deliver_unsaveable _ _ _ _ Hfirst Hd) as [-> ->].
    apply IH; assumption.
Qed.

(** X13: a failed creation of the file is not retried: when CreateFileA
    fails at the first invocation with a non-null buffer of positive size,
    the object writes no file at all, whatever is delivered afterwards. *)
Theorem failed_creation_is_final (this : CFrameSavingCallback.t)
    (pre post : list invocation) (inv : invocation) :
  Forall (fun i => saveable i = false) pre ->
  saveable inv = true ->
  inv_create_ok inv = false ->
  run this (pre ++ inv :: post) = []
  /\ forall (position : nat) (f : bmp_file),
       (position, f) ∉ run this (pre ++ inv :: post).
Proof.
  intros Hpre Hsav Hfail.
  assert (Hnone : run this (pre ++ inv :: post) = []).
  { unfold run. apply run_from_failed_creation; assumption. }
  split; [exact Hnone|].
  intros position f Hin. rewrite Hnone in Hin.
  apply elem_of_nil in Hin. exact Hin.
Qed.

Lemma failed_creation_is_final_witness :
  run CFrameSavingCallback.create
    ([ {| inv_create_ok := true; inv_frameData := None; inv_frameSize := 0 |} ]
     ++ {| inv_create_ok := false; inv_frameData := Some [x01; x02; x03];
           inv_frameSize := 3 |}
     :: [ {| inv_create_ok := true; inv_frameData := Some [x04; x05; x06];
             inv_frameSize := 3 |} ]) = [].
Proof.
  apply failed_creation_is_final; [repeat constructor | reflexivity | reflexivity].
Defined.


(** ** The text of an error description *)

Lemma append_assoc_string (a b c : string) :
  ((a ++ b) ++ c)%string = (a ++ (b ++ c))%string.
Proof. induction a as [|x a IH]; [reflexivity|]. cbn. rewrite IH. reflexivity. Qed.

Lemma string_forall_append (P : ascii -> bool) (a b : string) :
  string_forall P (a ++ b) = string_forall P a && string_forall P b.
Proof.
  induction a as [|x a IH]; [reflexivity|].
  cbn. rewrite IH, andb_assoc. reflexivity.
Qed.

Lemma length_append_string (a b : string) :
  String.length (a ++ b) = (String.length a + String.length b)%nat.
Proof. induction a as [|x a IH]; [reflexivity|]. cbn. rewrite IH. reflexivity. Qed.

Lemma hex_digit_lower (d : Z) :
  0 <= d < 16 ->
  is_lower_hex (hex_digit d) = true
  /\ (hex_digit d = "0"%char -> d = 0).
Proof.
  intros Hd.
  assert (H : d = 0 \/ d = 1 \/ d = 2 \/ d = 3 \/ d = 4 \/ d = 5 \/ d = 6
              \/ d = 7 \/ d = 8 \/ d = 9 \/ d = 10 \/ d = 11 \/ d = 12
              \/ d = 13 \/ d = 14 \/ d = 15) by lia.
  repeat (destruct H as [-> | H];
          [split; [reflexivity | intros Hc; (reflexivity || discriminate Hc)]|]).
  subst d. split; [reflexivity | discriminate].
Qed.

(** The digits printed for [n]: at least one, at most [fuel], all of them
    hexadecimal digits, and the first one is not 0 unless [n] is 0. *)
Lemma hex_digits_shape (fuel : nat) :
  forall (n : Z) (acc : string),
    0 <= n < 16 ^ Z.of_nat (S fuel) ->
    exists (c : ascii) (rest : string),
      hex_digits (S fuel) n acc = (String c rest ++ acc)%string
      /\ string_forall is_lower_hex (String c rest) = true
      /\ (String.length (String c rest) <= S fuel)%nat
      /\ (c = "0"%char -> n = 0 /\ rest = EmptyString).
Proof.
  induction fuel as [|fuel IH]; intros n acc Hn.
  - assert (Hsmall : 0 <= n < 16) by (cbn in Hn; lia).
    assert (Hq : n / 16 = 0) by (apply Z.div_small; lia).
    assert (Hm : n mod 16 = n) by (apply Z.mod_small; lia).
    destruct (hex_digit_lower n Hsmall) as [Hlow Hzero].
    exists (hex_digit n), EmptyString.
    cbn [hex_digits]. rewrite Hq, Hm. cbn [Z.eqb].
    repeat split; auto.
    + cbn. rewrite Hlow. reflexivity.
  - assert (Hdigit : 0 <= n mod 16 < 16) by (apply Z.mod_pos_bound; lia).
    destruct (hex_digit_lower (n mod 16) Hdigit) as [Hlow Hzero].
    remember (S fuel) as fuel1 eqn:Hfuel1.
    cbn [hex_digits].
    destruct (Z.eqb_spec (n / 16) 0) as [Hq | Hq].
    + assert (Hm : n mod 16 = n).
      { pose proof (Z.div_mod n 16 ltac:(lia)). lia. }
      exists (hex_digit (n mod 16)), EmptyString.
      repeat split; auto.
      * cbn. rewrite Hlow. reflexivity.
      * cbn. lia.
      * rewrite <- Hm. auto.
    + subst fuel1.
      destruct (IH (n / 16) (String (hex_digit (n mod 16)) acc))
        as (c & rest & Heq & Hall & Hlen & Hfirst).
      { rewrite Nat2Z.inj_succ, Z.pow_succ_r in Hn by lia.
        split; [apply Z.div_pos; lia | apply Z.div_lt_upper_bound; lia]. }
      exists c, (rest ++ String (hex_digit (n mod 16)) EmptyString)%string.
      split.
      { rewrite Heq. cbn [append]. f_equal.
        rewrite append_assoc_string. reflexivity. }
      split.
      { cbn [string_forall] in *. rewrite string_forall_append.
        apply andb_prop in Hall. destruct Hall as [Hc Hrest].
        rewrite Hc, Hrest. cbn. rewrite Hlow. reflexivity. }
      split.
      { cbn [String.length] in *. rewrite length_append_string. cbn. lia. }
      intros Hc. destruct (Hfirst Hc) as [Hzq _]. contradiction.
Qed.

Lemma to_hex_digits (hr : Z) :
  exists (c : ascii) (rest : string),
    to_hex hr = String c rest
    /\ string_forall is_lower_hex (String c rest) = true
    /\ (String.length (String c rest) <= 8)%nat
    /\ (c = "0"%char -> wrap_dword hr = 0 /\ rest = EmptyString).
Proof.
  unfold to_hex.
  pose proof (wrap_dword_range hr) as Hr. unfold DWORD_MODULUS in Hr.
  destruct (hex_digits_shape 7 (wrap_dword hr) EmptyString)
    as (c & rest & Heq & Hshape).
  { change (16 ^ Z.of_nat 8) with 4294967296. exact Hr. }
  assert (Hnil : forall s : string, (s ++ "")%string = s).
  { induction s as [|x s IH]; [reflexivity|]. cbn. rewrite IH. reflexivity. }
  rewrite Hnil in Heq. exists c, rest. split; [exact Heq | exact Hshape].
Qed.

(** X14: the hexadecimal text of a status code has between one and eight
    characters, all of them digits 0-9 or a-f, has no leading zero unless
    it is the single digit 0, and reads back as the 32 bits of the code. *)
Theorem to_hex_shape (hr : Z) :
  (1 <= String.length (to_hex hr) <= 8)%nat
  /\ string_forall is_lower_hex (to_hex hr) = true
  /\ (forall rest : string,
        to_hex hr = String "0" rest -> rest = EmptyString /\ wrap_dword hr = 0)
  /\ hex_value (to_hex hr) = wrap_dword hr.
Proof.
  destruct (to_hex_digits hr) as (c & rest & Heq & Hall & Hlen & Hfirst).
  split; [rewrite Heq; cbn [String.length] in *; lia|].
  split; [rewrite Heq; exact Hall|].
  split; [|apply to_hex_value].
  intros rest' Hshape. rewrite Heq in Hshape. injection Hshape as Hc <-.
  destruct (Hfirst Hc) as [Hz Hrest]. auto.
Qed.

Lemma lower_hex_not_space (c : ascii) :
  is_lower_hex c = true -> Ascii.eqb c " " = false.
Proof.
  intros Hc. destruct (Ascii.eqb_spec c " ") as [-> | _]; [|reflexivity].
  discriminate Hc.
Qed.

Lemma until_space_digits (digits rest : string) :
  string_forall is_lower_hex digits = true ->
  until_space (digits ++ String " " rest) = digits.
Proof.
  induction digits as [|c digits IH]; intros Hall; [reflexivity|].
  cbn [string_forall] in Hall. apply andb_prop in Hall.
  destruct Hall as [Hc Hrest].
  cbn [append until_space]. rewrite (lower_hex_not_space c Hc), IH by exact Hrest.
  reflexivity.
Qed.

Lemma GetErrorDescription_shape (hr : Z) :
  exists d : string,
    GetErrorDescription hr
    = ("HRESULT: 0x" ++ (to_hex hr ++ String " " d))%string.
Proof.
  unfold GetErrorDescription.
  repeat match goal with
         | |- context [if ?b then _ else _] => destruct b
         end;
    eexists; rewrite append_assoc_string; reflexivity.
Qed.

Lemma wrap_dword_injective (a b : Z) :
  is_long a -> is_long b -> wrap_dword a = wrap_dword b -> a = b.
Proof.
  unfold is_long, LONG_MIN, LONG_MAX, wrap_dword, DWORD_MODULUS.
  intros Ha Hb Heq.
  pose proof (Z.div_mod a 4294967296 ltac:(lia)).
  pose proof (Z.div_mod b 4294967296 ltac:(lia)).
  pose proof (Z.mod_pos_bound a 4294967296 ltac:(lia)).
  lia.
Qed.

(** X15: different status codes have different descriptions: the text
    identifies the code, also among the codes described as unknown. *)
Theorem GetErrorDescription_injective (hr1 hr2 : Z) :
  is_long hr1 -> is_long hr2 ->
  hr1 <> hr2 ->
  GetErrorDescription hr1 <> GetErrorDescription hr2.
Proof.
  intros H1 H2 Hne Heq. apply Hne.
  apply wrap_dword_injective; [assumption | assumption |].
  destruct (GetErrorDescription_shape hr1) as [d1 Hd1].
  destruct (GetErrorDescription_shape hr2) as [d2 Hd2].
  rewrite Hd1, Hd2 in Heq. apply append_inv_head in Heq.
  apply (f_equal until_space) in Heq.
  destruct (to_hex_digits hr1) as (c1 & rest1 & Heq1 & Hall1 & _).
  destruct (to_hex_digits hr2) as (c2 & rest2 & Heq2 & Hall2 & _).
  rewrite <- Heq1 in Hall1. rewrite <- Heq2 in Hall2.
  rewrite !until_space_digits in Heq by assumption.
  rewrite <- (to_hex_value hr1), <- (to_hex_value hr2), Heq. reflexivity.
Qed.

Lemma GetErrorDescription_injective_witness :
  GetErrorDescription E_FAIL <> GetErrorDescription REGDB_E_CLASSNOTREG.
Proof.
  apply GetErrorDescription_injective; try discriminate;
    unfold is_long, LONG_MIN, LONG_MAX; split; discriminate.
Defined.

(** ** DirectShowCamera, call by call *)

Import Camera.

Lemma SUCCEEDED_not_FAILED (hr : Z) : SUCCEEDED hr = negb (FAILED hr).
Proof.
  unfold SUCCEEDED, FAILED.
  destruct (Z.leb_spec 0 hr), (Z.ltb_spec hr 0); try reflexivity; lia.
Qed.

Ltac unfold_calls :=
  unfold Initialize, CreateFilterGraph, CreateCaptureGraphBuilder,
    SetupSampleGrabber, SetupNullRenderer, ConnectFilters, StartCapture,
    StopCapture, PauseCapture, SetCustomCallback, Cleanup, ensure_callback,
    Camera.bind, Camera.ret, call, emit, get, modify, deref;
  cbn [camera log fst snd].

(** Naming the status of a call: the earliest call first, so that the
    logs of the later calls mention names only. *)
Ltac name_status :=
  match goal with
  | |- context [answers ?env ?l ?c] =>
      lazymatch l with
      | context [answers] => fail
      | _ =>
          let hr := fresh "hr" in
          set (hr := answers env l c) in *; clearbody hr
      end
  end.

Ltac case_status :=
  match goal with
  | |- context [FAILED ?hr] =>
      is_var hr;
      let H := fresh "Hstatus" in
      destruct (FAILED hr) eqn:H;
      rewrite ?SUCCEEDED_not_FAILED, ?H; cbn [negb camera log fst snd]
  end.

Ltac simpl_calls :=
  cbn beta iota delta [camera log fst snd negb andb orb].

Ltac run_calls :=
  unfold_calls; simpl_calls;
  repeat (name_status; simpl_calls; try case_status; simpl_calls).

Ltac follow_plan :=
  cbn [app];
  repeat (first [ apply plan_failed; assumption
                | apply plan_next; [assumption|]
                | apply plan_done ]).

(** X16: Initialize does nothing on an initialised camera.  Otherwise it
    makes its six COM calls in a fixed order and stops at the first one
    that fails; it then returns that call's status and leaves the camera
    uninitialised.  When all calls succeed it returns S_OK, whatever
    success codes the calls returned, the camera is initialised and the
    graph, the media control, the media event and the capture graph
    builder are set.  It never ends the process. *)
Theorem Initialize_spec (env : Env) (w : World) :
  exists (hr : Z) (w' : World) (added : list (Call * Z)),
    Initialize env w = Ret (hr, w')
    /\ log w' = log w ++ added
    /\ (m_isInitialized (camera w) = true ->
        hr = S_OK /\ w' = w /\ added = [])
    /\ (m_isInitialized (camera w) = false ->
        follows_plan Initialize_calls added
        /\ ((hr = S_OK
             /\ fst <$> added = Initialize_calls
             /\ m_isInitialized (camera w') = true
             /\ m_pGraph (camera w') = true
             /\ m_pMediaControl (camera w') = true
             /\ m_pMediaEvent (camera w') = true
             /\ m_pCaptureGraphBuilder (camera w') = true)
            \/ (FAILED hr = true
                /\ m_isInitialized (camera w') = false
                /\ exists c, last added = Some (c, hr)))).
Proof.
  unfold_calls.
  destruct (m_isInitialized (camera w)) eqn:Hinit.
  { exists S_OK, w, []. rewrite app_nil_r.
    repeat split; auto; discriminate. }
  run_calls;
    eexists; eexists; eexists;
    (split; [reflexivity|]);
    (split; [cbn [log]; rewrite <- ?app_assoc; reflexivity|]);
    (split; [discriminate|]);
    intros _;
    (split; [unfold Initialize_calls; follow_plan|]);
    first [ left; repeat split; reflexivity
          | right; cbn [camera m_isInitialized set_m_pGraph set_m_pMediaControl
                        set_m_pMediaEvent set_m_pCaptureGraphBuilder];
            split; [assumption|]; split; [exact Hinit|];
            eexists; reflexivity ].
Qed.

(** ** The capture controls *)

Lemma graph_after_app (first second : list (Call * Z)) :
  forall running : bool,
    graph_after running (first ++ second)
    = match graph_after running first with
      | Some running' => graph_after running' second
      | None => None
      end.
Proof.
  induction first as [|[c hr] first IH]; intros running; [reflexivity|].
  destruct c; cbn [app graph_after]; try apply IH;
    destruct running; try reflexivity; apply IH.
Qed.

Lemma set_m_isCapturing_same (c : Camera.t) :
  set_m_isCapturing (m_isCapturing c) c = c.
Proof. destruct c. reflexivity. Qed.

(** One control: what it adds to the log is in step with the graph, and
    it changes nothing of the camera but the capturing flag. *)
Lemma capture_step_spec (op : capture_op) (env : Env) (w : World) :
  exists (hr : Z) (w' : World) (added : list (Call * Z)),
    capture_step op env w = Ret (hr, w')
    /\ log w' = log w ++ added
    /\ graph_after (m_isCapturing (camera w)) added
       = Some (m_isCapturing (camera w'))
    /\ camera w' = set_m_isCapturing (m_isCapturing (camera w')) (camera w)
    /\ (m_pMediaControl (camera w) = false -> hr = E_FAIL /\ added = []).
Proof.
  destruct op; unfold capture_step;
    destruct (m_pMediaControl (camera w)) eqn:Hcontrol;
    destruct (m_isCapturing (camera w)) eqn:Hcapturing;
    destruct (m_pCallback (camera w)) eqn:Hcallback;
    unfold_calls; rewrite ?Hcontrol, ?Hcapturing, ?Hcallback; simpl_calls;
    repeat (name_status; simpl_calls);
    try match goal with
        | |- context [SUCCEEDED ?hr] => destruct (SUCCEEDED hr) eqn:Hok
        end;
    simpl_calls;
    eexists; eexists; eexists;
    (split; [reflexivity|]);
    (split; [cbn [log]; rewrite <- ?app_assoc;
             first [reflexivity | symmetry; apply app_nil_r]|]);
    cbn [camera m_isCapturing set_m_isCapturing app graph_after];
    rewrite ?Hok, ?Hcapturing; cbn [negb];
    (split; [reflexivity|]);
    (split; [first [ reflexivity
                   | rewrite <- Hcapturing; symmetry;
                     apply set_m_isCapturing_same ]|]);
    intros; first [discriminate | split; reflexivity].
Qed.

(** X17: over any sequence of StartCapture, StopCapture and PauseCapture
    the capturing flag follows the graph: Run is only called on a graph
    that the camera holds for stopped, Stop only on one that it holds for
    running, the flag is set by a successful Run and cleared by a
    successful Stop, and a failed call changes nothing.  The controls
    never end the process and touch no other field of the camera. *)
Theorem capture_flag_follows_graph (env : Env) (ops : list capture_op) :
  forall w : World,
    exists (w' : World) (added : list (Call * Z)),
      run_capture ops env w = Ret (tt, w')
      /\ log w' = log w ++ added
      /\ graph_after (m_isCapturing (camera w)) added
         = Some (m_isCapturing (camera w'))
      /\ camera w' = set_m_isCapturing (m_isCapturing (camera w')) (camera w).
Proof.
  induction ops as [|op rest IH]; intros w.
  - exists w, []. rewrite app_nil_r, set_m_isCapturing_same. auto.
  - destruct (capture_step_spec op env w)
      as (hr & w1 & added1 & Hstep & Hlog1 & Hgraph1 & Hcam1 & _).
    destruct (IH w1) as (w2 & added2 & Hrest & Hlog2 & Hgraph2 & Hcam2).
    exists w2, (added1 ++ added2).
    split; [cbn [run_capture]; unfold Camera.bind; rewrite Hstep; exact Hrest|].
    split; [rewrite Hlog2, Hlog1, app_assoc; reflexivity|].
    split; [rewrite graph_after_app, Hgraph1; exact Hgraph2|].
    rewrite Hcam2, Hcam1. reflexivity.
Qed.

(** ** Cleanup and the callback *)

Lemma CallbackPtr_eqb_eq (p q : CallbackPtr) :
  CallbackPtr_eqb p q = true <-> p = q.
Proof.
  destruct p as [m|m], q as [n|n]; cbn; rewrite ?Nat.eqb_eq;
    split; try discriminate; congruence.
Qed.

Lemma CallbackPtr_eqb_refl (p : CallbackPtr) : CallbackPtr_eqb p p = true.
Proof. apply CallbackPtr_eqb_eq. reflexivity. Qed.

Lemma references_held_app (p : CallbackPtr) (first second : list (Call * Z)) :
  references_held p (first ++ second)
  = references_held p first + references_held p second.
Proof.
  unfold references_held. induction first as [|e first IH]; [reflexivity|].
  cbn [app fmap list_fmap foldr] in *. rewrite IH. lia.
Qed.

(** What Cleanup does, from any state of the camera. *)
Lemma Cleanup_log (env : Env) (w : World) :
  exists (w' : World) (stopping : list (Call * Z)),
    Cleanup env w = Ret (tt, w')
    /\ camera w' = cleaned (camera w)
    /\ log w'
       = log w ++ stopping
         ++ match m_pCallback (camera w) with
            | Some p => [(CallbackRelease p, 0)]
            | None => []
            end
         ++ [(CoUninitialize, 0)]
    /\ (stopping = [] \/ exists hr, stopping = [(Stop, hr)])
    /\ (stopping <> [] <->
        m_isCapturing (camera w) = true /\ m_pMediaControl (camera w) = true).
Proof.
  destruct (m_pMediaControl (camera w)) eqn:Hcontrol;
    destruct (m_isCapturing (camera w)) eqn:Hcapturing;
    destruct (m_pCallback (camera w)) eqn:Hcallback;
    unfold Cleanup; unfold_calls;
    rewrite ?Hcontrol, ?Hcapturing, ?Hcallback; simpl_calls;
    rewrite ?Hcontrol, ?Hcapturing, ?Hcallback; simpl_calls;
    repeat (name_status; simpl_calls);
    try match goal with
        | |- context [SUCCEEDED ?hr] => destruct (SUCCEEDED hr) eqn:Hok
        end;
    simpl_calls;
    do 2 (cbn [m_pCallback m_currentCapabilities set_m_isCapturing
               set_m_pCallback camera];
          rewrite ?Hcallback; simpl_calls);
    eexists;
    lazymatch goal with
    | |- context [(Stop, ?hr)] => exists [(Stop, hr)]
    | |- _ => exists []
    end;
    (split; [reflexivity|]);
    (split; [reflexivity|]);
    (split; [cbn [log]; rewrite <- ?app_assoc; reflexivity|]);
    (split; [first [left; reflexivity | right; eexists; reflexivity]|]);
    split; intros H; first [ congruence | destruct H; congruence
                           | split; reflexivity | discriminate ].
Qed.

(** X18: Cleanup never ends the process and leaves the camera with every
    interface pointer and the callback pointer null and both flags
    cleared, whatever state it starts from.  It stops the graph only when
    the camera is capturing, gives up exactly the one reference on the
    installed callback, and calls CoUninitialize last, also on a camera
    that was never initialised.  After it every capture control answers
    E_FAIL without a call. *)
Theorem Cleanup_spec (env : Env) (w : World) :
  exists (w' : World) (added : list (Call * Z)),
    Cleanup env w = Ret (tt, w')
    /\ log w' = log w ++ added
    /\ camera w' = cleaned (camera w)
    /\ last added = Some (CoUninitialize, 0)
    /\ (forall p : CallbackPtr,
          references_held p added
          = match m_pCallback (camera w) with
            | Some q => if CallbackPtr_eqb p q then -1 else 0
            | None => 0
            end)
    /\ ((exists hr, (Stop, hr) ∈ added) <->
        m_isCapturing (camera w) = true /\ m_pMediaControl (camera w) = true)
    /\ (forall op : capture_op, capture_step op env w' = Ret (E_FAIL, w')).
Proof.
  destruct (Cleanup_log env w)
    as (w' & stopping & Hrun & Hcam & Hlog & Hshape & Hstop).
  exists w'.
  exists (stopping
          ++ match m_pCallback (camera w) with
             | Some p => [(CallbackRelease p, 0)]
             | None => []
             end ++ [(CoUninitialize, 0)]).
  split; [exact Hrun|]. split; [exact Hlog|]. split; [exact Hcam|].
  split; [rewrite !last_app; destruct (m_pCallback (camera w)); reflexivity|].
  split.
  { intros p. rewrite !references_held_app.
    destruct Hshape as [-> | [hr ->]];
      destruct (m_pCallback (camera w)) as [q|]; cbn;
      try destruct (CallbackPtr_eqb p q); reflexivity. }
  split.
  { rewrite <- Hstop. split.
    - intros [hr Hin] ->. cbn [app] in Hin.
      destruct (m_pCallback (camera w));
        repeat (apply elem_of_cons in Hin as [Hin|Hin]; [discriminate|]);
        inversion Hin.
    - intros Hne. destruct Hshape as [-> | [hr ->]]; [congruence|].
      exists hr. apply elem_of_app. left. apply list_elem_of_singleton.
      reflexivity. }
  intros op.
  destruct (capture_step_spec op env w')
    as (hr & w2 & added & Hstep & Hlog2 & Hgraph & Hcam2 & Hnull).
  destruct Hnull as [-> ->]; [rewrite Hcam; reflexivity|].
  rewrite Hstep. do 2 f_equal.
  cbn [graph_after] in Hgraph. injection Hgraph as Hflag.
  rewrite <- Hflag, set_m_isCapturing_same in Hcam2.
  rewrite app_nil_r in Hlog2.
  destruct w2, w'. cbn in *. congruence.
Qed.

Ltac eqb_cases :=
  repeat match goal with
         | |- context [CallbackPtr_eqb ?a ?b] =>
             let H := fresh "Heq" in destruct (CallbackPtr_eqb a b) eqn:H
         end;
  repeat match goal with
         | H : CallbackPtr_eqb ?a ?b = true |- _ =>
             apply CallbackPtr_eqb_eq in H; subst
         end;
  rewrite ?CallbackPtr_eqb_refl in *;
  try discriminate; try reflexivity; try lia.

(** What SetCustomCallback does, from any state of the camera. *)
Lemma SetCustomCallback_log (new : option CallbackPtr) (env : Env)
    (w : World) :
  exists (hr : Z) (w' : World) (setting : list (Call * Z)),
    SetCustomCallback new env w = Ret (hr, w')
    /\ camera w' = set_m_pCallback new (camera w)
    /\ log w'
       = log w
         ++ match m_pCallback (camera w), new with
            | Some old, Some p =>
                if CallbackPtr_eqb old p then []
                else [(CallbackRelease old, 0)]
            | Some old, None => [(CallbackRelease old, 0)]
            | None, _ => []
            end
         ++ match new with
            | Some p => [(CallbackAddRef p, 0)]
            | None => []
            end
         ++ setting
    /\ match new with
       | Some p =>
           if m_pSampleGrabber (camera w)
           then setting = [(SetCallback p 1, hr)]
           else setting = [] /\ hr = S_OK
       | None => setting = [] /\ hr = S_OK
       end.
Proof.
  unfold SetCustomCallback; unfold_calls.
  destruct (m_pCallback (camera w)) as [old|] eqn:Hold;
    destruct new as [p|];
    try destruct (CallbackPtr_eqb old p) eqn:Hsame;
    simpl_calls;
    cbn [m_pSampleGrabber set_m_pCallback camera];
    destruct (m_pSampleGrabber (camera w)) eqn:Hgrabber;
    simpl_calls;
    repeat (name_status; simpl_calls);
    eexists; eexists; eexists;
    (split; [reflexivity|]);
    (split; [reflexivity|]);
    (split; [cbn [log]; rewrite <- ?app_assoc; cbn [app];
             first [ reflexivity
                   | instantiate (1 := []); rewrite ?app_nil_r;
                     reflexivity ]|]);
    first [reflexivity | split; reflexivity].
Qed.

Lemma references_held_setting (p q : CallbackPtr) (hr : Z) :
  references_held p [(SetCallback q 1, hr)] = 0.
Proof. reflexivity. Qed.

(** The count after SetCustomCallback on a camera whose references are in
    balance. *)
Lemma SetCustomCallback_count (new : option CallbackPtr) (env : Env)
    (w : World) :
  references_balanced w ->
  exists (hr : Z) (w' : World),
    SetCustomCallback new env w = Ret (hr, w')
    /\ m_pCallback (camera w') = new
    /\ forall p : CallbackPtr,
         references_held p (log w')
         = match new with
           | Some q =>
               if CallbackPtr_eqb p q
               then match m_pCallback (camera w) with
                    | Some old => if CallbackPtr_eqb old q then 2 else 1
                    | None => 1
                    end
               else 0
           | None => 0
           end.
Proof.
  intros Hbalanced.
  destruct (SetCustomCallback_log new env w)
    as (hr & w' & setting & Hrun & Hcam & Hlog & Hsetting).
  exists hr, w'. split; [exact Hrun|].
  split; [rewrite Hcam; destruct (camera w); reflexivity|].
  intros p. rewrite Hlog, !references_held_app, (Hbalanced p).
  assert (Hnone : references_held p setting = 0).
  { destruct new as [q|]; [destruct (m_pSampleGrabber (camera w))|].
    - rewrite Hsetting. reflexivity.
    - destruct Hsetting as [-> _]. reflexivity.
    - destruct Hsetting as [-> _]. reflexivity. }
  rewrite Hnone.
  destruct (m_pCallback (camera w)) as [old|], new as [q|];
    try destruct (CallbackPtr_eqb old q) eqn:Hsame;
    cbn; eqb_cases.
Qed.

(** Unless the installed pointer is installed again, the balance is kept. *)
Lemma SetCustomCallback_balanced (new : option CallbackPtr) (env : Env)
    (w : World) :
  references_balanced w ->
  new = None \/ m_pCallback (camera w) <> new ->
  exists (hr : Z) (w' : World),
    SetCustomCallback new env w = Ret (hr, w')
    /\ m_pCallback (camera w') = new
    /\ references_balanced w'.
Proof.
  intros Hbalanced Hdiffers.
  destruct (SetCustomCallback_count new env w Hbalanced)
    as (hr & w' & Hrun & Hinstalled & Hcount).
  exists hr, w'. split; [exact Hrun|]. split; [exact Hinstalled|].
  intros p. rewrite Hcount, Hinstalled.
  destruct new as [q|]; [|reflexivity].
  destruct (CallbackPtr_eqb p q) eqn:Hpq; [|reflexivity].
  destruct (m_pCallback (camera w)) as [old|]; [|reflexivity].
  destruct (CallbackPtr_eqb old q) eqn:Hsame; [|reflexivity].
  apply CallbackPtr_eqb_eq in Hsame. subst old.
  destruct Hdiffers as [Hnone | Hne]; [discriminate | congruence].
Qed.

(** X19: SetCustomCallback on a camera that holds one reference on its
    installed callback and none on any other object.  It never ends the
    process and installs the pointer it is given.  Afterwards the camera
    holds one reference on the new callback and none on any other object,
    with one exception: when the pointer is the one already installed, the
    object is not released but its count is raised again, and the camera
    holds two references on it. *)
Theorem SetCustomCallback_references (new : option CallbackPtr) (env : Env)
    (w : World) :
  references_balanced w ->
  exists (hr : Z) (w' : World),
    SetCustomCallback new env w = Ret (hr, w')
    /\ m_pCallback (camera w') = new
    /\ (new = None \/ m_pCallback (camera w) <> new -> references_balanced w')
    /\ (forall p : CallbackPtr,
          new = Some p -> m_pCallback (camera w) = Some p ->
          references_held p (log w') = 2)
    /\ (m_pSampleGrabber (camera w) = false \/ new = None ->
        hr = S_OK).
Proof.
  intros Hbalanced.
  destruct (SetCustomCallback_count new env w Hbalanced)
    as (hr & w' & Hrun & Hinstalled & Hcount).
  exists hr, w'. split; [exact Hrun|]. split; [exact Hinstalled|].
  split.
  { intros Hdiffers p. rewrite Hcount, Hinstalled.
    destruct new as [q|]; [|reflexivity].
    destruct (CallbackPtr_eqb p q) eqn:Hpq; [|reflexivity].
    destruct (m_pCallback (camera w)) as [old|]; [|reflexivity].
    destruct (CallbackPtr_eqb old q) eqn:Hsame; [|reflexivity].
    apply CallbackPtr_eqb_eq in Hsame. subst old.
    destruct Hdiffers as [Hnone | Hne]; [discriminate | congruence]. }
  split.
  { intros p -> Hold. rewrite Hcount, Hold, !CallbackPtr_eqb_refl.
    reflexivity. }
  intros Hquiet.
  destruct (SetCustomCallback_log new env w)
    as (hr2 & w2 & setting & Hrun2 & _ & _ & Hsetting).
  rewrite Hrun in Hrun2. injection Hrun2 as -> ->.
  destruct new as [q|].
  - destruct Hquiet as [Hgrabber | Hnone]; [|discriminate].
    rewrite Hgrabber in Hsetting. apply Hsetting.
  - apply Hsetting.
Qed.

Lemma fresh_balanced : references_balanced fresh.
Proof. intros p. reflexivity. Qed.

Lemma SetCustomCallback_references_witness :
  references_balanced fresh
  /\ exists (hr : Z) (w' : World),
       SetCustomCallback (Some (UserCallback 1))
         (succeeding three_devices vga) fresh = Ret (hr, w')
       /\ m_pCallback (camera w') = Some (UserCallback 1)
       /\ (Some (UserCallback 1) = None
           \/ m_pCallback (camera fresh) <> Some (UserCallback 1) ->
           references_balanced w')
       /\ (forall p : CallbackPtr,
             Some (UserCallback 1) = Some p ->
             m_pCallback (camera fresh) = Some p ->
             references_held p (log w') = 2)
       /\ (m_pSampleGrabber (camera fresh) = false
           \/ Some (UserCallback 1) = None -> hr = S_OK).
Proof.
  split; [exact fresh_balanced|].
  exact (SetCustomCallback_references (Some (UserCallback 1))
           (succeeding three_devices vga) fresh fresh_balanced).
Defined.

Lemma install_all_balanced (env : Env) (pointers : list (option CallbackPtr)) :
  forall w : World,
    references_balanced w ->
    never_reinstalls (m_pCallback (camera w)) pointers = true ->
    exists w' : World,
      install_all pointers env w = Ret (tt, w')
      /\ references_balanced w'.
Proof.
  induction pointers as [|new rest IH]; intros w Hbalanced Hnever.
  - exists w. split; [reflexivity | exact Hbalanced].
  - cbn [never_reinstalls] in Hnever.
    apply andb_prop in Hnever as [Hnew Hrest].
    destruct (SetCustomCallback_balanced new env w Hbalanced)
      as (hr & w1 & Hrun & Hinstalled & Hbalanced1).
    { destruct new as [q|]; [right | left; reflexivity].
      destruct (m_pCallback (camera w)) as [old|]; [|discriminate].
      intros Hsame. injection Hsame as ->.
      rewrite CallbackPtr_eqb_refl in Hnew. discriminate. }
    destruct (IH w1 Hbalanced1) as (w2 & Hrun2 & Hbalanced2).
    { rewrite Hinstalled. exact Hrest. }
    exists w2. split; [|exact Hbalanced2].
    cbn [install_all]. unfold Camera.bind. rewrite Hrun. exact Hrun2.
Qed.

(** X20: a camera whose references are in balance is handed a sequence of
    callbacks through SetCustomCallback, never the one that is installed
    at that moment, and is then cleaned up.  The process does not end, and
    the camera holds no reference on any callback afterwards: each object
    was released as often as its count was raised. *)
Theorem callbacks_released_after_Cleanup (env : Env)
    (pointers : list (option CallbackPtr)) (w : World) :
  references_balanced w ->
  never_reinstalls (m_pCallback (camera w)) pointers = true ->
  exists w' : World,
    (_ <-- install_all pointers ;; Cleanup) env w = Ret (tt, w')
    /\ m_pCallback (camera w') = None
    /\ forall p : CallbackPtr, references_held p (log w') = 0.
Proof.
  intros Hbalanced Hnever.
  destruct (install_all_balanced env pointers w Hbalanced Hnever)
    as (w1 & Hrun1 & Hbalanced1).
  destruct (Cleanup_log env w1)
    as (w2 & stopping & Hrun2 & Hcam & Hlog & Hshape & _).
  exists w2. split; [unfold Camera.bind; rewrite Hrun1; exact Hrun2|].
  split; [rewrite Hcam; reflexivity|].
  intros p. rewrite Hlog, !references_held_app, (Hbalanced1 p).
  destruct Hshape as [-> | [hr ->]];
    destruct (m_pCallback (camera w1)) as [q|]; cbn;
    try destruct (CallbackPtr_eqb p q); reflexivity.
Qed.

Lemma callbacks_released_after_Cleanup_witness :
  references_balanced fresh
  /\ never_reinstalls (m_pCallback (camera fresh))
       [Some (UserCallback 1); Some (UserCallback 2); None;
        Some (UserCallback 1)] = true
  /\ exists w' : World,
       (_ <-- install_all [Some (UserCallback 1); Some (UserCallback 2);
                           None; Some (UserCallback 1)] ;; Cleanup)
         (succeeding three_devices vga) fresh = Ret (tt, w')
       /\ m_pCallback (camera w') = None
       /\ forall p : CallbackPtr, references_held p (log w') = 0.
Proof.
  split; [exact fresh_balanced|].
  split; [reflexivity|].
  exact (callbacks_released_after_Cleanup (succeeding three_devices vga)
           [Some (UserCallback 1); Some (UserCallback 2); None;
            Some (UserCallback 1)] fresh fresh_balanced eq_refl).
Defined.

(** ** The selection of the camera *)

Lemma enumerate_loop_position (monikers : list Moniker) :
  forall (position : Z) (k : nat) (c : CameraInfo),
    enumerate_loop monikers position [] !! k = Some c ->
    position + Z.of_nat k <= index c.
Proof.
  induction monikers as [|m rest IH]; intros position k c Hk.
  - cbn [enumerate_loop] in Hk. rewrite lookup_nil in Hk. discriminate.
  - rewrite enumerate_loop_cons in Hk.
    destruct (readable m); cbn [app] in Hk.
    + destruct k as [|k]; cbn in Hk.
      * injection Hk as <-. cbn. lia.
      * apply IH in Hk. lia.
    + apply IH in Hk. lia.
Qed.

Lemma enumerate_loop_all_readable (monikers : list Moniker) :
  forall (position : Z) (k : nat),
    Forall (fun m => readable m = true) monikers ->
    enumerate_loop monikers position [] !! k
    = (fun m => camera_info_of m (position + Z.of_nat k)) <$> monikers !! k.
Proof.
  induction monikers as [|m rest IH]; intros position k Hall.
  - cbn [enumerate_loop]. rewrite !lookup_nil. reflexivity.
  - rewrite enumerate_loop_cons.
    inversion Hall as [|? ? Hm Hrest]; subst. rewrite Hm. cbn [app].
    destruct k as [|k]; cbn.
    + do 2 f_equal. lia.
    + rewrite IH by exact Hrest.
      destruct (rest !! k); cbn; [do 2 f_equal; lia | reflexivity].
Qed.

Lemma enumerate_loop_length_all_readable (monikers : list Moniker) :
  forall position : Z,
    Forall (fun m => readable m = true) monikers ->
    length (enumerate_loop monikers position []) = length monikers.
Proof.
  induction monikers as [|m rest IH]; intros position Hall; [reflexivity|].
  inversion Hall as [|? ? Hm Hrest]; subst.
  rewrite enumerate_loop_cons, Hm. cbn. rewrite IH by exact Hrest.
  reflexivity.
Qed.

Lemma find_by_name_found (name : string) (cameras : list CameraInfo)
    (c : CameraInfo) :
  find_by_name name cameras = Some c ->
  c ∈ cameras /\ friendlyName c = name.
Proof.
  induction cameras as [|c0 rest IH]; [discriminate|].
  cbn [find_by_name].
  destruct (String.eqb (friendlyName c0) name) eqn:Hname.
  - intros [= <-]. apply String.eqb_eq in Hname.
    split; [apply elem_of_cons; left; reflexivity | exact Hname].
  - intros Hrest. destruct (IH Hrest) as [Hin Hc].
    split; [apply elem_of_cons; right; exact Hin | exact Hc].
Qed.

(** With every device readable the loop finds the first device of the
    name, at its own position. *)
Lemma find_by_name_first (name : string) (m : Moniker)
    (after : list Moniker) (before : list Moniker) :
  forall position : Z,
    Forall (fun x => readable x = true) (before ++ m :: after) ->
    Forall (fun x => FriendlyName_value x <> name) before ->
    FriendlyName_value m = name ->
    find_by_name name (enumerate_loop (before ++ m :: after) position [])
    = Some (camera_info_of m (position + Z.of_nat (length before))).
Proof.
  induction before as [|b before IH]; intros position Hall Hothers Hname.
  - cbn [app] in *. inversion Hall as [|? ? Hm _]; subst.
    rewrite enumerate_loop_cons, Hm. cbn.
    rewrite String.eqb_refl. do 2 f_equal. lia.
  - cbn [app] in *.
    inversion Hall as [|? ? Hb Hrest]; subst.
    inversion Hothers as [|? ? Hbname Hothers']; subst.
    rewrite enumerate_loop_cons, Hb. cbn [app find_by_name camera_info_of
                                          friendlyName].
    apply String.eqb_neq in Hbname. rewrite Hbname.
    rewrite IH by first [assumption | reflexivity].
    do 2 f_equal. cbn [length]. lia.
Qed.

Lemma find_by_name_none (name : string) (monikers : list Moniker) :
  forall position : Z,
    Forall (fun x => FriendlyName_value x <> name) monikers ->
    find_by_name name (enumerate_loop monikers position []) = None.
Proof.
  induction monikers as [|m rest IH]; intros position Hothers; [reflexivity|].
  inversion Hothers as [|? ? Hname Hrest]; subst.
  rewrite enumerate_loop_cons.
  destruct (readable m); cbn [app find_by_name camera_info_of friendlyName];
    [apply String.eqb_neq in Hname; rewrite Hname|]; apply IH; exact Hrest.
Qed.

(** SelectCamera after an enumeration with a known result. *)
Lemma SelectCamera_run (cameraIndex : Z) (env : Env) (w : World) (hr : Z)
    (cameras : list CameraInfo) :
  DirectShowCamera.Enumeratecameras (devices env (log w)) [] = Ret (hr, cameras) ->
  (FAILED hr = true ->
   SelectCamera cameraIndex env w = Ret (hr, enumerated env w))
  /\ (FAILED hr = false ->
      cameraIndex < 0 \/ Z.of_nat (length cameras) <= cameraIndex ->
      SelectCamera cameraIndex env w = Ret (E_INVALIDARG, enumerated env w))
  /\ (FAILED hr = false ->
      forall info : CameraInfo,
        0 <= cameraIndex ->
        cameras !! Z.to_nat cameraIndex = Some info ->
        binds_device (moniker info) (enumerated env w)
          (SelectCamera cameraIndex env w)).
Proof.
  intros Henum.
  unfold SelectCamera, Camera.Enumeratecameras, Camera.bind.
  rewrite Henum. cbn [fst snd]. fold (enumerated env w).
  split; [intros ->; reflexivity|].
  split.
  { intros -> Hout.
    replace ((cameraIndex <? 0) || (Z.of_nat (length cameras) <=? cameraIndex))
      with true; [reflexivity|].
    symmetry. apply orb_true_iff.
    destruct Hout; [left; apply Z.ltb_lt | right; apply Z.leb_le]; lia. }
  intros -> info Hnonneg Hinfo.
  assert (Hlt : (Z.to_nat cameraIndex < length cameras)%nat)
    by (apply lookup_lt_is_Some; eauto).
  replace ((cameraIndex <? 0) || (Z.of_nat (length cameras) <=? cameraIndex))
    with false.
  2:{ symmetry. apply orb_false_iff.
      split; [apply Z.ltb_ge | apply Z.leb_gt]; lia. }
  rewrite Hinfo. unfold_calls.
  set (hb := answers env (log (enumerated env w)) (BindToObject (moniker info))).
  exists hb. destruct (FAILED hb) eqn:Hfailed.
  - right. rewrite (SUCCEEDED_not_FAILED hb), Hfailed. cbn [negb].
    eexists; eexists; exists [].
    split; [reflexivity|]. split; [reflexivity|]. split; [reflexivity|].
    split; [auto | discriminate].
  - rewrite (SUCCEEDED_not_FAILED hb), Hfailed.
    cbn [negb camera m_pGraph set_m_pCameraFilter].
    destruct (m_pGraph (camera (enumerated env w))) eqn:Hgraph.
    + right. eexists; eexists; eexists.
      split; [reflexivity|].
      split; [cbn [log]; rewrite <- app_assoc; reflexivity|].
      split; [reflexivity|]. split; [discriminate | auto].
    + left. auto.
Qed.

Lemma Enumeratecameras_succeeded (world : DeviceEnumeration) (hr : Z)
    (cameras : list CameraInfo) :
  DirectShowCamera.Enumeratecameras world [] = Ret (hr, cameras) ->
  FAILED hr = false ->
  exists monikers : list Moniker,
    pEnum world = Some monikers
    /\ cameras = enumerate_loop monikers 0 []
    /\ cameras <> [].
Proof.
  unfold DirectShowCamera.Enumeratecameras.
  destruct (FAILED (CoCreateInstance_hr world)) eqn:Hcreate.
  { intros [= <- <-] Hok. congruence. }
  destruct (CreateClassEnumerator_hr world =? S_FALSE).
  { intros [= <- <-] Hok. discriminate. }
  destruct (pEnum world) as [monikers|]; [|discriminate].
  intros [= <- <-] Hok. exists monikers.
  split; [reflexivity|]. split; [reflexivity|].
  destruct (enumerate_loop monikers 0 []); [discriminate | discriminate].
Qed.

(** X21: SelectCamera enumerates the devices first.  A failed enumeration
    is returned as it is, before the index is looked at.  Otherwise an
    index below zero or not below the number of enumerated cameras gives
    E_INVALIDARG and leaves the camera as it was.  An index in range
    selects the entry at that position of the vector: a device with a
    readable name whose position in the enumeration is not below the
    index; SelectCamera binds this device and adds its filter to the
    graph, which ends the process when the camera has no graph. *)
Theorem SelectCamera_spec (cameraIndex : Z) (env : Env) (w : World) (hr : Z)
    (cameras : list CameraInfo) :
  DirectShowCamera.Enumeratecameras (devices env (log w)) [] = Ret (hr, cameras) ->
  (FAILED hr = true ->
   SelectCamera cameraIndex env w = Ret (hr, enumerated env w))
  /\ (FAILED hr = false ->
      cameraIndex < 0 \/ Z.of_nat (length cameras) <= cameraIndex ->
      SelectCamera cameraIndex env w = Ret (E_INVALIDARG, enumerated env w))
  /\ (FAILED hr = false ->
      0 <= cameraIndex < Z.of_nat (length cameras) ->
      exists info : CameraInfo,
        cameras !! Z.to_nat cameraIndex = Some info
        /\ cameraIndex <= index info
        /\ readable (moniker info) = true
        /\ binds_device (moniker info) (enumerated env w)
             (SelectCamera cameraIndex env w)).
Proof.
  intros Henum.
  destruct (SelectCamera_run cameraIndex env w hr cameras Henum)
    as (Hfailed & Hrange & Hbinds).
  split; [exact Hfailed|]. split; [exact Hrange|].
  intros Hok [Hlow Hhigh].
  destruct (lookup_lt_is_Some_2 cameras (Z.to_nat cameraIndex)) as [info Hinfo];
    [lia|].
  exists info. split; [exact Hinfo|].
  destruct (Enumeratecameras_succeeded _ _ _ Henum Hok)
    as (monikers & _ & -> & _).
  split.
  { apply enumerate_loop_position in Hinfo. lia. }
  split.
  { apply list_elem_of_lookup_2 in Hinfo.
    apply enumerate_loop_elem in Hinfo as (k & m & _ & Hreadable & ->).
    exact Hreadable. }
  apply Hbinds; [exact Hok | exact Hlow | exact Hinfo].
Qed.

Lemma SelectCamera_spec_witness :
  DirectShowCamera.Enumeratecameras
    (devices (succeeding three_devices vga) (log ready)) []
  = Ret (S_OK, [camera_info_of usb_camera 1;
                camera_info_of integrated_camera 2])
  /\ exists info : CameraInfo,
       info = camera_info_of usb_camera 1
       /\ binds_device (moniker info)
            (enumerated (succeeding three_devices vga) ready)
            (SelectCamera 0 (succeeding three_devices vga) ready).
Proof.
  split; [reflexivity|].
  destruct (SelectCamera_spec 0 (succeeding three_devices vga) ready S_OK
              [camera_info_of usb_camera 1;
               camera_info_of integrated_camera 2]
              eq_refl) as (_ & _ & Hin).
  destruct (Hin eq_refl) as (info & Hinfo & _ & _ & Hbinds);
    [cbn; lia|].
  exists info. split; [|exact Hbinds].
  cbn in Hinfo. injection Hinfo as <-. reflexivity.
Defined.

(** SelectCameraByName after an enumeration with a known result. *)
Lemma SelectCameraByName_run (name : string) (env : Env) (w : World)
    (hr : Z) (cameras : list CameraInfo) :
  DirectShowCamera.Enumeratecameras (devices env (log w)) [] = Ret (hr, cameras) ->
  SelectCameraByName name env w
  = if FAILED hr then Ret (hr, enumerated env w)
    else match find_by_name name cameras with
         | Some c => SelectCamera (index c) env (enumerated env w)
         | None => Ret (VFW_E_NOT_FOUND, enumerated env w)
         end.
Proof.
  intros Henum.
  unfold SelectCameraByName, Camera.Enumeratecameras, Camera.bind at 1.
  rewrite Henum. cbn [fst snd]. fold (enumerated env w).
  destruct (FAILED hr); [reflexivity|].
  destruct (find_by_name name cameras); reflexivity.
Qed.

Lemma enumerate_loop_increasing (cameras : list CameraInfo) :
  StronglySorted (fun a b => index a < index b) cameras ->
  forall (j k : nat) (a b : CameraInfo),
    cameras !! j = Some a -> cameras !! k = Some b -> (j < k)%nat ->
    index a < index b.
Proof.
  induction 1 as [|c rest Hsorted IH Hall]; intros j k a b Hj Hk Hlt.
  - rewrite lookup_nil in Hj. discriminate.
  - destruct k as [|k]; [lia|]. cbn in Hk.
    destruct j as [|j]; cbn in Hj.
    + injection Hj as <-. rewrite Forall_forall in Hall. apply Hall.
      eapply list_elem_of_lookup_2. exact Hk.
    + apply (IH j k); [exact Hj | exact Hk | lia].
Qed.

(** X22: SelectCameraByName where every device of the category has a
    readable name and the second enumeration, the one of SelectCamera,
    sees the same devices as the first.  When no device has the name the
    result is VFW_E_NOT_FOUND and no device is bound.  Otherwise the first
    device of that name in the enumeration order is the one that is bound
    and added to the graph. *)
Theorem SelectCameraByName_spec (name : string) (env : Env) (w : World)
    (monikers : list Moniker) :
  devices env (log (enumerated env w)) = devices env (log w) ->
  FAILED (CoCreateInstance_hr (devices env (log w))) = false ->
  CreateClassEnumerator_hr (devices env (log w)) <> S_FALSE ->
  pEnum (devices env (log w)) = Some monikers ->
  Forall (fun m => readable m = true) monikers ->
  (Forall (fun m => FriendlyName_value m <> name) monikers ->
   SelectCameraByName name env w = Ret (VFW_E_NOT_FOUND, enumerated env w))
  /\ (forall (before : list Moniker) (m : Moniker) (after : list Moniker),
        monikers = before ++ m :: after ->
        Forall (fun x => FriendlyName_value x <> name) before ->
        FriendlyName_value m = name ->
        binds_device m (enumerated env (enumerated env w))
          (SelectCameraByName name env w)).
Proof.
  intros Hsame Hcreate Hclass Hpenum Hall.
  assert (Henum : DirectShowCamera.Enumeratecameras (devices env (log w)) []
                  = Ret (match enumerate_loop monikers 0 [] with
                         | [] => VFW_E_NOT_FOUND
                         | _ => S_OK
                         end, enumerate_loop monikers 0 [])).
  { unfold DirectShowCamera.Enumeratecameras. rewrite Hcreate, Hpenum.
    apply Z.eqb_neq in Hclass. rewrite Hclass. reflexivity. }
  rewrite (SelectCameraByName_run name env w _ _ Henum).
  split.
  - intros Hothers. rewrite find_by_name_none by exact Hothers.
    destruct (enumerate_loop monikers 0 []); reflexivity.
  - intros before m after -> Hothers Hname.
    rewrite (find_by_name_first name m after before 0 Hall Hothers Hname)
      in *.
    assert (Hlookup : enumerate_loop (before ++ m :: after) 0 []
                      !! length before
                      = Some (camera_info_of m (0 + Z.of_nat (length before)))).
    { rewrite enumerate_loop_all_readable by exact Hall.
      rewrite lookup_app_r, Nat.sub_diag by lia. reflexivity. }
    destruct (enumerate_loop (before ++ m :: after) 0 []) as [|c0 rest] eqn:Hloop;
      [rewrite lookup_nil in Hlookup; discriminate|].
    cbn [FAILED S_OK Z.ltb Z.compare camera_info_of index].
    destruct (SelectCamera_run (0 + Z.of_nat (length before)) env
                (enumerated env w) S_OK (c0 :: rest))
      as (_ & _ & Hbinds).
    { rewrite Hsame. exact Henum. }
    apply (Hbinds eq_refl (camera_info_of m (0 + Z.of_nat (length before))));
      [lia|].
    rewrite Z.add_0_l, Nat2Z.id. exact Hlookup.
Qed.

Lemma SelectCameraByName_spec_witness :
  binds_device integrated_camera
    (enumerated (succeeding two_devices vga)
       (enumerated (succeeding two_devices vga) ready))
    (SelectCameraByName "Integrated Camera" (succeeding two_devices vga)
       ready).
Proof.
  refine (proj2 (SelectCameraByName_spec "Integrated Camera"
                   (succeeding two_devices vga) ready
                   [usb_camera; integrated_camera]
                   eq_refl eq_refl _ eq_refl _)
            [usb_camera] integrated_camera [] eq_refl _ eq_refl).
  - discriminate.
  - repeat constructor.
  - constructor; [discriminate | constructor].
Defined.

(** X23: SelectCameraByName hands the enumeration index of the camera it
    found to SelectCamera, which takes it for a position in its own
    vector.  With the same cameras enumerated both times: when the index
    is not below the number of cameras the result is E_INVALIDARG although
    a camera of that name was found; otherwise the camera that is bound is
    the one at that position, whose enumeration index is not below that of
    the camera found.  The camera found is itself at an earlier position,
    and is not the one bound, whenever a device before it was left out of
    the vector. *)
Theorem SelectCameraByName_index_as_position (name : string) (env : Env)
    (w : World) (hr : Z) (cameras : list CameraInfo) (c : CameraInfo) :
  DirectShowCamera.Enumeratecameras (devices env (log w)) []
  = Ret (hr, cameras) ->
  DirectShowCamera.Enumeratecameras (devices env (log (enumerated env w))) []
  = Ret (hr, cameras) ->
  FAILED hr = false ->
  find_by_name name cameras = Some c ->
  friendlyName c = name
  /\ match cameras !! Z.to_nat (index c) with
     | None =>
         SelectCameraByName name env w
         = Ret (E_INVALIDARG, enumerated env (enumerated env w))
     | Some c' =>
         index c <= index c'
         /\ binds_device (moniker c') (enumerated env (enumerated env w))
              (SelectCameraByName name env w)
     end
  /\ (forall k : nat,
        cameras !! k = Some c -> Z.of_nat k < index c ->
        cameras !! Z.to_nat (index c) <> Some c).
Proof.
  intros Henum1 Henum2 Hok Hfound.
  destruct (find_by_name_found name cameras c Hfound) as [Hin Hname].
  split; [exact Hname|].
  destruct (Enumeratecameras_succeeded _ _ _ Henum1 Hok)
    as (monikers & _ & Hloop & _).
  assert (Hnonneg : 0 <= index c).
  { apply list_elem_of_lookup_1 in Hin as [k Hk]. rewrite Hloop in Hk.
    apply enumerate_loop_position in Hk. lia. }
  rewrite (SelectCameraByName_run name env w hr cameras Henum1), Hok, Hfound.
  destruct (SelectCamera_run (index c) env (enumerated env w) hr cameras Henum2)
    as (_ & Hrange & Hbinds).
  split.
  - destruct (cameras !! Z.to_nat (index c)) as [c'|] eqn:Hposition.
    + split.
      * rewrite Hloop in Hposition.
        apply enumerate_loop_position in Hposition. lia.
      * apply Hbinds; [exact Hok | exact Hnonneg | reflexivity].
    + apply Hrange; [exact Hok|]. right.
      apply lookup_ge_None in Hposition. lia.
  - intros k Hk Hbefore Hposition.
    assert (Hsorted : StronglySorted (fun a b => index a < index b) cameras)
      by (rewrite Hloop; apply enumerate_loop_sorted).
    pose proof (enumerate_loop_increasing cameras Hsorted k
                  (Z.to_nat (index c)) c c Hk Hposition) as Hlt.
    lia.
Qed.

Lemma SelectCameraByName_index_as_position_witness :
  friendlyName (camera_info_of usb_camera 1) = "USB Camera"%string
  /\ binds_device integrated_camera
       (enumerated (succeeding three_devices vga)
          (enumerated (succeeding three_devices vga) ready))
       (SelectCameraByName "USB Camera" (succeeding three_devices vga) ready).
Proof.
  pose proof (SelectCameraByName_index_as_position "USB Camera"
                (succeeding three_devices vga) ready S_OK
                [camera_info_of usb_camera 1;
                 camera_info_of integrated_camera 2]
                (camera_info_of usb_camera 1)
                eq_refl eq_refl eq_refl eq_refl) as (Hname & Hbound & _).
  split; [exact Hname|].
  exact (proj2 Hbound).
Defined.

(** ** The construction of the graph *)

Ltac simpl_camera :=
  cbn [camera log fst snd negb andb orb
       m_pGraph m_pCaptureGraphBuilder m_pMediaControl m_pMediaEvent
       m_pCameraFilter m_pSampleGrabberFilter m_pSampleGrabber
       m_pNullRenderer m_pCallback m_isInitialized m_isCapturing
       m_currentCapabilities
       set_m_pGraph set_m_pCaptureGraphBuilder set_m_pMediaControl
       set_m_pMediaEvent set_m_pCameraFilter set_m_pSampleGrabberFilter
       set_m_pSampleGrabber set_m_pNullRenderer set_m_pCallback
       set_m_isInitialized set_m_isCapturing set_m_currentCapabilities].

Ltac use_fields :=
  repeat match goal with
         | H : _ (camera _) = _ |- _ => rewrite H
         | H : FAILED _ = _ |- _ => rewrite H
         end.

Ltac norm_log :=
  cbn [log camera]; rewrite ?length_app; cbn [length];
  rewrite <- ?app_assoc; cbn [app].

Ltac follow_plan_to_end :=
  cbn [app];
  repeat (first [ apply plan_failed; assumption
                | apply plan_next; [first [assumption | reflexivity]|]
                | apply plan_done
                | match goal with
                  | |- follows_plan [?c] [(?c, ?hr)] =>
                      let H := fresh "Hlast" in
                      destruct (FAILED hr) eqn:H;
                      [ apply plan_failed; exact H
                      | apply plan_next; [exact H | apply plan_done] ]
                  end ]).

Ltac run_camera :=
  unfold_calls; simpl_camera; use_fields; simpl_camera;
  repeat (name_status; simpl_camera; use_fields; try case_status;
          simpl_camera; use_fields; simpl_camera).

Lemma references_held_snoc (p : CallbackPtr) (entries : list (Call * Z))
    (entry : Call * Z) :
  references_held p (entries ++ [entry])
  = references_held p entries + callback_delta p entry.
Proof. rewrite references_held_app. unfold references_held. cbn. lia. Qed.

(** X24: SetupSampleGrabber makes its calls in a fixed order and returns
    at the first failure with that status: the creation of the sample
    grabber, the query for its interface, the media type, the callback
    with BufferCB as the method, the buffering switched off, the addition
    to the graph.  The callback that is registered is the one installed
    when there is one; otherwise SetupSampleGrabber creates its own and
    installs it, and then holds the one reference on it.  The process ends
    only on a camera without a graph. *)
Theorem SetupSampleGrabber_spec (mediaSubType : MediaSubType) (env : Env)
    (w : World) :
  (SetupSampleGrabber mediaSubType env w = Crash
   /\ m_pGraph (camera w) = false)
  \/ exists (hr : Z) (w' : World) (added : list (Call * Z)) (p : CallbackPtr),
       SetupSampleGrabber mediaSubType env w = Ret (hr, w')
       /\ log w' = log w ++ added
       /\ follows_plan
            (SetupSampleGrabber_calls mediaSubType (m_pCallback (camera w)) p)
            added
       /\ (exists c : Call, last added = Some (c, hr))
       /\ match m_pCallback (camera w) with
          | Some q => p = q /\ m_pCallback (camera w') = Some q
          | None => p = OwnCallback (length (log w) + 3)
                    /\ (m_pCallback (camera w') = None
                        \/ m_pCallback (camera w') = Some p)
          end
       /\ (references_balanced w -> references_balanced w')
       /\ (FAILED hr = false ->
           m_pGraph (camera w) = true
           /\ m_pSampleGrabberFilter (camera w') = true
           /\ m_pSampleGrabber (camera w') = true
           /\ m_pCallback (camera w') = Some p).
Proof.
  destruct (m_pCallback (camera w)) as [q|] eqn:Hcallback;
    destruct (m_pGraph (camera w)) eqn:Hgraph;
    unfold SetupSampleGrabber; run_camera;
    (first
       [ left; split; reflexivity
       | right; eexists; eexists; eexists;
         lazymatch goal with
         | |- context [SetupSampleGrabber_calls _ (Some ?q) _] => exists q
         | |- _ => exists (OwnCallback (length (log w) + 3))
         end;
         rewrite ?length_app; cbn [length];
         rewrite <- ?Nat.add_assoc; cbn [Nat.add];
         (split; [reflexivity|]);
         (split; [norm_log; reflexivity|]);
         (split; [unfold SetupSampleGrabber_calls; follow_plan_to_end|]);
         (split; [eexists; reflexivity|]);
         (split; [simpl_camera; use_fields; auto|]);
         (split; [intros Hbalanced x; simpl_camera;
                  rewrite ?references_held_snoc, (Hbalanced x);
                  use_fields; cbn [callback_delta fst]; eqb_cases|]);
         simpl_camera; use_fields;
         first [ intros _; repeat split; reflexivity
               | intros Hok; congruence ] ]).
Qed.

Lemma Enumeratecameras_first (world : DeviceEnumeration) (hr : Z)
    (cameras : list CameraInfo) :
  DirectShowCamera.Enumeratecameras world [] = Ret (hr, cameras) ->
  (FAILED hr = true /\ (hr = CoCreateInstance_hr world \/ hr = VFW_E_NOT_FOUND))
  \/ (FAILED hr = false
      /\ exists (first : CameraInfo) (others : list CameraInfo),
           cameras = first :: others).
Proof.
  intros Henum. destruct (FAILED hr) eqn:Hfailed.
  - left. split; [reflexivity|].
    unfold DirectShowCamera.Enumeratecameras in Henum.
    destruct (FAILED (CoCreateInstance_hr world)).
    { injection Henum as <- _. left. reflexivity. }
    destruct (CreateClassEnumerator_hr world =? S_FALSE).
    { injection Henum as <- _. right. reflexivity. }
    destruct (pEnum world) as [monikers|]; [|discriminate].
    injection Henum as <- _.
    destruct (enumerate_loop monikers 0 []); [right; reflexivity|].
    discriminate.
  - right. split; [reflexivity|].
    destruct (Enumeratecameras_succeeded _ _ _ Henum Hfailed)
      as (monikers & _ & _ & Hne).
    destruct cameras as [|first others]; [congruence|].
    exists first, others. reflexivity.
Qed.

(** X25: BuildFilterGraph on a camera that holds a graph and a capture
    graph builder, as after Initialize, with an enumeration of the devices
    that comes back when no camera is selected yet.  The process does not
    end.  On success the camera holds a camera filter, the sample grabber
    with its interface, the null renderer and a callback, and the last
    call is RenderStream from the camera filter through the sample
    grabber to the null renderer.  A failure is the status of the last
    call made, or VFW_E_NOT_FOUND from the enumeration.  A camera whose
    references on its callback are in balance keeps them in balance. *)
Theorem BuildFilterGraph_initialized (env : Env) (w : World) :
  m_pGraph (camera w) = true ->
  m_pCaptureGraphBuilder (camera w) = true ->
  (m_pCameraFilter (camera w) = None ->
   exists r, DirectShowCamera.Enumeratecameras (devices env (log w)) [] = Ret r) ->
  exists (hr : Z) (w' : World) (added : list (Call * Z)),
    BuildFilterGraph env w = Ret (hr, w')
    /\ log w' = log w ++ added
    /\ (FAILED hr = false ->
        (exists m, m_pCameraFilter (camera w') = Some m)
        /\ m_pSampleGrabberFilter (camera w') = true
        /\ m_pSampleGrabber (camera w') = true
        /\ m_pNullRenderer (camera w') = true
        /\ (exists p, m_pCallback (camera w') = Some p)
        /\ last added
           = Some (RenderStream (m_pCameraFilter (camera w')) true true, hr))
    /\ (FAILED hr = true ->
        (exists c : Call, last added = Some (c, hr)) \/ hr = VFW_E_NOT_FOUND)
    /\ (references_balanced w -> references_balanced w').
Proof.
  intros Hgraph Hbuilder Henum.
  destruct (m_pCallback (camera w)) as [q|] eqn:Hcallback;
    destruct (m_pCameraFilter (camera w)) as [m|] eqn:Hfilter.
  all: unfold BuildFilterGraph, SelectCamera, Camera.Enumeratecameras.
  all: try (destruct (Henum eq_refl) as [[hr0 cameras] Hresult];
            unfold_calls; simpl_camera; use_fields; simpl_camera;
            rewrite Hresult; cbn [fst snd];
            destruct (Enumeratecameras_first _ _ _ Hresult)
              as [[Hfailed Hwhich] | (Hfailed & first & others & ->)];
            cbn [length Z.ltb Z.compare orb];
            try change (Z.of_nat (S (length others)) <=? 0) with false;
            try change ((first :: others) !! Z.to_nat 0) with (Some first)).
  all: unfold SetupSampleGrabber; run_camera.
  all: eexists; eexists; eexists;
    (split; [reflexivity|]);
    (split; [norm_log; reflexivity|]);
    simpl_camera; use_fields;
    (split;
     [first [ intros Hok; discriminate Hok
            | intros _;
              (split; [eexists; reflexivity|]);
              (split; [reflexivity|]);
              (split; [reflexivity|]);
              (split; [reflexivity|]);
              (split; [eexists; reflexivity|]);
              reflexivity ]|]);
    (split;
     [intros _;
      first [ left; eexists; reflexivity
            | destruct Hwhich as [Hw|Hw];
              [ left; eexists; rewrite Hw; reflexivity
              | right; exact Hw ] ]|]);
    intros Hbalanced x; simpl_camera;
    rewrite ?references_held_snoc, (Hbalanced x);
    use_fields; cbn [callback_delta fst]; eqb_cases.
Qed.

Lemma BuildFilterGraph_initialized_witness :
  m_pGraph (camera ready) = true
  /\ m_pCaptureGraphBuilder (camera ready) = true
  /\ exists (hr : Z) (w' : World) (added : list (Call * Z)),
       BuildFilterGraph (succeeding three_devices vga) ready = Ret (hr, w')
       /\ log w' = log ready ++ added
       /\ (FAILED hr = false ->
           (exists m, m_pCameraFilter (camera w') = Some m)
           /\ m_pSampleGrabberFilter (camera w') = true
           /\ m_pSampleGrabber (camera w') = true
           /\ m_pNullRenderer (camera w') = true
           /\ (exists p, m_pCallback (camera w') = Some p)
           /\ last added
              = Some (RenderStream (m_pCameraFilter (camera w')) true true,
                      hr))
       /\ (FAILED hr = true ->
           (exists c : Call, last added = Some (c, hr))
           \/ hr = VFW_E_NOT_FOUND)
       /\ (references_balanced ready -> references_balanced w').
Proof.
  split; [reflexivity|]. split; [reflexivity|].
  exact (BuildFilterGraph_initialized (succeeding three_devices vga) ready
           eq_refl eq_refl (fun _ => ex_intro _ _ eq_refl)).
Defined.

(** X26: BuildFilterGraph on a camera without a graph, as before
    Initialize or after Cleanup, never succeeds: either a call fails and
    its status is returned, or the process ends at the first use of the
    graph.  On a platform where every call succeeds and a camera is found,
    the process ends. *)
Theorem BuildFilterGraph_without_graph (env : Env) (w : World) :
  m_pGraph (camera w) = false ->
  (BuildFilterGraph env w = Crash
   \/ exists (hr : Z) (w' : World),
        BuildFilterGraph env w = Ret (hr, w') /\ FAILED hr = true)
  /\ ((forall (l : list (Call * Z)) (c : Call), FAILED (answers env l c) = false) ->
      (m_pCameraFilter (camera w) = None ->
       exists cameras : list CameraInfo,
         DirectShowCamera.Enumeratecameras (devices env (log w)) []
         = Ret (S_OK, cameras)) ->
      BuildFilterGraph env w = Crash).
Proof.
  intros Hgraph. split.
  - destruct (m_pCallback (camera w)) as [q|] eqn:Hcallback;
      destruct (m_pCameraFilter (camera w)) as [m|] eqn:Hfilter.
    all: unfold BuildFilterGraph, SelectCamera, Camera.Enumeratecameras.
    all: try (unfold_calls; simpl_camera; use_fields; simpl_camera;
              destruct (DirectShowCamera.Enumeratecameras
                          (devices env (log w)) [])
                as [|[hr0 cameras]] eqn:Hresult;
              [left; reflexivity|];
              cbn [fst snd];
              destruct (Enumeratecameras_first _ _ _ Hresult)
                as [[Hfailed Hwhich] | (Hfailed & first & others & ->)];
              cbn [length Z.ltb Z.compare orb];
              try change (Z.of_nat (S (length others)) <=? 0) with false;
              try change ((first :: others) !! Z.to_nat 0) with (Some first)).
    all: unfold SetupSampleGrabber; run_camera.
    all: first [ left; reflexivity
               | right; eexists; eexists; split; [reflexivity | assumption] ].
  - intros Hall Henum.
    destruct (m_pCallback (camera w)) as [q|] eqn:Hcallback;
      destruct (m_pCameraFilter (camera w)) as [m|] eqn:Hfilter.
    all: unfold BuildFilterGraph, SelectCamera, Camera.Enumeratecameras.
    all: try (destruct (Henum eq_refl) as [cameras Hresult];
              unfold_calls; simpl_camera; use_fields; simpl_camera;
              rewrite Hresult; cbn [fst snd];
              destruct (Enumeratecameras_first _ _ _ Hresult)
                as [[Hfailed _] | (_ & first & others & ->)];
              [discriminate Hfailed|];
              change (FAILED S_OK) with false;
              cbn [length Z.ltb Z.compare orb];
              try change (Z.of_nat (S (length others)) <=? 0) with false;
              try change ((first :: others) !! Z.to_nat 0) with (Some first)).
    all: unfold SetupSampleGrabber; unfold_calls;
      repeat (simpl_camera; use_fields;
              rewrite ?SUCCEEDED_not_FAILED, ?Hall; cbn [negb]);
      reflexivity.
Qed.

Lemma BuildFilterGraph_without_graph_witness :
  m_pGraph (camera fresh) = false
  /\ BuildFilterGraph (succeeding three_devices vga) fresh = Crash.
Proof.
  split; [reflexivity|].
  refine (proj2 (BuildFilterGraph_without_graph
                   (succeeding three_devices vga) fresh eq_refl) _ _).
  - intros l c. reflexivity.
  - intros _. eexists. reflexivity.
Defined.

(** ** The order of the steps of BuildFilterGraph *)

(** Steps that all succeed are all performed, and the steps after them
    follow. *)
Lemma perform_in_order_app (env : Env) (before : list GraphStep) :
  forall (rest : list GraphStep) (w w1 : World)
         (trace : list (GraphStep * Z)),
    perform_in_order before env w = Ret (trace, w1) ->
    Forall succeeded trace ->
    fst <$> trace = before
    /\ perform_in_order (before ++ rest) env w
       = match perform_in_order rest env w1 with
         | Crash => Crash
         | Ret (more, w2) => Ret (trace ++ more, w2)
         end.
Proof.
  induction before as [|step before IH]; intros rest w w1 trace Hrun Hall.
  - cbn in Hrun. injection Hrun as <- <-. split; [reflexivity|].
    cbn [app]. destruct (perform_in_order rest env w) as [|[more w2]];
      reflexivity.
  - cbn [perform_in_order app] in *. unfold Camera.bind in *.
    destruct (perform step env w) as [|[hr w0]]; [discriminate|].
    destruct (FAILED hr) eqn:Hfailed.
    { cbn in Hrun. injection Hrun as <- <-.
      apply Forall_cons in Hall. destruct Hall as [Hhead _].
      unfold succeeded in Hhead. cbn in Hhead. congruence. }
    destruct (perform_in_order before env w0) as [|[done w3]] eqn:Hrest;
      [discriminate|].
    cbn in Hrun. injection Hrun as <- <-.
    apply Forall_cons in Hall. destruct Hall as [_ Hall].
    destruct (IH rest w0 w3 done Hrest Hall) as [Hsteps ->].
    split; [cbn; rewrite Hsteps; reflexivity|].
    destruct (perform_in_order rest env w3) as [|[more w2]]; reflexivity.
Qed.

(** BuildFilterGraph is its planned steps performed in order. *)
Lemma BuildFilterGraph_steps (env : Env) (w : World) :
  match perform_in_order (planned_steps (camera_selected (camera w))) env w
  with
  | Crash => BuildFilterGraph env w = Crash
  | Ret (trace, w') =>
      exists (before : list (GraphStep * Z)) (step : GraphStep) (hr : Z),
        trace = before ++ [(step, hr)]
        /\ BuildFilterGraph env w = Ret (hr, w')
        /\ Forall succeeded before
        /\ (fst <$> trace) `prefix_of`
             planned_steps (camera_selected (camera w))
        /\ (FAILED hr = false ->
            fst <$> trace = planned_steps (camera_selected (camera w)))
  end.
Proof.
  unfold BuildFilterGraph, camera_selected, planned_steps.
  destruct (m_pCameraFilter (camera w)) as [m|] eqn:Hfilter;
    cbn [app perform_in_order perform];
    unfold Camera.bind, Camera.ret, get; cbn beta iota; rewrite Hfilter;
    repeat match goal with
           | |- context [match ?step env ?w0 with Crash => _ | Ret _ => _ end] =>
               lazymatch step with
               | SelectCamera _ => idtac
               | SetupSampleGrabber _ => idtac
               | SetupNullRenderer => idtac
               | ConnectFilters => idtac
               end;
               let hr := fresh "hr" in
               let w1 := fresh "w" in
               let H := fresh "Hstatus" in
               destruct (step env w0) as [|[hr w1]]; [reflexivity|];
               try (destruct (FAILED hr) eqn:H)
           end.
  all: first
    [ eexists [], _, _; cbn [app];
      (split; [reflexivity|]); (split; [reflexivity|]);
      (split; [constructor|]);
      (split; [eexists; reflexivity | intros Hok; congruence])
    | eexists [_], _, _; cbn [app];
      (split; [reflexivity|]); (split; [reflexivity|]);
      (split; [repeat constructor; assumption|]);
      (split; [eexists; reflexivity | intros Hok; congruence])
    | eexists [_; _], _, _; cbn [app];
      (split; [reflexivity|]); (split; [reflexivity|]);
      (split; [repeat constructor; assumption|]);
      (split; [eexists; reflexivity
              | intros Hok; first [congruence | reflexivity]])
    | eexists [_; _; _], _, _; cbn [app];
      (split; [reflexivity|]); (split; [reflexivity|]);
      (split; [repeat constructor; assumption|]);
      (split; [eexists; reflexivity
              | intros Hok; first [congruence | reflexivity]]) ].
Qed.

(** C6: BuildFilterGraph is its planned steps performed in order: camera 0
    is selected first when no camera filter is set, then the sample
    grabber is set up, then the null renderer, then the filters are
    connected.  The steps performed are a front part of that plan, every
    step but the last one performed succeeded, the status returned is the
    status of the last step performed, and all planned steps are performed
    when that status is a success.  So when a step fails after the steps
    before it succeeded, its status is returned unchanged and the world is
    left as that step left it: no call of a later step is made.  The
    process ends exactly when a step that is reached ends it.
    ConnectFilters is one RenderStream call from the camera filter through
    the sample grabber to the null renderer, made through the capture
    graph builder. *)
Theorem BuildFilterGraph_order (env : Env) (w : World) :
  planned_steps (camera_selected (camera w))
  = match m_pCameraFilter (camera w) with
    | Some _ => []
    | None => [StepSelectCamera 0]
    end
    ++ [StepSetupSampleGrabber MEDIASUBTYPE_RGB24; StepSetupNullRenderer;
        StepConnectFilters]
  /\ match perform_in_order (planned_steps (camera_selected (camera w))) env w
     with
     | Crash => BuildFilterGraph env w = Crash
     | Ret (trace, w') =>
         exists (before : list (GraphStep * Z)) (step : GraphStep) (hr : Z),
           trace = before ++ [(step, hr)]
           /\ BuildFilterGraph env w = Ret (hr, w')
           /\ Forall succeeded before
           /\ (fst <$> trace) `prefix_of`
                planned_steps (camera_selected (camera w))
           /\ (FAILED hr = false ->
               fst <$> trace = planned_steps (camera_selected (camera w)))
     end
  /\ (forall (before after : list GraphStep) (step : GraphStep)
             (trace : list (GraphStep * Z)) (w1 : World),
        planned_steps (camera_selected (camera w)) = before ++ step :: after ->
        perform_in_order before env w = Ret (trace, w1) ->
        Forall succeeded trace ->
        (perform step env w1 = Crash -> BuildFilterGraph env w = Crash)
        /\ (forall (hr : Z) (w2 : World),
              perform step env w1 = Ret (hr, w2) ->
              FAILED hr = true \/ after = [] ->
              BuildFilterGraph env w = Ret (hr, w2)))
  /\ (forall (env0 : Env) (w0 : World),
        ConnectFilters env0 w0
        = if m_pCaptureGraphBuilder (camera w0)
          then
            let c := RenderStream (m_pCameraFilter (camera w0))
                       (m_pSampleGrabberFilter (camera w0))
                       (m_pNullRenderer (camera w0)) in
            Ret (answers env0 (log w0) c,
                 {| camera := camera w0;
                    log := log w0 ++ [(c, answers env0 (log w0) c)] |})
          else Crash).
Proof.
  split.
  { unfold planned_steps, camera_selected.
    destruct (m_pCameraFilter (camera w)); reflexivity. }
  split; [apply BuildFilterGraph_steps|].
  split.
  - intros before after step trace w1 Hplan Hbefore Hall.
    pose proof (BuildFilterGraph_steps env w) as Hsteps.
    destruct (perform_in_order_app env before (step :: after) w w1 trace
                Hbefore Hall) as [Htrace Hrun].
    rewrite Hplan, Hrun in Hsteps. cbn [perform_in_order] in Hsteps.
    unfold Camera.bind in Hsteps. split.
    + intros Hcrash. rewrite Hcrash in Hsteps. exact Hsteps.
    + intros hr w2 Hstep Hlast. rewrite Hstep in Hsteps.
      assert (Hend : exists w3 more,
                match
                  (if FAILED hr then Camera.ret [(step, hr)]
                   else fun env1 w4 =>
                     match perform_in_order after env1 w4 with
                     | Crash => Crash
                     | Ret (done, w5) =>
                         Camera.ret ((step, hr) :: done) env1 w5
                     end) env w2
                with
                | Crash => Crash
                | Ret (more0, w6) => Ret (trace ++ more0, w6)
                end = Ret (trace ++ [(step, hr)] ++ more, w3)
                /\ (more = [] -> w3 = w2) /\ more = []).
      { destruct (FAILED hr) eqn:Hfailed.
        - exists w2, []. repeat split.
        - destruct Hlast as [Hlast | ->]; [discriminate|].
          exists w2, []. repeat split. }
      destruct Hend as (w3 & more & Hend & Hsame & ->).
      rewrite (Hsame eq_refl) in Hend. cbn [app] in Hend.
      rewrite Hend in Hsteps.
      destruct Hsteps as (before' & step' & hr' & Heq & Hresult & _).
      rewrite Hresult. apply app_inj_tail in Heq as [_ Heq].
      injection Heq as _ <-. reflexivity.
  - intros env0 w0. unfold ConnectFilters. unfold_calls.
    destruct (m_pCaptureGraphBuilder (camera w0)); reflexivity.
Qed.

Lemma BuildFilterGraph_order_witness :
  exists w' : World,
    BuildFilterGraph without_null_renderer ready = Ret (E_FAIL, w')
    /\ perform_in_order (planned_steps (camera_selected (camera ready)))
         without_null_renderer ready
       = Ret ([ (StepSelectCamera 0, S_OK);
                (StepSetupSampleGrabber MEDIASUBTYPE_RGB24, S_OK);
                (StepSetupNullRenderer, E_FAIL) ], w').
Proof.
  destruct (BuildFilterGraph_order without_null_renderer ready)
    as (_ & Hsteps & _).
  destruct (perform_in_order (planned_steps (camera_selected (camera ready)))
              without_null_renderer ready) as [|[trace w']] eqn:Hrun;
    [vm_compute in Hrun; discriminate|].
  destruct Hsteps as (before & step & hr & Htrace & Hresult & _).
  exists w'. vm_compute in Hrun. injection Hrun as <- Hw.
  split; [|reflexivity].
  rewrite Hresult. f_equal. f_equal.
  destruct before as [|e1 [|e2 [|e3 [|e4 before]]]];
    cbn [app] in Htrace; try discriminate.
  injection Htrace as _ _ _ <-. reflexivity.
Defined.

(** ** The format of the camera and the saved frame *)

Lemma abs_long_abs (z : Z) :
  LONG_MIN < z <= LONG_MAX ->
  abs_long z = Z.abs z /\ 0 <= abs_long z <= LONG_MAX.
Proof.
  intros Hz. unfold abs_long. destruct (Z.ltb_spec z 0).
  - rewrite neg_long_opp by exact Hz. unfold LONG_MIN, LONG_MAX in *. lia.
  - unfold LONG_MIN, LONG_MAX in *. lia.
Qed.

(** X27: main asks the camera for its format after the graph is built and
    hands the answer to the frame saver.  On a camera with a sample
    grabber this is one call of GetConnectedMediaType.  When it fails the
    saver is left alone and estimates the dimensions later.  When it
    succeeds with a video-info format, the camera records the width and
    the absolute height, and every file the saver writes afterwards
    carries that width and the negated absolute height, whatever the size
    of the frame.  When it succeeds with another format, GetCameraFormat
    stores nothing, and the saver is configured with whatever the two
    uninitialised locals of main hold. *)
Theorem saved_frame_has_camera_format (width height : Z)
    (pFrameSaver : CFrameSavingCallback.t) (env : Env) (w : World) :
  m_pSampleGrabber (camera w) = true ->
  exists (saver' : CFrameSavingCallback.t) (w' : World),
    configure_saver width height pFrameSaver env w = Ret (saver', w')
    /\ log w'
       = log w ++ [(GetConnectedMediaType,
                    answers env (log w) GetConnectedMediaType)]
    /\ m_frameSaved saver' = m_frameSaved pFrameSaver
    /\ (FAILED (answers env (log w) GetConnectedMediaType) = true ->
        saver' = pFrameSaver /\ camera w' = camera w)
    /\ (FAILED (answers env (log w) GetConnectedMediaType) = false ->
        formattype_is_VideoInfo (connected_type env (log w)) = false ->
        m_imageWidth saver' = width /\ m_imageHeight saver' = height
        /\ camera w' = camera w)
    /\ (FAILED (answers env (log w) GetConnectedMediaType) = false ->
        formattype_is_VideoInfo (connected_type env (log w)) = true ->
        m_currentCapabilities (camera w')
        = (bmi_biWidth (connected_type env (log w)),
           abs_long (bmi_biHeight (connected_type env (log w))))
        /\ (bmi_biWidth (connected_type env (log w)) <> 0 ->
            bmi_biHeight (connected_type env (log w)) <> 0 ->
            LONG_MIN < bmi_biHeight (connected_type env (log w)) <= LONG_MAX ->
            forall (create_ok : bool) (frameData : option (list byte))
                   (frameSize : Z) (this' : CFrameSavingCallback.t)
                   (f : bmp_file),
              CFrameSavingCallback.ProcessFrame create_ok saver' frameData
                frameSize = Ret (this', Some f) ->
              biWidth (info_header f)
              = bmi_biWidth (connected_type env (log w))
              /\ biHeight (info_header f)
                 = - Z.abs (bmi_biHeight (connected_type env (log w))))).
Proof.
  intros Hgrabber.
  unfold configure_saver, GetCameraFormat. unfold_calls.
  rewrite Hgrabber. simpl_camera.
  set (mt := connected_type env (log w)).
  set (hr := answers env (log w) GetConnectedMediaType).
  rewrite (SUCCEEDED_not_FAILED hr).
  destruct (FAILED hr) eqn:Hfailed; cbn [negb andb]; simpl_camera.
  { rewrite (SUCCEEDED_not_FAILED hr), Hfailed. cbn [negb].
    eexists; eexists. split; [reflexivity|].
    repeat split; try reflexivity; discriminate. }
  destruct (formattype_is_VideoInfo mt) eqn:Hformat; simpl_camera;
    rewrite (SUCCEEDED_not_FAILED hr), Hfailed; cbn [negb];
    eexists; eexists; (split; [reflexivity|]);
    (split; [reflexivity|]); (split; [reflexivity|]);
    (split; [discriminate|]).
  - split; [discriminate|]. intros _ _. split; [reflexivity|].
    intros Hwidth Hheight Hrange create_ok frameData frameSize this' f Hrun.
    destruct (abs_long_abs _ Hrange) as [Habs Hbound].
    apply ProcessFrame_written in Hrun
      as (data & saved & _ & _ & _ & Hsave & _).
    apply SaveFrameAsBMP_inv in Hsave as (Hdims & _ & Hfile).
    unfold image_dimensions, SetImageDimensions in Hdims.
    cbn [m_imageWidth m_imageHeight] in Hdims.
    replace (bmi_biWidth mt =? 0) with false in Hdims
      by (symmetry; apply Z.eqb_neq; exact Hwidth).
    replace (abs_long (bmi_biHeight mt) =? 0) with false in Hdims
      by (symmetry; apply Z.eqb_neq; lia).
    cbn [orb] in Hdims. injection Hdims as Hw Hh.
    destruct create_ok; [|discriminate]. injection Hfile as ->.
    cbn [info_header info_header_of biWidth biHeight].
    rewrite <- Hw, <- Hh. split; [reflexivity|].
    rewrite neg_long_opp by (unfold LONG_MIN in *; lia). lia.
  - split; [|discriminate]. intros _ _. repeat split.
Qed.

Lemma saved_frame_has_camera_format_witness :
  m_pSampleGrabber (camera built) = true
  /\ exists (saver' : CFrameSavingCallback.t) (w' : World),
       configure_saver 0 0 CFrameSavingCallback.create
         (succeeding three_devices vga) built = Ret (saver', w')
       /\ m_imageWidth saver' = 640 /\ m_imageHeight saver' = 480.
Proof.
  split; [reflexivity|].
  destruct (saved_frame_has_camera_format 0 0 CFrameSavingCallback.create
              (succeeding three_devices vga) built eq_refl)
    as (saver' & w' & Hrun & _).
  exists saver', w'. split; [exact Hrun|].
  vm_compute in Hrun. injection Hrun as <- _. split; reflexivity.
Defined.

(** ** Pure and platform-dependent operations *)

Lemma pure_operations_independent (op : operation) :
  op ∈ pure_operations -> platform_independent op.
Proof.
  unfold pure_operations. intros Hin.
  apply list_elem_of_In in Hin. cbn in Hin.
  repeat (destruct Hin as [<- | Hin]; [intros p q x; reflexivity|]).
  destruct Hin.
Qed.

(** Two platforms that differ in every answer tell the other operations
    apart. *)
Lemma independent_operations_pure (op : operation) :
  platform_independent op -> op ∈ pure_operations.
Proof.
  pose (world1 := {| CoCreateInstance_hr := S_OK;
                     CreateClassEnumerator_hr := S_FALSE; pEnum := None |}).
  pose (world2 := {| CoCreateInstance_hr := E_FAIL;
                     CreateClassEnumerator_hr := S_FALSE; pEnum := None |}).
  pose (p := {| GetTickCount := 0; CreateFileA_ok := true;
                device_enumeration := world1;
                com := succeeding three_devices vga |}).
  pose (q := {| GetTickCount := 1000; CreateFileA_ok := false;
                device_enumeration := world2;
                com := failing |}).
  intros Hind. destruct op;
    try (apply list_elem_of_In; cbn; tauto); exfalso.
  - specialize (Hind p q
      {| m_refCount := 1; m_frameCount := 30; m_startTime := 0;
         m_lastFrameTime := 0 |}).
    discriminate.
  - specialize (Hind p q
      {| m_refCount := 1; m_frameCount := 30; m_startTime := 0;
         m_lastFrameTime := 0 |}).
    discriminate.
  - specialize (Hind p q (CFrameSavingCallback.create,
                          Some [x01; x02; x03], 3)).
    discriminate.
  - specialize (Hind p q []). discriminate.
  - specialize (Hind p q fresh). vm_compute in Hind. discriminate.
  - specialize (Hind p q (0, ready)). vm_compute in Hind. discriminate.
  - specialize (Hind p q ("USB Camera"%string, ready)).
    vm_compute in Hind. discriminate.
  - specialize (Hind p q (MEDIASUBTYPE_RGB24, ready)).
    vm_compute in Hind. discriminate.
  - specialize (Hind p q (Some (UserCallback 1), built)).
    vm_compute in Hind. discriminate.
  - specialize (Hind p q ready). vm_compute in Hind. discriminate.
  - specialize (Hind p q ready). vm_compute in Hind. discriminate.
  - specialize (Hind p q capturing). vm_compute in Hind. discriminate.
  - specialize (Hind p q ready). vm_compute in Hind. discriminate.
  - specialize (Hind p q (0, 0, built)). vm_compute in Hind. discriminate.
Qed.

(** C8 as stated fails: CalculateAverageBrightness and GetErrorDescription
    compute their result from their arguments alone. *)
Lemma pure_logic_exists :
  platform_independent OpCalculateAverageBrightness
  /\ platform_independent OpGetErrorDescription
  /\ ~ (forall op : operation, ~ platform_independent op).
Proof.
  assert (H1 : platform_independent OpCalculateAverageBrightness).
  { apply pure_operations_independent, list_elem_of_In. cbn. tauto. }
  assert (H2 : platform_independent OpGetErrorDescription).
  { apply pure_operations_independent, list_elem_of_In. cbn. tauto. }
  repeat split; auto. intros Hclaim. exact (Hclaim _ H1).
Qed.

(** C8, as the code has it, for the operations listed in [operation]: the
    ones whose result is a function of their explicit inputs alone are
    CalculateAverageBrightness, GetErrorDescription, QueryInterface,
    AddRef, Release, SampleCB and SetImageDimensions; the result of each
    of the others changes with what the platform answers: the tick counter
    for ResetStatistics and GetAverageFPS, the creation of the file for
    the frame-saving ProcessFrame, the device enumeration for
    Enumeratecameras, and the status of the COM calls for Initialize,
    SelectCamera, SelectCameraByName, SetupSampleGrabber,
    SetCustomCallback, BuildFilterGraph, StartCapture, StopCapture,
    PauseCapture and GetCameraFormat. *)
Theorem platform_independent_operations (op : operation) :
  platform_independent op <-> op ∈ pure_operations.
Proof.
  split; [apply independent_operations_pure | apply pure_operations_independent].
Qed.
